(** * Order execution engine: a shallow embedding and its properties

    The development follows the TypeScript sources of the engine:
    - [types/order.types.ts]: the enumerations and the record shapes;
    - [services/dex-router.service.ts]: the mock venues, quote comparison
      and validation;
    - [services/order.service.ts]: the order store (Prisma rows and their
      Redis copies);
    - [services/order-execution.service.ts]: the execution pipeline;
    - [services/order-queue.service.ts]: admission into the job queue;
    - [services/websocket.service.ts]: the per-order connection registry;
    - [index.ts]: the wiring of the status hook to the registry.

    JavaScript numbers are IEEE-754 binary64 values and are modelled by
    Rocq's primitive floats; asynchronous code is modelled by a state and
    exception monad over one [World] that holds the table, the cache, the
    registry, the pending timers, the clock and the history of effects. *)

From Stdlib Require Import Floats ZArith Lia Ascii String.
From stdpp Require Import gmap strings list.

Set Default Proof Using "Type".

(** ** Strings *)

(** [String.prototype.toUpperCase] on the ASCII range, which is all the
    enumeration spellings use. *)
Definition upper_ascii (c : ascii) : ascii :=
  let n := nat_of_ascii c in
  if (97 <=? n)%nat && (n <=? 122)%nat then ascii_of_nat (n - 32) else c.

Fixpoint toUpperCase (s : string) : string :=
  match s with
  | EmptyString => EmptyString
  | String c r => String (upper_ascii c) (toUpperCase r)
  end.

(** [s.replace(/-/g, '')] *)
Fixpoint removeDashes (s : string) : string :=
  match s with
  | EmptyString => EmptyString
  | String c r =>
      if Ascii.eqb c "-"%char then removeDashes r else String c (removeDashes r)
  end.

(** Truthiness of a JavaScript string: every string but the empty one. *)
Definition truthy_string (s : string) : bool :=
  match s with EmptyString => false | String _ _ => true end.

(** ** Numbers *)

(** [a > b] on JavaScript numbers. *)
Definition js_gt (a b : float) : bool := PrimFloat.ltb b a.

(** [a < b] on JavaScript numbers. *)
Definition js_lt (a b : float) : bool := PrimFloat.ltb a b.

(** Truthiness of a JavaScript number: every number but [0], [-0] and
    [NaN]. *)
Definition truthy_number (x : float) : bool :=
  negb (PrimFloat.eqb x 0%float || PrimFloat.is_nan x).

(** An optional property [o.f] used as a condition: [undefined] is falsy. *)
Definition truthy_opt {A} (t : A -> bool) (o : option A) : bool :=
  match o with Some a => t a | None => false end.

(** [Math.trunc] of a finite number. *)
Definition trunc (x : float) : Z :=
  match Prim2SF x with
  | S754_finite s m e =>
      let v := Z.shiftl (Z.pos m) e in
      if s then (- v)%Z else v
  | _ => 0%Z
  end.

(** The number [JSON.parse(JSON.stringify(x))] is: a number that is not
    finite is written as [null], and [-0] as [0]. *)
Definition json_number (x : float) : option float :=
  if PrimFloat.is_nan x || PrimFloat.is_infinity x then None
  else if PrimFloat.eqb x 0 then Some 0%float
  else Some x.

(** ** Timers *)

(** The longest delay a Node timer takes, [2^31 - 1] ms. *)
Definition TIMEOUT_MAX : Z := 2147483647.

(** The delay after which Node fires a timer set by [setTimeout(f, ms)]:
    [ms] itself when it lies between 1 and [TIMEOUT_MAX], and 1 ms
    otherwise. *)
Definition timeout (ms : Z) : Z :=
  if (1 <=? ms)%Z && (ms <=? TIMEOUT_MAX)%Z then ms else 1%Z.

(** The same for a delay that is not a whole number: it is truncated. *)
Definition timeout_number (ms : float) : Z :=
  if PrimFloat.leb 1 ms && PrimFloat.leb ms 2147483647 then trunc ms else 1%Z.

(** ** types/order.types.ts *)

Inductive OrderStatus :=
  PENDING | ROUTING | BUILDING | SUBMITTED | CONFIRMED | FAILED.

Inductive OrderType := MARKET | LIMIT | SNIPER.

Inductive DexType := RAYDIUM | METEORA.

(** The string each enumeration member stands for at run time. *)
Definition OrderStatus_value (s : OrderStatus) : string :=
  match s with
  | PENDING => "pending"
  | ROUTING => "routing"
  | BUILDING => "building"
  | SUBMITTED => "submitted"
  | CONFIRMED => "confirmed"
  | FAILED => "failed"
  end.

Definition OrderType_value (t : OrderType) : string :=
  match t with
  | MARKET => "market"
  | LIMIT => "limit"
  | SNIPER => "sniper"
  end.

Definition DexType_value (d : DexType) : string :=
  match d with
  | RAYDIUM => "raydium"
  | METEORA => "meteora"
  end.

#[global] Instance OrderStatus_eq_dec : EqDecision OrderStatus.
Proof. solve_decision. Defined.

#[global] Instance DexType_eq_dec : EqDecision DexType.
Proof. solve_decision. Defined.

(** A thrown [Error]. *)
Record JsError := { message : string }.

(** [interface DexQuote] *)
Module DexQuote.
Record t := {
  dex : DexType;
  price : float;
  outputAmount : float;
  priceImpact : float;
  timestamp : Z;
}.
End DexQuote.

(** [interface Order].  The columns of enumeration type hold the spelling
    the database uses (upper case), as the rows returned by Prisma do. *)
Module Order.
Record t := {
  id : string;
  type : string;
  status : string;
  fromToken : string;
  toToken : string;
  amount : float;
  selectedDex : option string;
  raydiumPrice : option float;
  meteoraPrice : option float;
  executionPrice : option float;
  txHash : option string;
  slippageTolerance : float;
  retryCount : Z;
  failureReason : option string;
  createdAt : Z;
  updatedAt : Z;
  completedAt : option Z;
}.
End Order.

(** The ISO-8601 text [Date.prototype.toJSON] gives for an instant: a
    string, not a [Date]. *)
Inductive IsoString := ISO (instant : Z).

(** The object [JSON.parse(JSON.stringify(order))] is: every [Date] has
    become a string and every number that is not finite has become
    [null]. *)
Module CachedOrder.
Record t := {
  id : string;
  type : string;
  status : string;
  fromToken : string;
  toToken : string;
  amount : option float;
  selectedDex : option string;
  raydiumPrice : option float;
  meteoraPrice : option float;
  executionPrice : option float;
  txHash : option string;
  slippageTolerance : option float;
  retryCount : Z;
  failureReason : option string;
  createdAt : IsoString;
  updatedAt : IsoString;
  completedAt : option IsoString;
}.
End CachedOrder.

(** The [data] property of [interface OrderStatusUpdate]. *)
Module EventData.
Record t := {
  selectedDex : option DexType;
  raydiumPrice : option float;
  meteoraPrice : option float;
  executionPrice : option float;
  txHash : option string;
  error : option string;
}.
Definition empty : t :=
  {| selectedDex := None; raydiumPrice := None; meteoraPrice := None;
     executionPrice := None; txHash := None; error := None |}.
End EventData.

(** [interface OrderStatusUpdate] *)
Module OrderStatusUpdate.
Record t := {
  orderId : string;
  status : OrderStatus;
  message : string;
  data : option EventData.t;
  timestamp : Z;
}.
End OrderStatusUpdate.

(** ** config/index.ts *)

(** The [queue] and [dex] settings the pipeline reads.  [maxRetries] is
    the result of [parseInt]; a negative or unparsable setting behaves as
    [0] in the only comparison that reads it. *)
Record Config := {
  maxRetries : nat;
  mockExecutionDelay : Z;
}.

Definition config_default : Config :=
  {| maxRetries := 3; mockExecutionDelay := 2500 |}.

(** ** The world the services run in *)

(** The object handed to [prisma.order.update] as [data]: the columns to
    overwrite, and the [{ increment: n }] form for [retryCount]. *)
Module UpdateData.
Record t := {
  status : option string;
  updatedAt : option Z;
  completedAt : option Z;
  selectedDex : option string;
  raydiumPrice : option float;
  meteoraPrice : option float;
  executionPrice : option float;
  txHash : option string;
  failureReason : option string;
  retryCount_increment : option Z;
}.
End UpdateData.

(** The optional [data] argument of [OrderService.updateOrderStatus]. *)
Module StatusData.
Record t := {
  selectedDex : option string;
  raydiumPrice : option float;
  meteoraPrice : option float;
  executionPrice : option float;
  txHash : option string;
  failureReason : option string;
}.
Definition empty : t :=
  {| selectedDex := None; raydiumPrice := None; meteoraPrice := None;
     executionPrice := None; txHash := None; failureReason := None |}.
End StatusData.

(** A registered [SocketStream]: the identity of the object, the
    [readyState] of its socket, and what the transport does when [send]
    and [close] are called on it ([Some e]: the call throws [e]). *)
Module SocketStream.
Record t := {
  ref : nat;
  readyState : Z;
  send_throws : option JsError;
  close_throws : option JsError;
}.
End SocketStream.

Inductive LogLevel := Info | Warn | Error | Debug.

(** What the outside can observe of a run, in the order it happened. *)
Inductive Effect :=
| EStoreUpdate (orderId : string) (data : UpdateData.t)
    (* [prisma.order.update] resolved *)
| EStoreReject (orderId : string) (e : JsError)
    (* [prisma.order.update] rejected *)
| EPublish (update : OrderStatusUpdate.t)
    (* the status hook was called *)
| ESend (ref : nat) (update : OrderStatusUpdate.t) (thrown : option JsError)
    (* [socket.send] was called *)
| EClose (ref : nat) (thrown : option JsError)
    (* [socket.close] was called *)
| EDelay (ms : Z)
    (* a timer of [ms] milliseconds was set and awaited *)
| ECacheReject (key : string) (e : JsError).
    (* a call of the Redis client rejected *)

(** A callback handed to [setTimeout]. *)
Inductive TimerCallback :=
| CloseOrderConnections (orderId : string).

Record Timer := { due : Z; callback : TimerCallback }.

(** Everything the code does not decide itself: the configuration, the
    random draws, the identifiers drawn, and whether the database and the
    Redis server answer.  Each answer is indexed by the number of earlier
    calls. *)
Record Env := {
  config : Config;
  random : nat -> float;
  uuid : nat -> string;
  store_rejects : nat -> option JsError;
  redis_rejects : nat -> option JsError;
  numberToString : float -> string;
}.

(** A job of the [order-execution] queue: the name and payload handed to
    [Queue.add], and the two options the admission sets. *)
Module Job.
Record t := {
  name : string;
  data : Order.t;
  jobId : string;
  priority : Z;
}.
End Job.

(** An entry of the Redis server: the object [JSON.parse] makes of the
    text stored, and the instant at which the entry expires. *)
Record Entry := {
  value : CachedOrder.t;
  expires : Z;
}.

Record World := {
  env : Env;
  clock : Z;
  db : gmap string Order.t;
  cache : gmap string Entry;
  jobs : list Job.t;
  connections : gmap string (list SocketStream.t);
  timers : list Timer;
  trace : list Effect;
  logs : list (LogLevel * string);
  redisCalls : nat;
  randomCalls : nat;
  uuidCalls : nat;
  storeCalls : nat;
}.

Definition set_clock (f : Z -> Z) (w : World) : World :=
  {| env := env w; clock := f (clock w); db := db w; cache := cache w;
     jobs := jobs w; connections := connections w; timers := timers w;
     trace := trace w; logs := logs w; redisCalls := redisCalls w;
     randomCalls := randomCalls w; uuidCalls := uuidCalls w;
     storeCalls := storeCalls w |}.

Definition set_db
    (f : gmap string Order.t -> gmap string Order.t)
    (w : World) : World :=
  {| env := env w; clock := clock w; db := f (db w); cache := cache w;
     jobs := jobs w; connections := connections w; timers := timers w;
     trace := trace w; logs := logs w; redisCalls := redisCalls w;
     randomCalls := randomCalls w; uuidCalls := uuidCalls w;
     storeCalls := storeCalls w |}.

Definition set_cache
    (f : gmap string Entry -> gmap string Entry)
    (w : World) : World :=
  {| env := env w; clock := clock w; db := db w; cache := f (cache w);
     jobs := jobs w; connections := connections w; timers := timers w;
     trace := trace w; logs := logs w; redisCalls := redisCalls w;
     randomCalls := randomCalls w; uuidCalls := uuidCalls w;
     storeCalls := storeCalls w |}.

Definition set_jobs (f : list Job.t -> list Job.t) (w : World) : World :=
  {| env := env w; clock := clock w; db := db w; cache := cache w;
     jobs := f (jobs w); connections := connections w; timers := timers w;
     trace := trace w; logs := logs w; redisCalls := redisCalls w;
     randomCalls := randomCalls w; uuidCalls := uuidCalls w;
     storeCalls := storeCalls w |}.

Definition set_connections
    (f : gmap string (list SocketStream.t) -> gmap string (list SocketStream.t))
    (w : World) : World :=
  {| env := env w; clock := clock w; db := db w; cache := cache w;
     jobs := jobs w; connections := f (connections w); timers := timers w;
     trace := trace w; logs := logs w; redisCalls := redisCalls w;
     randomCalls := randomCalls w; uuidCalls := uuidCalls w;
     storeCalls := storeCalls w |}.

Definition set_timers (f : list Timer -> list Timer) (w : World) : World :=
  {| env := env w; clock := clock w; db := db w; cache := cache w;
     jobs := jobs w; connections := connections w; timers := f (timers w);
     trace := trace w; logs := logs w; redisCalls := redisCalls w;
     randomCalls := randomCalls w; uuidCalls := uuidCalls w;
     storeCalls := storeCalls w |}.

Definition set_trace (f : list Effect -> list Effect) (w : World) : World :=
  {| env := env w; clock := clock w; db := db w; cache := cache w;
     jobs := jobs w; connections := connections w; timers := timers w;
     trace := f (trace w); logs := logs w; redisCalls := redisCalls w;
     randomCalls := randomCalls w; uuidCalls := uuidCalls w;
     storeCalls := storeCalls w |}.

Definition set_logs
    (f : list (LogLevel * string) -> list (LogLevel * string))
    (w : World) : World :=
  {| env := env w; clock := clock w; db := db w; cache := cache w;
     jobs := jobs w; connections := connections w; timers := timers w;
     trace := trace w; logs := f (logs w); redisCalls := redisCalls w;
     randomCalls := randomCalls w; uuidCalls := uuidCalls w;
     storeCalls := storeCalls w |}.

Definition set_redisCalls (f : nat -> nat) (w : World) : World :=
  {| env := env w; clock := clock w; db := db w; cache := cache w;
     jobs := jobs w; connections := connections w; timers := timers w;
     trace := trace w; logs := logs w; redisCalls := f (redisCalls w);
     randomCalls := randomCalls w; uuidCalls := uuidCalls w;
     storeCalls := storeCalls w |}.

Definition set_randomCalls (f : nat -> nat) (w : World) : World :=
  {| env := env w; clock := clock w; db := db w; cache := cache w;
     jobs := jobs w; connections := connections w; timers := timers w;
     trace := trace w; logs := logs w; redisCalls := redisCalls w;
     randomCalls := f (randomCalls w); uuidCalls := uuidCalls w;
     storeCalls := storeCalls w |}.

Definition set_uuidCalls (f : nat -> nat) (w : World) : World :=
  {| env := env w; clock := clock w; db := db w; cache := cache w;
     jobs := jobs w; connections := connections w; timers := timers w;
     trace := trace w; logs := logs w; redisCalls := redisCalls w;
     randomCalls := randomCalls w; uuidCalls := f (uuidCalls w);
     storeCalls := storeCalls w |}.

Definition set_storeCalls (f : nat -> nat) (w : World) : World :=
  {| env := env w; clock := clock w; db := db w; cache := cache w;
     jobs := jobs w; connections := connections w; timers := timers w;
     trace := trace w; logs := logs w; redisCalls := redisCalls w;
     randomCalls := randomCalls w; uuidCalls := uuidCalls w;
     storeCalls := f (storeCalls w) |}.

(** ** The monad of asynchronous code

    An [async] function either resolves, rejects, or (for the recursive
    pipeline only) is cut off by the unrolling bound; the world it leaves
    behind is returned in each case. *)

Inductive Outcome (A : Type) :=
| Ok (a : A)
| Throw (e : JsError)
| Cut.

Arguments Ok {A} a.
Arguments Throw {A} e.
Arguments Cut {A}.

Definition M (A : Type) : Type := World -> Outcome A * World.

Definition ret {A} (a : A) : M A := fun w => (Ok a, w).

Definition bind {A B} (c : M A) (k : A -> M B) : M B :=
  fun w =>
    match c w with
    | (Ok a, w') => k a w'
    | (Throw e, w') => (Throw e, w')
    | (Cut, w') => (Cut, w')
    end.

Definition throw {A} (e : JsError) : M A := fun w => (Throw e, w).

(** [try { body } catch (error) { handler }] *)
Definition try_catch {A} (body : M A) (handler : JsError -> M A) : M A :=
  fun w =>
    match body w with
    | (Throw e, w') => handler e w'
    | r => r
    end.

Declare Scope async_scope.
Delimit Scope async_scope with async.
Notation "x <- c ;; k" := (bind c (fun x => k))
  (at level 100, c at next level, right associativity) : async_scope.
Notation "c ;; k" := (bind c (fun _ => k))
  (at level 100, right associativity) : async_scope.
Open Scope async_scope.

(** [for (x of l) body(x)], as [Set.prototype.forEach] runs its callback. *)
Fixpoint forEach {A} (l : list A) (body : A -> M unit) : M unit :=
  match l with
  | [] => ret tt
  | x :: r => body x ;; forEach r body
  end.

Definition modify (f : World -> World) : M unit := fun w => (Ok tt, f w).

Definition gets {A} (f : World -> A) : M A := fun w => (Ok (f w), w).

(** [this.logger.<level>(..., text)] *)
Definition log (level : LogLevel) (text : string) : M unit :=
  modify (set_logs (fun l => l ++ [(level, text)])).

Definition effect (e : Effect) : M unit :=
  modify (set_trace (fun t => t ++ [e])).

(** [Date.now()] and [new Date()] *)
Definition Date_now : M Z := gets clock.

(** Time passes. *)
Definition advance (ms : Z) : M unit :=
  modify (set_clock (fun c => (c + ms)%Z)).

(** [await this.delay(ms)], which is
    [await new Promise(resolve => setTimeout(resolve, ms))]. *)
Definition delay (ms : Z) : M unit :=
  effect (EDelay (timeout ms)) ;; advance (timeout ms).

(** [Math.random()] *)
Definition Math_random : M float :=
  n <- gets randomCalls ;;
  r <- gets (fun w => random (env w) n) ;;
  modify (set_randomCalls S) ;;
  ret r.

(** [randomUUID()] *)
Definition randomUUID : M string :=
  n <- gets uuidCalls ;;
  u <- gets (fun w => uuid (env w) n) ;;
  modify (set_uuidCalls S) ;;
  ret u.

(** [setTimeout(callback, ms)] *)
Definition setTimeout (cb : TimerCallback) (ms : Z) : M unit :=
  now <- gets clock ;;
  modify (set_timers (fun l =>
    l ++ [{| due := (now + timeout ms)%Z; callback := cb |}])).

(** An [async] function whose body is [await this.delay(ms); rest]: the
    part that runs at the call and sets the timer (it yields [ms]), and
    the part that runs once the timer has fired. *)
Record Awaiting (A : Type) := {
  upto_await : M float;
  from_await : M A;
}.

Arguments upto_await {A} _.
Arguments from_await {A} _.

(** [await Promise.all([a, b])] for two such functions, neither of which
    rejects.  Both run up to their [await], [a] first; the timer that is
    due first fires first, and on equal delays the one set first; each
    function runs on when its timer has fired. *)
Definition Promise_all {A B} (a : Awaiting A) (b : Awaiting B) : M (A * B) :=
  ms_a <- upto_await a ;;
  let wait_a := timeout_number ms_a in
  effect (EDelay wait_a) ;;
  ms_b <- upto_await b ;;
  let wait_b := timeout_number ms_b in
  effect (EDelay wait_b) ;;
  if (wait_a <=? wait_b)%Z
  then
    advance wait_a ;;
    x <- from_await a ;;
    advance (wait_b - wait_a) ;;
    y <- from_await b ;;
    ret (x, y)
  else
    advance wait_b ;;
    y <- from_await b ;;
    advance (wait_a - wait_b) ;;
    x <- from_await a ;;
    ret (x, y).

(** ** services/dex-router.service.ts *)

Module DexRouterService.

(** [generateBasePrice]: the sum of the character codes of the two
    token names, reduced modulo 100, gives a price from 0.1 upwards in
    steps of a tenth. *)
Definition charCodeSum (s : string) : Z :=
  fold_right (fun c acc => (Z.of_nat (nat_of_ascii c) + acc)%Z) 0%Z (list_ascii_of_string s).

Definition generateBasePrice (fromToken toToken : string) : float :=
  let hash := charCodeSum (fromToken +:+ toToken) in
  (0x1.999999999999ap-4 (* 0.1 *)
   + PrimFloat.of_uint63 (Uint63.of_Z (hash mod 100)) / 10)%float.

(** The body that [fetchRaydiumQuote] and [fetchMeteoraQuote] share: a
    delay of 2000 to 3000 ms is awaited, then the price is the base price
    of the pair moved by up to 2.5 % either way, and the price impact is
    up to 2 %. *)
Definition fetchQuote (venue : DexType) (fromToken toToken : string)
    (amount : float) : Awaiting DexQuote.t :=
  {| upto_await :=
       r <- Math_random ;;
       ret (2000 + r * 1000)%float;
     from_await :=
       let basePrice := generateBasePrice fromToken toToken in
       r <- Math_random ;;
       let priceVariation :=
         (1 + (r - 0.5) * 0x1.999999999999ap-5 (* 0.05 *))%float in
       let price := (basePrice * priceVariation)%float in
       let outputAmount := (amount * price)%float in
       r' <- Math_random ;;
       let priceImpact := (r' * 0x1.47ae147ae147bp-6 (* 0.02 *))%float in
       now <- Date_now ;;
       ret {| DexQuote.dex := venue;
              DexQuote.price := price;
              DexQuote.outputAmount := outputAmount;
              DexQuote.priceImpact := priceImpact;
              DexQuote.timestamp := now |} |}.

Definition fetchRaydiumQuote : string -> string -> float -> Awaiting DexQuote.t :=
  fetchQuote RAYDIUM.

Definition fetchMeteoraQuote : string -> string -> float -> Awaiting DexQuote.t :=
  fetchQuote METEORA.

(** [getQuotes]: both venues are asked at once, and the call resolves
    with the two quotes when both have answered. *)
Definition getQuotes (fromToken toToken : string) (amount : float)
    : M (DexQuote.t * DexQuote.t) :=
  log Info "Fetching quotes from DEXs" ;;
  quotes <-
    Promise_all
      (fetchRaydiumQuote fromToken toToken amount)
      (fetchMeteoraQuote fromToken toToken amount) ;;
  log Info "Received quotes from both DEXs" ;;
  ret quotes.

Definition selectBestDex (raydiumQuote meteoraQuote : DexQuote.t) : M DexQuote.t :=
  let selectedQuote :=
    if js_gt (DexQuote.outputAmount raydiumQuote) (DexQuote.outputAmount meteoraQuote)
    then raydiumQuote
    else meteoraQuote in
  log Info "Selected best DEX for execution" ;;
  ret selectedQuote.

Definition validateQuotes (raydiumQuote meteoraQuote : DexQuote.t) : M bool :=
  let priceDifference :=
    PrimFloat.abs (DexQuote.price raydiumQuote - DexQuote.price meteoraQuote)%float in
  let avgPrice :=
    ((DexQuote.price raydiumQuote + DexQuote.price meteoraQuote) / 2)%float in
  let percentageDiff := ((priceDifference / avgPrice) * 100)%float in
  (if js_gt percentageDiff 10%float
   then log Warn "Large price difference detected between DEXs"
   else ret tt) ;;
  ret true.

End DexRouterService.

(** ** services/order.service.ts *)

(** [if (data.f) updateData.f = data.f]: the property is copied when it is
    present and truthy. *)
Definition copy_if {A} (truthy : A -> bool) (o : option A) : option A :=
  match o with
  | Some a => if truthy a then Some a else None
  | None => None
  end.

(** The row [prisma.order.update] writes: each column named in [data] is
    overwritten, [retryCount] is incremented by the given step, every
    other column is kept. *)
Definition applyUpdate (d : UpdateData.t) (o : Order.t) : Order.t :=
  {| Order.id := Order.id o;
     Order.type := Order.type o;
     Order.status := default (Order.status o) (UpdateData.status d);
     Order.fromToken := Order.fromToken o;
     Order.toToken := Order.toToken o;
     Order.amount := Order.amount o;
     Order.selectedDex :=
       from_option Some (Order.selectedDex o) (UpdateData.selectedDex d);
     Order.raydiumPrice :=
       from_option Some (Order.raydiumPrice o) (UpdateData.raydiumPrice d);
     Order.meteoraPrice :=
       from_option Some (Order.meteoraPrice o) (UpdateData.meteoraPrice d);
     Order.executionPrice :=
       from_option Some (Order.executionPrice o) (UpdateData.executionPrice d);
     Order.txHash := from_option Some (Order.txHash o) (UpdateData.txHash d);
     Order.slippageTolerance := Order.slippageTolerance o;
     Order.retryCount :=
       (Order.retryCount o + default 0 (UpdateData.retryCount_increment d))%Z;
     Order.failureReason :=
       from_option Some (Order.failureReason o) (UpdateData.failureReason d);
     Order.createdAt := Order.createdAt o;
     Order.updatedAt := default (Order.updatedAt o) (UpdateData.updatedAt d);
     Order.completedAt :=
       from_option Some (Order.completedAt o) (UpdateData.completedAt d) |}.

Definition recordNotFound : JsError :=
  {| message := "Record to update not found." |}.

(** [prisma.order.update({ where: { id }, data })].  The call is atomic:
    it either rejects and leaves the table as it was (the database did not
    answer, or no row has this id), or writes the row and resolves with
    it. *)
Definition prisma_order_update (orderId : string) (data : UpdateData.t) : M Order.t :=
  n <- gets storeCalls ;;
  modify (set_storeCalls S) ;;
  rejected <- gets (fun w => store_rejects (env w) n) ;;
  row <- gets (fun w => db w !! orderId) ;;
  match rejected, row with
  | Some e, _ => effect (EStoreReject orderId e) ;; throw e
  | None, None => effect (EStoreReject orderId recordNotFound) ;; throw recordNotFound
  | None, Some o =>
      let o' := applyUpdate data o in
      modify (set_db (insert orderId o')) ;;
      effect (EStoreUpdate orderId data) ;;
      ret o'
  end.

(** The [updateData] object [updateOrderStatus] hands to the store. *)
Definition status_update (now : Z) (status : OrderStatus)
    (data : option StatusData.t) : UpdateData.t :=
  {| UpdateData.status := Some (toUpperCase (OrderStatus_value status));
     UpdateData.updatedAt := Some now;
     UpdateData.completedAt :=
       if bool_decide (status = CONFIRMED) || bool_decide (status = FAILED)
       then Some now else None;
     UpdateData.selectedDex :=
       toUpperCase <$> copy_if truthy_string (data ≫= StatusData.selectedDex);
     UpdateData.raydiumPrice :=
       copy_if truthy_number (data ≫= StatusData.raydiumPrice);
     UpdateData.meteoraPrice :=
       copy_if truthy_number (data ≫= StatusData.meteoraPrice);
     UpdateData.executionPrice :=
       copy_if truthy_number (data ≫= StatusData.executionPrice);
     UpdateData.txHash := copy_if truthy_string (data ≫= StatusData.txHash);
     UpdateData.failureReason :=
       copy_if truthy_string (data ≫= StatusData.failureReason);
     UpdateData.retryCount_increment := None |}.

(** The [data] object [incrementRetryCount] hands to the store. *)
Definition retry_increment : UpdateData.t :=
  {| UpdateData.status := None;
     UpdateData.updatedAt := None;
     UpdateData.completedAt := None;
     UpdateData.selectedDex := None;
     UpdateData.raydiumPrice := None;
     UpdateData.meteoraPrice := None;
     UpdateData.executionPrice := None;
     UpdateData.txHash := None;
     UpdateData.failureReason := None;
     UpdateData.retryCount_increment := Some 1%Z |}.

(** [type CreateOrderInput]: the request body once the schema has
    accepted it. *)
Module CreateOrderInput.
Record t := {
  type : OrderType;
  fromToken : string;
  toToken : string;
  amount : float;
  slippageTolerance : float;
}.
End CreateOrderInput.

Definition uniqueConstraint : JsError :=
  {| message := "Unique constraint failed on the fields: (`id`)" |}.

(** [prisma.order.create({ data })].  The row gets a fresh [uuid()] as
    its id, the current time as [createdAt] and [updatedAt], and the
    defaults of the schema for the columns [data] leaves out.  The call
    rejects, and leaves the table as it was, when the database does not
    answer or the id is taken. *)
Definition prisma_order_create (type status fromToken toToken : string)
    (amount slippageTolerance : float) : M Order.t :=
  n <- gets storeCalls ;;
  modify (set_storeCalls S) ;;
  rejected <- gets (fun w => store_rejects (env w) n) ;;
  match rejected with
  | Some e => throw e
  | None =>
      id <- randomUUID ;;
      now <- Date_now ;;
      taken <- gets (fun w => db w !! id) ;;
      match taken with
      | Some _ => throw uniqueConstraint
      | None =>
          let o :=
            {| Order.id := id; Order.type := type; Order.status := status;
               Order.fromToken := fromToken; Order.toToken := toToken;
               Order.amount := amount; Order.selectedDex := None;
               Order.raydiumPrice := None; Order.meteoraPrice := None;
               Order.executionPrice := None; Order.txHash := None;
               Order.slippageTolerance := slippageTolerance;
               Order.retryCount := 0; Order.failureReason := None;
               Order.createdAt := now; Order.updatedAt := now;
               Order.completedAt := None |} in
          modify (set_db (insert id o)) ;;
          ret o
      end
  end.

(** [prisma.order.findUnique({ where: { id } })] *)
Definition prisma_order_findUnique (orderId : string) : M (option Order.t) :=
  n <- gets storeCalls ;;
  modify (set_storeCalls S) ;;
  rejected <- gets (fun w => store_rejects (env w) n) ;;
  match rejected with
  | Some e => throw e
  | None => gets (fun w => db w !! orderId)
  end.

(** The Redis client.  A call rejects when the server does not answer.
    The server holds, under each key, the text it was given and the
    instant at which the entry expires; the text is kept here as the
    object [JSON.parse] makes of it. *)
Definition redis_call (key : string) : M unit :=
  n <- gets redisCalls ;;
  modify (set_redisCalls S) ;;
  rejected <- gets (fun w => redis_rejects (env w) n) ;;
  match rejected with
  | Some e => effect (ECacheReject key e) ;; throw e
  | None => ret tt
  end.

(** [redis.set(key, text, 'EX', seconds)] *)
Definition redis_set (key : string) (parsed : CachedOrder.t) (seconds : Z)
    : M unit :=
  redis_call key ;;
  now <- Date_now ;;
  modify (set_cache (insert key
    {| value := parsed; expires := (now + seconds * 1000)%Z |})).

(** The entry a [get] finds under [key] at the instant [now]. *)
Definition live (now : Z) (c : gmap string Entry) (key : string)
    : option CachedOrder.t :=
  match c !! key with
  | Some entry => if (now <? expires entry)%Z then Some (value entry) else None
  | None => None
  end.

(** [redis.get(key)] *)
Definition redis_get (key : string) : M (option CachedOrder.t) :=
  redis_call key ;;
  gets (fun w => live (clock w) (cache w) key).

(** [redis.del(key)] *)
Definition redis_del (key : string) : M unit :=
  redis_call key ;;
  modify (set_cache (delete key)).

(** [JSON.parse(JSON.stringify(order))] *)
Definition JSON_copy (o : Order.t) : CachedOrder.t :=
  {| CachedOrder.id := Order.id o;
     CachedOrder.type := Order.type o;
     CachedOrder.status := Order.status o;
     CachedOrder.fromToken := Order.fromToken o;
     CachedOrder.toToken := Order.toToken o;
     CachedOrder.amount := json_number (Order.amount o);
     CachedOrder.selectedDex := Order.selectedDex o;
     CachedOrder.raydiumPrice := Order.raydiumPrice o ≫= json_number;
     CachedOrder.meteoraPrice := Order.meteoraPrice o ≫= json_number;
     CachedOrder.executionPrice := Order.executionPrice o ≫= json_number;
     CachedOrder.txHash := Order.txHash o;
     CachedOrder.slippageTolerance := json_number (Order.slippageTolerance o);
     CachedOrder.retryCount := Order.retryCount o;
     CachedOrder.failureReason := Order.failureReason o;
     CachedOrder.createdAt := ISO (Order.createdAt o);
     CachedOrder.updatedAt := ISO (Order.updatedAt o);
     CachedOrder.completedAt := ISO <$> Order.completedAt o |}.

(** What [getOrder] resolves with: the row Prisma found, or the object
    parsed from the cached text. *)
Inductive Fetched :=
| Row (o : Order.t)
| Cached (c : CachedOrder.t).

Module OrderService.

(** [cacheOrder]: the Redis entry [order:<id>], kept for an hour. *)
Definition cacheOrder (order : Order.t) : M unit :=
  redis_set ("order:" +:+ Order.id order) (JSON_copy order) 3600.

Definition updateOrderStatus (orderId : string) (status : OrderStatus)
    (data : option StatusData.t) : M Order.t :=
  now <- Date_now ;;
  let updateData := status_update now status data in
  order <- prisma_order_update orderId updateData ;;
  cacheOrder order ;;
  ret order.

Definition incrementRetryCount (orderId : string) : M Z :=
  order <- prisma_order_update orderId retry_increment ;;
  ret (Order.retryCount order).

(** [createOrder] *)
Definition createOrder (input : CreateOrderInput.t) : M Order.t :=
  order <-
    prisma_order_create
      (toUpperCase (OrderType_value (CreateOrderInput.type input)))
      (toUpperCase (OrderStatus_value PENDING))
      (CreateOrderInput.fromToken input) (CreateOrderInput.toToken input)
      (CreateOrderInput.amount input)
      (CreateOrderInput.slippageTolerance input) ;;
  cacheOrder order ;;
  log Info "Order created successfully" ;;
  ret order.

(** [getOrder]: the cache is asked first, the database only on a miss. *)
Definition getOrder (orderId : string) : M (option Fetched) :=
  cached <- redis_get ("order:" +:+ orderId) ;;
  match cached with
  | Some c => ret (Some (Cached c))
  | None =>
      order <- prisma_order_findUnique orderId ;;
      match order with
      | Some o => cacheOrder o
      | None => ret tt
      end ;;
      ret (Row <$> order)
  end.

(** [removeCachedOrder] *)
Definition removeCachedOrder (orderId : string) : M unit :=
  redis_del ("order:" +:+ orderId).

End OrderService.

(** ** services/websocket.service.ts *)

Module WebSocketService.

(** [Set.prototype.add] and [Set.prototype.delete] on a set of objects:
    members are told apart by identity and kept in insertion order. *)
Definition same (a b : SocketStream.t) : bool :=
  Nat.eqb (SocketStream.ref a) (SocketStream.ref b).

Definition Set_add (s : SocketStream.t) (l : list SocketStream.t)
    : list SocketStream.t :=
  if existsb (same s) l then l else l ++ [s].

Definition Set_delete (s : SocketStream.t) (l : list SocketStream.t)
    : list SocketStream.t :=
  List.filter (fun x => negb (same s x)) l.

(** [socket.socket.send(message)]; the message is the serialised update. *)
Definition send (s : SocketStream.t) (update : OrderStatusUpdate.t) : M unit :=
  effect (ESend (SocketStream.ref s) update (SocketStream.send_throws s)) ;;
  match SocketStream.send_throws s with
  | Some e => throw e
  | None => ret tt
  end.

(** [socket.socket.close()] *)
Definition close (s : SocketStream.t) : M unit :=
  effect (EClose (SocketStream.ref s) (SocketStream.close_throws s)) ;;
  match SocketStream.close_throws s with
  | Some e => throw e
  | None => ret tt
  end.

(** [registerConnection].  The [close] and [error] handlers it installs
    are [on_close] and [on_error] below; the transport calls them. *)
Definition registerConnection (orderId : string) (socket : SocketStream.t) : M unit :=
  has <- gets (fun w => bool_decide (is_Some (connections w !! orderId))) ;;
  (if negb has
   then modify (set_connections (insert orderId []))
   else ret tt) ;;
  modify (set_connections (alter (Set_add socket) orderId)) ;;
  log Info "WebSocket connection registered".

Definition unregisterConnection (orderId : string) (socket : SocketStream.t) : M unit :=
  conns <- gets (fun w => connections w !! orderId) ;;
  match conns with
  | Some _ =>
      modify (set_connections (alter (Set_delete socket) orderId)) ;;
      size <- gets (fun w => length (default [] (connections w !! orderId))) ;;
      if Nat.eqb size 0
      then modify (set_connections (delete orderId))
      else ret tt
  | None => ret tt
  end ;;
  log Info "WebSocket connection unregistered".

Definition on_close (orderId : string) (socket : SocketStream.t) : M unit :=
  unregisterConnection orderId socket.

Definition on_error (orderId : string) (socket : SocketStream.t) : M unit :=
  log Error "WebSocket error" ;;
  unregisterConnection orderId socket.

(** [broadcastStatusUpdate].  The callback of [forEach] removes at most
    the member it is visiting, so the members visited are those the set
    had when the loop started. *)
Definition broadcastStatusUpdate (update : OrderStatusUpdate.t) : M unit :=
  let orderId := OrderStatusUpdate.orderId update in
  conns <- gets (fun w => connections w !! orderId) ;;
  match conns with
  | None => log Debug "No active connections for order"
  | Some l =>
      if Nat.eqb (length l) 0
      then log Debug "No active connections for order"
      else
        forEach l (fun socket =>
          try_catch
            (if Z.eqb (SocketStream.readyState socket) 1
             then send socket update ;; log Debug "Status update sent"
             else ret tt)
            (fun error =>
               log Error "Failed to send status update" ;;
               unregisterConnection orderId socket)) ;;
        if String.eqb (OrderStatus_value (OrderStatusUpdate.status update)) "confirmed"
           || String.eqb (OrderStatus_value (OrderStatusUpdate.status update)) "failed"
        then setTimeout (CloseOrderConnections orderId) 5000
        else ret tt
  end.

Definition closeOrderConnections (orderId : string) : M unit :=
  conns <- gets (fun w => connections w !! orderId) ;;
  match conns with
  | Some l =>
      forEach l (fun socket =>
        try_catch (close socket)
          (fun error => log Error "Error closing connection")) ;;
      modify (set_connections (delete orderId)) ;;
      log Info "All connections closed for order"
  | None => ret tt
  end.

Definition getActiveConnections : M nat :=
  gets (fun w => map_fold (fun _ l total => (total + length l)%nat) 0%nat (connections w)).

Definition getOrderConnections (orderId : string) : M nat :=
  gets (fun w => length (default [] (connections w !! orderId))).

End WebSocketService.

(** The event loop running a timer's callback once its delay has passed. *)
Definition runTimer (t : Timer) : M unit :=
  match callback t with
  | CloseOrderConnections orderId => WebSocketService.closeOrderConnections orderId
  end.

(** ** services/order-execution.service.ts *)

(** The mock transaction object [buildTransaction] returns. *)
Module Transaction.
Record t := {
  dex : DexType;
  fromToken : string;
  toToken : string;
  amount : float;
  expectedOutput : float;
  slippage : float;
  timestamp : Z;
}.
End Transaction.

Module OrderExecutionService.

(** [emitStatusUpdate], as [index.ts] installs it on the service: the
    update is built and handed to the registry's broadcast. *)
Definition emitStatusUpdate (orderId : string) (status : OrderStatus)
    (message : string) (data : option EventData.t) : M unit :=
  now <- Date_now ;;
  let update :=
    {| OrderStatusUpdate.orderId := orderId;
       OrderStatusUpdate.status := status;
       OrderStatusUpdate.message := message;
       OrderStatusUpdate.data := data;
       OrderStatusUpdate.timestamp := now |} in
  effect (EPublish update) ;;
  WebSocketService.broadcastStatusUpdate update.

Definition buildTransaction (order : Order.t) (quote : DexQuote.t) : M Transaction.t :=
  delay 500 ;;
  let maxSlippage := Order.slippageTolerance order in
  (if js_gt (DexQuote.priceImpact quote) maxSlippage
   then
     str <- gets (fun w => numberToString (env w)) ;;
     throw {| message :=
                "Price impact " +:+ str (DexQuote.priceImpact quote)
                +:+ " exceeds max slippage " +:+ str maxSlippage |}
   else ret tt) ;;
  now <- Date_now ;;
  ret {| Transaction.dex := DexQuote.dex quote;
         Transaction.fromToken := Order.fromToken order;
         Transaction.toToken := Order.toToken order;
         Transaction.amount := Order.amount order;
         Transaction.expectedOutput := DexQuote.outputAmount quote;
         Transaction.slippage := maxSlippage;
         Transaction.timestamp := now |}.

Definition submitTransaction (transaction : Transaction.t) (order : Order.t)
    (quote : DexQuote.t) : M string :=
  ms <- gets (fun w => mockExecutionDelay (config (env w))) ;;
  delay ms ;;
  r <- Math_random ;;
  (if js_lt r 0x1.999999999999ap-5%float (* 0.05 *)
   then throw {| message := "Network error: Transaction failed to submit" |}
   else ret tt) ;;
  u <- randomUUID ;;
  let txHash := removeDashes u in
  log Info "Transaction submitted successfully" ;;
  ret txHash.

(** The body of the [try] block of [executeMarketOrder]. *)
Definition executeMarketOrder_try (order : Order.t) : M unit :=
  let orderId := Order.id order in
  (* Step 1: Update status to ROUTING *)
  OrderService.updateOrderStatus orderId ROUTING None ;;
  emitStatusUpdate orderId ROUTING "Comparing DEX prices" None ;;
  (* Step 2: Fetch quotes from both DEXs *)
  quotes <-
    DexRouterService.getQuotes
      (Order.fromToken order) (Order.toToken order) (Order.amount order) ;;
  let raydium := fst quotes in
  let meteora := snd quotes in
  DexRouterService.validateQuotes raydium meteora ;;
  (* Step 3: Select best DEX *)
  bestQuote <- DexRouterService.selectBestDex raydium meteora ;;
  OrderService.updateOrderStatus orderId ROUTING
    (Some {| StatusData.selectedDex := Some (DexType_value (DexQuote.dex bestQuote));
             StatusData.raydiumPrice := Some (DexQuote.price raydium);
             StatusData.meteoraPrice := Some (DexQuote.price meteora);
             StatusData.executionPrice := None;
             StatusData.txHash := None;
             StatusData.failureReason := None |}) ;;
  emitStatusUpdate orderId ROUTING "Best DEX selected"
    (Some {| EventData.selectedDex := Some (DexQuote.dex bestQuote);
             EventData.raydiumPrice := Some (DexQuote.price raydium);
             EventData.meteoraPrice := Some (DexQuote.price meteora);
             EventData.executionPrice := None;
             EventData.txHash := None;
             EventData.error := None |}) ;;
  (* Step 4: Build transaction *)
  OrderService.updateOrderStatus orderId BUILDING None ;;
  emitStatusUpdate orderId BUILDING "Creating transaction" None ;;
  transaction <- buildTransaction order bestQuote ;;
  (* Step 5: Submit transaction *)
  OrderService.updateOrderStatus orderId SUBMITTED None ;;
  emitStatusUpdate orderId SUBMITTED "Transaction sent to network" None ;;
  txHash <- submitTransaction transaction order bestQuote ;;
  (* Step 6: Confirm transaction *)
  OrderService.updateOrderStatus orderId CONFIRMED
    (Some {| StatusData.selectedDex := None;
             StatusData.raydiumPrice := None;
             StatusData.meteoraPrice := None;
             StatusData.executionPrice := Some (DexQuote.price bestQuote);
             StatusData.txHash := Some txHash;
             StatusData.failureReason := None |}) ;;
  emitStatusUpdate orderId CONFIRMED "Transaction successful"
    (Some {| EventData.selectedDex := None;
             EventData.raydiumPrice := None;
             EventData.meteoraPrice := None;
             EventData.executionPrice := Some (DexQuote.price bestQuote);
             EventData.txHash := Some txHash;
             EventData.error := None |}) ;;
  log Info "Market order executed successfully".

(** The last branch of the [catch] block: the retries are used up. *)
Definition executeMarketOrder_fail (order : Order.t) (error : JsError) : M unit :=
  let orderId := Order.id order in
  OrderService.updateOrderStatus orderId FAILED
    (Some {| StatusData.selectedDex := None;
             StatusData.raydiumPrice := None;
             StatusData.meteoraPrice := None;
             StatusData.executionPrice := None;
             StatusData.txHash := None;
             StatusData.failureReason := Some (message error) |}) ;;
  emitStatusUpdate orderId FAILED "Order execution failed"
    (Some {| EventData.selectedDex := None;
             EventData.raydiumPrice := None;
             EventData.meteoraPrice := None;
             EventData.executionPrice := None;
             EventData.txHash := None;
             EventData.error := Some (message error) |}) ;;
  log Error "Order failed after max retries".

(** [Math.pow(2, retryAttempt) * 1000] *)
Definition backoff (retryAttempt : nat) : Z := (2 ^ Z.of_nat retryAttempt * 1000)%Z.

(** [executeMarketOrder(order, retryAttempt = 0)].  The function calls
    itself from its [catch] block; [depth] bounds the number of nested
    calls the model unrolls, and [Cut] is returned when it is used up. *)
Fixpoint executeMarketOrder (depth : nat) (order : Order.t) (retryAttempt : nat)
    : M unit :=
  let orderId := Order.id order in
  log Info "Starting market order execution" ;;
  try_catch (executeMarketOrder_try order)
    (fun error =>
       log Error "Order execution failed" ;;
       max <- gets (fun w => maxRetries (config (env w))) ;;
       if (retryAttempt <? max)%nat
       then
         let delay_ms := backoff retryAttempt in
         log Info "Retrying order execution" ;;
         OrderService.incrementRetryCount orderId ;;
         delay delay_ms ;;
         match depth with
         | O => fun w => (Cut, w)
         | S depth' => executeMarketOrder depth' order (S retryAttempt)
         end
       else executeMarketOrder_fail order error).

End OrderExecutionService.

(** ** services/order-queue.service.ts *)

Module OrderQueueService.

(** Modelled from the spec: [Queue.add] of the job-queue library is not
    among the sources.  The specification has admission enqueue an order
    exactly once, keyed by the job id, a second admission under the same
    id being a no-op: a job is appended unless one with its id is already
    in the queue. *)
Definition queue_add (name : string) (data : Order.t) (jobId : string)
    (priority : Z) : M unit :=
  modify (set_jobs (fun l =>
    if existsb (fun j => String.eqb (Job.jobId j) jobId) l
    then l
    else l ++ [{| Job.name := name; Job.data := data;
                  Job.jobId := jobId; Job.priority := priority |}])).

Definition getOrderPriority (order : Order.t) : Z :=
  let orderType := Order.type order in
  if String.eqb orderType "MARKET" then 1
  else if String.eqb orderType "LIMIT" then 2
  else if String.eqb orderType "SNIPER" then 3
  else 5.

Definition addOrder (order : Order.t) : M unit :=
  queue_add "execute-order" order (Order.id order) (getOrderPriority order) ;;
  log Info "Order added to execution queue".

Definition processOrder (depth : nat) (order : Order.t) : M unit :=
  log Info "Processing order from queue" ;;
  try_catch (OrderExecutionService.executeMarketOrder depth order 0)
    (fun error =>
       log Error "Order processing failed" ;;
       throw error).

End OrderQueueService.

(** ** Sample inputs *)

(** A quote of the given venue, price, output quantity and price impact. *)
Definition quote_of (d : DexType) (p out impact : float) : DexQuote.t :=
  {| DexQuote.dex := d; DexQuote.price := p; DexQuote.outputAmount := out;
     DexQuote.priceImpact := impact; DexQuote.timestamp := 0 |}.

(** A market order as [createOrder] stores it, with tolerance 0.01. *)
Definition sample_order : Order.t :=
  {| Order.id := "order-1"; Order.type := "MARKET"; Order.status := "PENDING";
     Order.fromToken := "SOL"; Order.toToken := "USDC"; Order.amount := 10;
     Order.selectedDex := None; Order.raydiumPrice := None;
     Order.meteoraPrice := None; Order.executionPrice := None;
     Order.txHash := None; Order.slippageTolerance := 0x1.47ae147ae147bp-7;
     Order.retryCount := 0; Order.failureReason := None;
     Order.createdAt := 0; Order.updatedAt := 0; Order.completedAt := None |}.

Definition sample_uuid : string := "3f2b8c1e-9a47-4d0b-8e55-6c1d2a7b9f04".

(** Every draw is 0.5: the venues answer after 2500 ms with a price impact
    of 0.01, which the sample tolerance lets pass, and no submission
    fails; the database and the Redis server answer every call. *)
Definition calm_env : Env :=
  {| config := config_default;
     random := fun _ => 0.5%float;
     uuid := fun _ => sample_uuid;
     store_rejects := fun _ => None;
     redis_rejects := fun _ => None;
     numberToString := fun _ => "<number>" |}.

(** The six draws of the first request for quotes are 0.9, which gives
    both quotes a price impact of 0.018, above the sample tolerance; every
    later draw is 0.5. *)
Definition retry_env : Env :=
  {| config := config_default;
     random := fun n => if (n <? 6)%nat then 0x1.ccccccccccccdp-1%float (* 0.9 *)
                        else 0.5%float;
     uuid := fun _ => sample_uuid;
     store_rejects := fun _ => None;
     redis_rejects := fun _ => None;
     numberToString := fun _ => "<number>" |}.

Definition database_unreachable : JsError :=
  {| message := "Can't reach database server" |}.

Definition redis_unreachable : JsError :=
  {| message := "Connection is closed." |}.

(** Every draw is 0.9, so that every attempt is stopped by the slippage
    check, and the database is unreachable from the fourth call on: the
    three writes of the first attempt are answered and the handler's call
    is not. *)
Definition flaky_store_env : Env :=
  {| config := config_default;
     random := fun _ => 0x1.ccccccccccccdp-1%float;
     uuid := fun _ => sample_uuid;
     store_rejects := fun n =>
       if (n <? 3)%nat then None else Some database_unreachable;
     redis_rejects := fun _ => None;
     numberToString := fun _ => "<number>" |}.


(** The Redis server is unreachable; the database answers. *)
Definition cache_down_env : Env :=
  {| config := config_default;
     random := fun _ => 0.5%float;
     uuid := fun _ => sample_uuid;
     store_rejects := fun _ => None;
     redis_rejects := fun _ => Some redis_unreachable;
     numberToString := fun _ => "<number>" |}.


(** An open socket whose calls succeed. *)
Definition sample_socket : SocketStream.t :=
  {| SocketStream.ref := 1; SocketStream.readyState := 1;
     SocketStream.send_throws := None; SocketStream.close_throws := None |}.

(** The world of a freshly started process whose table holds [rows]. *)
Definition start (e : Env) (rows : list Order.t) : World :=
  {| env := e; clock := 0;
     db := list_to_map ((fun o => (Order.id o, o)) <$> rows);
     cache := ∅; jobs := []; connections := ∅; timers := []; trace := [];
     logs := []; redisCalls := 0; randomCalls := 0; uuidCalls := 0;
     storeCalls := 0 |}.

(** ** Vocabulary of the properties *)

(** The relative divergence of two prices, as the specification words it:
    [|priceA - priceB| / ((priceA + priceB) / 2) * 100]. *)
Definition divergence (priceA priceB : float) : float :=
  (PrimFloat.abs (priceA - priceB) / ((priceA + priceB) / 2) * 100)%float.

Definition divergence_warning : LogLevel * string :=
  (Warn, "Large price difference detected between DEXs").

(** The spelling of a status in the database column. *)
Definition db_value (s : OrderStatus) : string :=
  toUpperCase (OrderStatus_value s).

Definition terminal (s : OrderStatus) : bool :=
  match s with
  | CONFIRMED | FAILED => true
  | _ => false
  end.

(** The statuses one attempt persists when nothing fails, in order. *)
Definition pipeline : list OrderStatus :=
  [ROUTING; ROUTING; BUILDING; SUBMITTED; CONFIRMED].

(** What a run added to the history of effects. *)
Definition new_trace (w w' : World) : list Effect :=
  drop (length (trace w)) (trace w').

(** The statuses written for an order, in the order they were written. *)
Definition persisted (orderId : string) (l : list Effect) : list string :=
  omap (fun e =>
          match e with
          | EStoreUpdate id d =>
              if String.eqb id orderId then UpdateData.status d else None
          | _ => None
          end) l.

(** The events handed to the status hook for an order. *)
Definition published (orderId : string) (l : list Effect)
    : list OrderStatusUpdate.t :=
  omap (fun e =>
          match e with
          | EPublish u =>
              if String.eqb (OrderStatusUpdate.orderId u) orderId
              then Some u else None
          | _ => None
          end) l.

(** The store calls that were rejected. *)
Definition rejections (l : list Effect) : list JsError :=
  omap (fun e => match e with EStoreReject _ e => Some e | _ => None end) l.

(** The Redis calls that were rejected. *)
Definition cache_rejections (l : list Effect) : list JsError :=
  omap (fun e => match e with ECacheReject _ e => Some e | _ => None end) l.

(** The timers awaited, in milliseconds. *)
Definition delays (l : list Effect) : list Z :=
  omap (fun e => match e with EDelay ms => Some ms | _ => None end) l.

(** The job an admission of [order] puts in the queue. *)
Definition admitted (order : Order.t) : Job.t :=
  {| Job.name := "execute-order"; Job.data := order;
     Job.jobId := Order.id order;
     Job.priority := OrderQueueService.getOrderPriority order |}.

(** The database answers every call and holds the order's row. *)
Definition healthy (orderId : string) (w : World) : Prop :=
  (forall n, store_rejects (env w) n = None) /\ is_Some (db w !! orderId).

(** The Redis server answers every call. *)
Definition redis_answers (w : World) : Prop :=
  forall n, redis_rejects (env w) n = None.

(** A socket in the [OPEN] state. *)
Definition is_open (s : SocketStream.t) : bool :=
  Z.eqb (SocketStream.readyState s) 1.

(** The members of an order's subscriber set, oldest first; an order
    with no entry in the registry has none. *)
Definition subscribers (orderId : string) (w : World) : list SocketStream.t :=
  default [] (connections w !! orderId).

(** What [unregisterConnection] does to the registry. *)
Definition drop_connection (orderId : string) (s : SocketStream.t)
    (c : gmap string (list SocketStream.t)) : gmap string (list SocketStream.t) :=
  match c !! orderId with
  | Some _ =>
      let c' := alter (WebSocketService.Set_delete s) orderId c in
      if Nat.eqb (length (default [] (c' !! orderId))) 0
      then delete orderId c'
      else c'
  | None => c
  end.

(** A subscriber whose [send] is called and throws. *)
Definition send_fails (s : SocketStream.t) : bool :=
  is_open s && bool_decide (is_Some (SocketStream.send_throws s)).

(** The call of [send] on a socket, and the call of [close]. *)
Definition delivery (u : OrderStatusUpdate.t) (s : SocketStream.t) : Effect :=
  ESend (SocketStream.ref s) u (SocketStream.send_throws s).

Definition closing (s : SocketStream.t) : Effect :=
  EClose (SocketStream.ref s) (SocketStream.close_throws s).

(** The timer a terminal event leaves behind. *)
Definition closure_timer (now : Z) (orderId : string) : Timer :=
  {| due := (now + 5000)%Z; callback := CloseOrderConnections orderId |}.

(** What one world keeps of another across a run: the environment, the
    set of rows of the table, and the history, extended by [l]. *)
Record Ext (w w' : World) (l : list Effect) : Prop := {
  ext_env : env w' = env w;
  ext_rows : forall k, is_Some (db w' !! k) <-> is_Some (db w !! k);
  ext_trace : trace w' = trace w ++ l;
}.

(** The effects of one transition of the pipeline: the write of the
    status, the event of that status, and the calls of [send]. *)
Inductive Transition (orderId : string) (s : OrderStatus) : list Effect -> Prop :=
| Transition_intro (d : UpdateData.t) (u : OrderStatusUpdate.t)
    (l : list SocketStream.t) :
    UpdateData.status d = Some (db_value s) ->
    OrderStatusUpdate.orderId u = orderId ->
    OrderStatusUpdate.status u = s ->
    Transition orderId s (EStoreUpdate orderId d :: EPublish u :: (delivery u <$> l)).

(** The steps of a history, the calls of [send] and [close] on sockets
    left out: a store call resolved, writing a status or none; a store
    call rejected; a Redis call rejected; an event handed to the status
    hook; a timer awaited. *)
Inductive Mark :=
| Wrote (orderId : string) (status : option string)
| Refused (orderId : string)
| Uncached
| Told (orderId : string) (status : OrderStatus)
| Waited.

Definition mark (e : Effect) : option Mark :=
  match e with
  | EStoreUpdate id d => Some (Wrote id (UpdateData.status d))
  | EStoreReject id _ => Some (Refused id)
  | ECacheReject _ _ => Some Uncached
  | EPublish u =>
      Some (Told (OrderStatusUpdate.orderId u) (OrderStatusUpdate.status u))
  | EDelay _ => Some Waited
  | ESend _ _ _ => None
  | EClose _ _ => None
  end.

Definition marks (l : list Effect) : list Mark := omap mark l.

(** The statuses written for an order, read off the steps. *)
Definition written (orderId : string) (ms : list Mark) : list string :=
  omap (fun m =>
          match m with
          | Wrote id (Some s) => if String.eqb id orderId then Some s else None
          | _ => None
          end) ms.

(** The statuses of the events of an order, read off the steps. *)
Definition told (orderId : string) (ms : list Mark) : list OrderStatus :=
  omap (fun m =>
          match m with
          | Told id s => if String.eqb id orderId then Some s else None
          | _ => None
          end) ms.

(** The steps of one transition: the status is written, then its event
    is published. *)
Definition transition (orderId : string) (s : OrderStatus) : list Mark :=
  [Wrote orderId (Some (db_value s)); Told orderId s].

(** The five stages of an attempt: the status each one enters, and the
    number of timers awaited in it after the transition (two while the
    quotes are fetched, one while the transaction is built, one while it is
    submitted). *)
Definition stages : list (OrderStatus * nat) :=
  [(ROUTING, 2); (ROUTING, 0); (BUILDING, 1); (SUBMITTED, 1); (CONFIRMED, 0)].

Definition stage_marks (orderId : string) (st : OrderStatus * nat) : list Mark :=
  transition orderId (fst st) ++ replicate (snd st) Waited.

(** The steps of the first [j] stages. *)
Definition done (orderId : string) (j : nat) : list Mark :=
  concat (stage_marks orderId <$> take j stages).

(** How an attempt that has done [j] stages ends: it is complete; the
    work of the last stage threw; the store rejected the write of the next
    status; or the store wrote the next status and the cache write that
    follows rejected. *)
Inductive End := Completed | StageThrew | WriteRefused | CacheRefused.

Definition ending (orderId : string) (j : nat) (e : End) : list Mark :=
  match e with
  | Completed => []
  | StageThrew => []
  | WriteRefused => [Refused orderId]
  | CacheRefused =>
      match pipeline !! j with
      | Some s => [Wrote orderId (Some (db_value s)); Uncached]
      | None => []
      end
  end.

(** The steps of an attempt that did [j] stages and ended in [e]. *)
Definition attempt_marks (orderId : string) (a : nat * End) : list Mark :=
  done orderId (fst a) ++ ending orderId (fst a) (snd a).

(** The ways an attempt can go: all five stages; the third or the fourth
    stage done and its work ([buildTransaction], [submitTransaction])
    throwing; or fewer than five stages done and the next write failing. *)
Definition possible (a : nat * End) : bool :=
  match snd a with
  | Completed => Nat.eqb (fst a) 5
  | StageThrew => Nat.eqb (fst a) 3 || Nat.eqb (fst a) 4
  | WriteRefused => Nat.ltb (fst a) 5
  | CacheRefused => Nat.ltb (fst a) 5
  end.

(** An attempt that failed. *)
Definition failed (a : nat * End) : Prop :=
  possible a = true /\ snd a <> Completed.

(** The number of statuses an attempt wrote. *)
Definition writes (a : nat * End) : nat :=
  match snd a with
  | CacheRefused => S (fst a)
  | _ => fst a
  end.

(** The steps of the handler when it retries: the retry counter is
    incremented and the back-off is waited. *)
Definition retry_marks (orderId : string) : list Mark :=
  [Wrote orderId None; Waited].

(** The first step is the store call that writes [ROUTING] for the order,
    answered or rejected. *)
Definition starts_with_routing (orderId : string) (l : list Effect) : Prop :=
  match marks l with
  | Wrote k s :: _ => k = orderId /\ s = Some (db_value ROUTING)
  | Refused k :: _ => k = orderId
  | _ => False
  end.

(** How far an attempt has come: the effects [l] so far, with the steps
    [p], no call having been rejected. *)
Record Progress (w w' : World) (l : list Effect) (p : list Mark) : Prop := {
  pr_ext : Ext w w' l;
  pr_marks : marks l = p;
  pr_rejections : rejections l = [];
  pr_cache : cache_rejections l = [];
}.

(** The outcome and final world of a computation satisfy [Q]. *)
Definition wp {A} (c : M A) (Q : Outcome A -> World -> Prop) (w : World) : Prop :=
  Q (fst (c w)) (snd (c w)).

(** What one attempt does: it goes one of the possible ways, and resolves
    exactly when it is complete. *)
Definition Attempt (orderId : string) (w : World) (r : Outcome unit)
    (w' : World) : Prop :=
  exists (l : list Effect) (a : nat * End),
    Ext w w' l
    /\ marks l = attempt_marks orderId a
    /\ possible a = true
    /\ ((r = Ok tt /\ snd a = Completed)
        \/ (exists e, r = Throw e /\ snd a <> Completed))
    /\ (healthy orderId w -> rejections l = [])
    /\ (redis_answers w -> cache_rejections l = []).

(** The worlds between the steps of [executeMarketOrder]: on entry, in
    the [catch] block, before the retry counter is incremented, and after
    a timer of [ms] milliseconds has been awaited. *)
Definition entered (w : World) : World :=
  set_logs (fun l => l ++ [(Info, "Starting market order execution")]) w.

Definition caught (w : World) : World :=
  set_logs (fun l => l ++ [(Error, "Order execution failed")]) w.

Definition retrying (w : World) : World :=
  set_logs (fun l => l ++ [(Info, "Retrying order execution")]) (caught w).

Definition waited (ms : Z) (w : World) : World :=
  set_clock (fun c => (c + ms)%Z) (set_trace (fun t => t ++ [EDelay ms]) w).

(** The world in which [processOrder] calls the pipeline. *)
Definition dequeued (w : World) : World :=
  set_logs (fun l => l ++ [(Info, "Processing order from queue")]) w.

(** The [data] argument and the event of the [FAILED] transition. *)
Definition failure_data (e : JsError) : StatusData.t :=
  {| StatusData.selectedDex := None;
     StatusData.raydiumPrice := None;
     StatusData.meteoraPrice := None;
     StatusData.executionPrice := None;
     StatusData.txHash := None;
     StatusData.failureReason := Some (message e) |}.

Definition failure_event (orderId : string) (e : JsError) (now : Z)
    : OrderStatusUpdate.t :=
  {| OrderStatusUpdate.orderId := orderId;
     OrderStatusUpdate.status := FAILED;
     OrderStatusUpdate.message := "Order execution failed";
     OrderStatusUpdate.data :=
       Some {| EventData.selectedDex := None;
               EventData.raydiumPrice := None;
               EventData.meteoraPrice := None;
               EventData.executionPrice := None;
               EventData.txHash := None;
               EventData.error := Some (message e) |};
     OrderStatusUpdate.timestamp := now |}.

(** The ways a run can end, after the attempts that were retried: an
    attempt is complete; the last permitted attempt failed and [FAILED] was
    written and published; the attempt failed and the store rejected the
    handler's call; the last permitted attempt failed, [FAILED] was written
    and the cache write that follows rejected; or the unrolling stopped. *)
Inductive Finish :=
| Confirmed
| Failed (a : nat * End)
| HandlerRefused (a : nat * End)
| HandlerUncached (a : nat * End)
| Unrolled.

Definition finish_marks (orderId : string) (f : Finish) : list Mark :=
  match f with
  | Confirmed => done orderId 5
  | Failed a => attempt_marks orderId a ++ transition orderId FAILED
  | HandlerRefused a => attempt_marks orderId a ++ [Refused orderId]
  | HandlerUncached a =>
      attempt_marks orderId a
      ++ [Wrote orderId (Some (db_value FAILED)); Uncached]
  | Unrolled => []
  end.

(** The steps of a run: the attempts [fs] that failed and were retried,
    each followed by the steps of the retry, and then the steps of the way
    the run ended. *)
Definition run_marks (orderId : string) (fs : list (nat * End)) (f : Finish)
    : list Mark :=
  concat ((fun a => attempt_marks orderId a ++ retry_marks orderId) <$> fs)
  ++ finish_marks orderId f.

(** The attempts of a run that failed: those that were retried, and the
    one the run ended on when it did not end on a complete attempt. *)
Definition failures (fs : list (nat * End)) (f : Finish) : list (nat * End) :=
  fs ++ match f with
        | Failed a => [a]
        | HandlerRefused a => [a]
        | HandlerUncached a => [a]
        | Confirmed => []
        | Unrolled => []
        end.

(** The statuses written, and the statuses published, after the failed
    attempts. *)
Definition final_statuses (f : Finish) : list OrderStatus :=
  match f with
  | Confirmed => pipeline
  | Failed _ => [FAILED]
  | HandlerUncached _ => [FAILED]
  | HandlerRefused _ => []
  | Unrolled => []
  end.

Definition final_events (f : Finish) : list OrderStatus :=
  match f with
  | Confirmed => pipeline
  | Failed _ => [FAILED]
  | HandlerUncached _ => []
  | HandlerRefused _ => []
  | Unrolled => []
  end.

(** A checker for the discipline of transitions: every write of a status
    is directly followed by the event of that status for that order or by
    the rejection of the cache write, and no event and no such rejection
    stands anywhere else. *)
Fixpoint paired (p : list Mark) : bool :=
  match p with
  | [] => true
  | Wrote id (Some s) :: r =>
      match r with
      | Told id' st :: r' =>
          String.eqb id' id && String.eqb (db_value st) s && paired r'
      | Uncached :: r' => paired r'
      | _ => false
      end
  | Told _ _ :: _ => false
  | Uncached :: _ => false
  | _ :: r => paired r
  end.

(** What a run of the pipeline does with [budget] retries left and
    [depth] nested calls unrolled. *)
Definition Run (orderId : string) (budget depth : nat) (w : World)
    (r : Outcome unit) (w' : World) : Prop :=
  exists (l : list Effect) (fs : list (nat * End)) (f : Finish),
    Ext w w' l
    /\ marks l = run_marks orderId fs f
    /\ Forall failed fs
    /\ length fs <= budget
    /\ match f with
       | Confirmed => r = Ok tt
       | Failed a => r = Ok tt /\ failed a /\ length fs = budget
       | HandlerRefused a =>
           failed a
           /\ exists e, r = Throw e /\ last l = Some (EStoreReject orderId e)
       | HandlerUncached a =>
           failed a /\ length fs = budget
           /\ exists e key, r = Throw e /\ last l = Some (ECacheReject key e)
       | Unrolled => r = Cut /\ length fs = S depth
       end
    /\ (healthy orderId w -> rejections l = [])
    /\ (redis_answers w -> cache_rejections l = []).

(** The row [createOrder] stores for a request, under the id [id] at
    time [now]. *)
Definition created (input : CreateOrderInput.t) (id : string) (now : Z)
    : Order.t :=
  {| Order.id := id;
     Order.type := toUpperCase (OrderType_value (CreateOrderInput.type input));
     Order.status := toUpperCase (OrderStatus_value PENDING);
     Order.fromToken := CreateOrderInput.fromToken input;
     Order.toToken := CreateOrderInput.toToken input;
     Order.amount := CreateOrderInput.amount input;
     Order.selectedDex := None; Order.raydiumPrice := None;
     Order.meteoraPrice := None; Order.executionPrice := None;
     Order.txHash := None;
     Order.slippageTolerance := CreateOrderInput.slippageTolerance input;
     Order.retryCount := 0; Order.failureReason := None;
     Order.createdAt := now; Order.updatedAt := now;
     Order.completedAt := None |}.

(** The entry [cacheOrder] makes for a row at the instant [now]. *)
Definition cached_entry (o : Order.t) (now : Z) : Entry :=
  {| value := JSON_copy o; expires := (now + 3600 * 1000)%Z |}.

(** What is known of a world in the middle of an attempt: its
    environment and clock, the order's row, the numbers of draws and of
    identifiers made so far, and the history. *)
Record Known (w : World) (e : Env) (now : Z) (orderId : string)
    (row : Order.t) (draws ids : nat) (history : list Effect) : Prop := {
  known_env : env w = e;
  known_clock : clock w = now;
  known_row : db w !! orderId = Some row;
  known_draws : randomCalls w = draws;
  known_ids : uuidCalls w = ids;
  known_trace : trace w = history;
}.

(** The quote the pipeline goes on with. *)
Definition best_of (r m : DexQuote.t) : DexQuote.t :=
  if js_gt (DexQuote.outputAmount r) (DexQuote.outputAmount m) then r else m.

(** The delay of a venue's timer, from its draw. *)
Definition venue_wait (draw : float) : Z :=
  timeout_number (2000 + draw * 1000).

(** The quote a venue makes for an order at the instant [now], from its
    two draws. *)
Definition quote_from (venue : DexType) (order : Order.t)
    (variation impact : float) (now : Z) : DexQuote.t :=
  let price :=
    (DexRouterService.generateBasePrice (Order.fromToken order)
       (Order.toToken order)
     * (1 + (variation - 0.5) * 0x1.999999999999ap-5))%float in
  {| DexQuote.dex := venue;
     DexQuote.price := price;
     DexQuote.outputAmount := (Order.amount order * price)%float;
     DexQuote.priceImpact := (impact * 0x1.47ae147ae147bp-6)%float;
     DexQuote.timestamp := now |}.

(** The two quotes [getQuotes] resolves with for an order when it is
    called at the instant [now] after [n] draws: the draws [n] and [n + 1]
    are the delays of Raydium's and of Meteora's timer, and the venue whose
    timer fires first takes the draws [n + 2] and [n + 3], the other one
    the draws [n + 4] and [n + 5]. *)
Definition quotes_at (e : Env) (n : nat) (now : Z) (order : Order.t)
    : DexQuote.t * DexQuote.t :=
  let wait_r := venue_wait (random e n) in
  let wait_m := venue_wait (random e (1 + n)) in
  if (wait_r <=? wait_m)%Z
  then
    (quote_from RAYDIUM order (random e (2 + n)) (random e (3 + n))
       (now + wait_r),
     quote_from METEORA order (random e (4 + n)) (random e (5 + n))
       (now + wait_m))
  else
    (quote_from RAYDIUM order (random e (4 + n)) (random e (5 + n))
       (now + wait_r),
     quote_from METEORA order (random e (2 + n)) (random e (3 + n))
       (now + wait_m)).

(** The time [getQuotes] takes: the longer of the two delays. *)
Definition quotes_wait (e : Env) (n : nat) : Z :=
  Z.max (venue_wait (random e n)) (venue_wait (random e (1 + n))).

(** The row of an order after an attempt in which nothing failed: the
    five updates of the pipeline applied to [row], the attempt having
    started at the instant [now] after [draws] draws and [ids]
    identifiers. *)
Definition confirmed_row (order : Order.t) (e : Env) (now : Z) (row : Order.t)
    (draws ids : nat) : Order.t :=
  let ray := fst (quotes_at e draws now order) in
  let met := snd (quotes_at e draws now order) in
  let quoted := (now + quotes_wait e draws)%Z in
  let built := (quoted + 500)%Z in
  let submitted := (built + timeout (mockExecutionDelay (config e)))%Z in
  applyUpdate
    (status_update submitted CONFIRMED
       (Some {| StatusData.selectedDex := None;
                StatusData.raydiumPrice := None;
                StatusData.meteoraPrice := None;
                StatusData.executionPrice :=
                  Some (DexQuote.price (best_of ray met));
                StatusData.txHash := Some (removeDashes (uuid e ids));
                StatusData.failureReason := None |}))
    (applyUpdate (status_update built SUBMITTED None)
       (applyUpdate (status_update quoted BUILDING None)
          (applyUpdate
             (status_update quoted ROUTING
                (Some {| StatusData.selectedDex :=
                           Some (DexType_value (DexQuote.dex (best_of ray met)));
                         StatusData.raydiumPrice := Some (DexQuote.price ray);
                         StatusData.meteoraPrice := Some (DexQuote.price met);
                         StatusData.executionPrice := None;
                         StatusData.txHash := None;
                         StatusData.failureReason := None |}))
             (applyUpdate (status_update now ROUTING None) row)))).

(** No order of the registry is mapped to an empty set. *)
Definition wf_registry (c : gmap string (list SocketStream.t)) : Prop :=
  forall k, c !! k <> Some [].

(** * Properties *)

(** ** Comparison of binary64 numbers *)

Lemma SFcompare_antisym (x y : spec_float) :
  SFcompare y x = option_map CompOpp (SFcompare x y).
Proof.
  destruct x as [sx|sx| |sx mx ex], y as [sy|sy| |sy my ey]; simpl;
    try reflexivity;
    try (destruct sx; reflexivity); try (destruct sy; reflexivity);
    try (destruct sx, sy; reflexivity).
  pose proof (Pos.compare_cont_antisym mx my Eq) as H. simpl in H.
  change (Pos.compare_cont Eq mx my) with (PosDef.Pos.compare_cont Eq mx my) in H.
  change (Pos.compare_cont Eq my mx) with (PosDef.Pos.compare_cont Eq my mx) in H.
  destruct sx, sy; simpl; try reflexivity;
    rewrite (Z.compare_antisym ey ex); destruct (ey ?= ex)%Z; simpl;
    try reflexivity; rewrite <- H; reflexivity.
Qed.

Lemma float_ltb_asym (x y : float) :
  PrimFloat.ltb x y = true -> PrimFloat.ltb y x = false.
Proof.
  rewrite !FloatAxioms.ltb_spec. unfold SFltb.
  rewrite (SFcompare_antisym (Prim2SF x) (Prim2SF y)).
  destruct (SFcompare (Prim2SF x) (Prim2SF y)) as [[]|]; simpl; congruence.
Qed.

Lemma float_eqb_not_ltb (x y : float) :
  PrimFloat.eqb x y = true -> PrimFloat.ltb y x = false.
Proof.
  rewrite FloatAxioms.eqb_spec, FloatAxioms.ltb_spec. unfold SFeqb, SFltb.
  rewrite (SFcompare_antisym (Prim2SF x) (Prim2SF y)).
  destruct (SFcompare (Prim2SF x) (Prim2SF y)) as [[]|]; simpl; congruence.
Qed.

Lemma js_gt_asym (a b : float) : js_gt a b = true -> js_gt b a = false.
Proof. unfold js_gt. apply float_ltb_asym. Qed.

Lemma js_gt_irrefl (a : float) : js_gt a a = false.
Proof.
  destruct (js_gt a a) eqn:E; [|reflexivity].
  pose proof (js_gt_asym a a E). congruence.
Qed.

(** ** The quote router *)

Section Router.
Import DexRouterService.

(** The quote [selectBestDex] returns, whatever the world. *)
Lemma selectBestDex_run (r m : DexQuote.t) (w : World) :
  selectBestDex r m w =
  (Ok (if js_gt (DexQuote.outputAmount r) (DexQuote.outputAmount m) then r else m),
   set_logs (fun l => l ++ [(Info, "Selected best DEX for execution")]) w).
Proof. reflexivity. Qed.

(** C2, as stated, fails on a tie: with equal output quantities the quote
    returned is Meteora's, the second-listed venue, not Raydium's. *)
Lemma selectBestDex_tie_is_second :
  let r := quote_of RAYDIUM 100 1000 0 in
  let m := quote_of METEORA 100 1000 0 in
  DexQuote.outputAmount r = DexQuote.outputAmount m
  /\ fst (selectBestDex r m (start calm_env [])) = Ok m
  /\ fst (selectBestDex r m (start calm_env [])) <> Ok r.
Proof. cbv zeta. repeat split. intros H. vm_compute in H. discriminate H. Qed.

(** C2 (amended): [selectBestDex] never throws and returns the quote with
    the strictly greater output quantity, whichever position it is listed
    in; when neither output is strictly greater (a tie, or an output that
    is not a number) it returns the second-listed quote, Meteora's.  The
    position chosen is a function of the two output quantities alone:
    it is the same for every pair of quotes with these outputs, whatever
    their prices, and in every state of the world. *)
Theorem selectBestDex_spec (r m : DexQuote.t) (w : World) :
  let chosen := fst (selectBestDex r m w) in
  (js_gt (DexQuote.outputAmount r) (DexQuote.outputAmount m) = true ->
     chosen = Ok r)
  /\ (js_gt (DexQuote.outputAmount m) (DexQuote.outputAmount r) = true ->
     chosen = Ok m)
  /\ (PrimFloat.eqb (DexQuote.outputAmount r) (DexQuote.outputAmount m) = true ->
     chosen = Ok m)
  /\ (js_gt (DexQuote.outputAmount r) (DexQuote.outputAmount m) = false ->
     chosen = Ok m)
  /\ (exists first : bool,
       chosen = Ok (if first then r else m)
       /\ forall (r' m' : DexQuote.t) (w' : World),
           DexQuote.outputAmount r' = DexQuote.outputAmount r ->
           DexQuote.outputAmount m' = DexQuote.outputAmount m ->
           fst (selectBestDex r' m' w') = Ok (if first then r' else m')).
Proof.
  cbv zeta. rewrite selectBestDex_run. cbn [fst].
  repeat split.
  - intros ->. reflexivity.
  - intros H. apply js_gt_asym in H. rewrite H. reflexivity.
  - intros H. unfold js_gt. rewrite (float_eqb_not_ltb _ _ H). reflexivity.
  - intros ->. reflexivity.
  - exists (js_gt (DexQuote.outputAmount r) (DexQuote.outputAmount m)).
    split; [reflexivity|]. intros r' m' w' Hr Hm.
    rewrite selectBestDex_run. cbn [fst]. rewrite Hr, Hm. reflexivity.
Qed.

(** The outputs 1000 and 980 of the specification: the 1000-output quote
    is selected in either listing order. *)
Lemma selectBestDex_spec_witness :
  fst (selectBestDex (quote_of RAYDIUM 100 1000 0) (quote_of METEORA 98 980 0)
         (start calm_env []))
  = Ok (quote_of RAYDIUM 100 1000 0)
  /\ fst (selectBestDex (quote_of RAYDIUM 98 980 0) (quote_of METEORA 100 1000 0)
         (start calm_env []))
  = Ok (quote_of METEORA 100 1000 0).
Proof.
  split.
  - apply (proj1 (selectBestDex_spec (quote_of RAYDIUM 100 1000 0)
                    (quote_of METEORA 98 980 0) (start calm_env []))).
    vm_compute. reflexivity.
  - apply (proj1 (proj2 (selectBestDex_spec (quote_of RAYDIUM 98 980 0)
                    (quote_of METEORA 100 1000 0) (start calm_env [])))).
    vm_compute. reflexivity.
Defined.

Lemma validateQuotes_run (a b : DexQuote.t) (w : World) :
  validateQuotes a b w =
  (Ok true,
   if js_gt (divergence (DexQuote.price a) (DexQuote.price b)) 10
   then set_logs (fun l => l ++ [divergence_warning]) w
   else w).
Proof.
  unfold validateQuotes, divergence, bind.
  destruct (js_gt _ _); reflexivity.
Qed.

(** C5: [validateQuotes] always resolves with [true]; it logs one warning
    exactly when the divergence of the two prices, computed as the
    specification says, is above 10, and touches nothing else than the
    log.  Prices 100 and 120 give a warning, prices 100 and 102 none. *)
Theorem validateQuotes_spec (a b : DexQuote.t) (w : World) :
  let d := divergence (DexQuote.price a) (DexQuote.price b) in
  let w' := snd (validateQuotes a b w) in
  fst (validateQuotes a b w) = Ok true
  /\ (js_gt d 10 = true <-> logs w' = logs w ++ [divergence_warning])
  /\ (js_gt d 10 = false <-> logs w' = logs w)
  /\ trace w' = trace w /\ db w' = db w /\ connections w' = connections w
  /\ (forall (x y : DexQuote.t) (v : World),
       DexQuote.price x = 100%float -> DexQuote.price y = 120%float ->
       logs (snd (validateQuotes x y v)) = logs v ++ [divergence_warning])
  /\ (forall (x y : DexQuote.t) (v : World),
       DexQuote.price x = 100%float -> DexQuote.price y = 102%float ->
       logs (snd (validateQuotes x y v)) = logs v).
Proof.
  cbv zeta. rewrite validateQuotes_run. cbn [fst snd].
  assert (Hne : forall (l : list (LogLevel * string)) x, l ++ [x] <> l).
  { intros l x H. apply (f_equal length) in H. rewrite length_app in H.
    simpl in H. lia. }
  split; [reflexivity|].
  destruct (js_gt _ _) eqn:E; cbn.
  - repeat split; try reflexivity; try discriminate.
    + intros H. exfalso. exact (Hne _ _ H).
    + intros x y v Hx Hy. rewrite validateQuotes_run, Hx, Hy. reflexivity.
    + intros x y v Hx Hy. rewrite validateQuotes_run, Hx, Hy. reflexivity.
  - repeat split; try reflexivity; try discriminate.
    + intros H. exfalso. symmetry in H. exact (Hne _ _ H).
    + intros x y v Hx Hy. rewrite validateQuotes_run, Hx, Hy. reflexivity.
    + intros x y v Hx Hy. rewrite validateQuotes_run, Hx, Hy. reflexivity.
Qed.

(** The two examples of the specification, on concrete quotes. *)
Lemma validateQuotes_spec_witness :
  logs (snd (validateQuotes (quote_of RAYDIUM 100 1000 0)
               (quote_of METEORA 120 1200 0) (start calm_env [])))
  = [divergence_warning]
  /\ logs (snd (validateQuotes (quote_of RAYDIUM 100 1000 0)
               (quote_of METEORA 102 1020 0) (start calm_env [])))
  = [].
Proof.
  pose proof (validateQuotes_spec (quote_of RAYDIUM 100 1000 0)
                (quote_of METEORA 120 1200 0) (start calm_env [])) as H.
  cbv zeta in H.
  destruct H as (_ & _ & _ & _ & _ & _ & Hwarn & Hquiet).
  split.
  - apply (Hwarn _ _ (start calm_env [])); reflexivity.
  - apply (Hquiet _ _ (start calm_env [])); reflexivity.
Defined.

End Router.

(** ** The monad *)

Lemma bind_inv {A B} (c : M A) (k : A -> M B) (w w' : World) (r : Outcome B) :
  bind c k w = (r, w') ->
  (exists a w1, c w = (Ok a, w1) /\ k a w1 = (r, w'))
  \/ (exists e, c w = (Throw e, w') /\ r = Throw e)
  \/ (c w = (Cut, w') /\ r = Cut).
Proof.
  unfold bind. destruct (c w) as [[a|e|] w1]; intros H.
  - left. eauto.
  - right. left. injection H as <- <-. eauto.
  - right. right. injection H as <- <-. eauto.
Qed.

Lemma bind_ok {A B} (c : M A) (k : A -> M B) (w w1 : World) (a : A) :
  c w = (Ok a, w1) -> bind c k w = k a w1.
Proof. unfold bind. intros ->. reflexivity. Qed.

Lemma bind_throw {A B} (c : M A) (k : A -> M B) (w w1 : World) (e : JsError) :
  c w = (Throw e, w1) -> bind c k w = (Throw e, w1).
Proof. unfold bind. intros ->. reflexivity. Qed.

Lemma bind_gets {A B} (f : World -> A) (k : A -> M B) (w : World) :
  bind (gets f) k w = k (f w) w.
Proof. reflexivity. Qed.

Lemma bind_modify {B} (f : World -> World) (k : unit -> M B) (w : World) :
  bind (modify f) k w = k tt (f w).
Proof. reflexivity. Qed.

Lemma bind_log {B} (level : LogLevel) (text : string) (k : unit -> M B)
    (w : World) :
  bind (log level text) k w
  = k tt (set_logs (fun l => l ++ [(level, text)]) w).
Proof. reflexivity. Qed.

Lemma new_trace_app (w w' : World) (l : list Effect) :
  trace w' = trace w ++ l -> new_trace w w' = l.
Proof. unfold new_trace. intros ->. apply drop_app_length. Qed.

(** ** The order store *)

Section Store.
Import OrderService.

Lemma prisma_order_update_run (orderId : string) (d : UpdateData.t) (w : World) :
  prisma_order_update orderId d w =
  match store_rejects (env w) (storeCalls w), db w !! orderId with
  | Some e, _ =>
      (Throw e,
       set_trace (fun t => t ++ [EStoreReject orderId e]) (set_storeCalls S w))
  | None, None =>
      (Throw recordNotFound,
       set_trace (fun t => t ++ [EStoreReject orderId recordNotFound])
         (set_storeCalls S w))
  | None, Some o =>
      (Ok (applyUpdate d o),
       set_trace (fun t => t ++ [EStoreUpdate orderId d])
         (set_db (insert orderId (applyUpdate d o)) (set_storeCalls S w)))
  end.
Proof.
  unfold prisma_order_update, bind, gets, modify, effect, throw, ret; cbn.
  destruct (store_rejects _ _), (db w !! orderId); reflexivity.
Qed.

Lemma redis_call_run (key : string) (w : World) :
  redis_call key w =
  match redis_rejects (env w) (redisCalls w) with
  | Some e =>
      (Throw e,
       set_trace (fun t => t ++ [ECacheReject key e]) (set_redisCalls S w))
  | None => (Ok tt, set_redisCalls S w)
  end.
Proof.
  unfold redis_call, bind, gets, modify, effect, throw, ret; cbn.
  destruct (redis_rejects _ _); reflexivity.
Qed.

Lemma cacheOrder_run (o : Order.t) (w : World) :
  cacheOrder o w =
  match redis_rejects (env w) (redisCalls w) with
  | Some e =>
      (Throw e,
       set_trace (fun t => t ++ [ECacheReject ("order:" +:+ Order.id o) e])
         (set_redisCalls S w))
  | None =>
      (Ok tt,
       set_cache (insert ("order:" +:+ Order.id o) (cached_entry o (clock w)))
         (set_redisCalls S w))
  end.
Proof.
  unfold cacheOrder, redis_set, bind. rewrite redis_call_run.
  destruct (redis_rejects _ _); reflexivity.
Qed.

Lemma updateOrderStatus_run (orderId : string) (status : OrderStatus)
    (data : option StatusData.t) (w : World) :
  updateOrderStatus orderId status data w =
  match prisma_order_update orderId (status_update (clock w) status data) w with
  | (Ok o, w1) =>
      match cacheOrder o w1 with
      | (Ok _, w2) => (Ok o, w2)
      | (Throw e, w2) => (Throw e, w2)
      | (Cut, w2) => (Cut, w2)
      end
  | (Throw e, w1) => (Throw e, w1)
  | (Cut, w1) => (Cut, w1)
  end.
Proof.
  unfold updateOrderStatus, Date_now.
  rewrite (bind_ok _ _ w w (clock w)) by reflexivity. cbv zeta.
  unfold bind.
  destruct (prisma_order_update _ _ w) as [[o|e|] w1]; reflexivity.
Qed.

(** [updateOrderStatus] when the store answers and holds the row: the row
    is written, and then the cache write is answered or rejected. *)
Lemma updateOrderStatus_answered (orderId : string) (status : OrderStatus)
    (data : option StatusData.t) (o : Order.t) (w : World) :
  db w !! orderId = Some o ->
  store_rejects (env w) (storeCalls w) = None ->
  updateOrderStatus orderId status data w =
  let d := status_update (clock w) status data in
  let o' := applyUpdate d o in
  let w1 :=
    set_trace (fun t => t ++ [EStoreUpdate orderId d])
      (set_db (insert orderId o') (set_storeCalls S w)) in
  match redis_rejects (env w) (redisCalls w) with
  | Some e =>
      (Throw e,
       set_trace (fun t => t ++ [ECacheReject ("order:" +:+ Order.id o) e])
         (set_redisCalls S w1))
  | None =>
      (Ok o',
       set_cache (insert ("order:" +:+ Order.id o) (cached_entry o' (clock w)))
         (set_redisCalls S w1))
  end.
Proof.
  intros Hrow Hans.
  rewrite updateOrderStatus_run, prisma_order_update_run, Hans, Hrow.
  rewrite cacheOrder_run.
  cbn [env redisCalls clock set_trace set_db set_storeCalls]. cbv zeta.
  destruct (redis_rejects (env w) (redisCalls w)); reflexivity.
Qed.

Lemma truthy_number_zero : truthy_number 0 = false.
Proof. reflexivity. Qed.

(** C10: when the row exists and the database answers,
    [updateOrderStatus] stores the new row, and resolves with it when the
    cache write that follows is answered; when that write is rejected the
    call rejects with the rejection, the new row being stored all the
    same.  Each of the three price columns takes the supplied value only
    when that value is truthy, so a supplied [0] leaves the stored price
    as it was; the columns the update does not name keep their values, as
    does every other row. *)
Theorem updateOrderStatus_frame (orderId : string) (status : OrderStatus)
    (data : option StatusData.t) (o : Order.t) (w : World) :
  db w !! orderId = Some o ->
  store_rejects (env w) (storeCalls w) = None ->
  let w' := snd (updateOrderStatus orderId status data w) in
  let price (f : StatusData.t -> option float) (old : option float) :=
    if truthy_opt truthy_number (data ≫= f) then data ≫= f else old in
  let text (f : StatusData.t -> option string) (old : option string) :=
    if truthy_opt truthy_string (data ≫= f) then data ≫= f else old in
  exists o',
    fst (updateOrderStatus orderId status data w)
    = match redis_rejects (env w) (redisCalls w) with
      | Some e => Throw e
      | None => Ok o'
      end
    /\ db w' = <[orderId := o']> (db w)
    /\ (forall k, k <> orderId -> db w' !! k = db w !! k)
    (* the three prices *)
    /\ Order.raydiumPrice o' = price StatusData.raydiumPrice (Order.raydiumPrice o)
    /\ Order.meteoraPrice o' = price StatusData.meteoraPrice (Order.meteoraPrice o)
    /\ Order.executionPrice o'
       = price StatusData.executionPrice (Order.executionPrice o)
    /\ (forall d, data = Some d ->
          (StatusData.raydiumPrice d = Some 0%float ->
             Order.raydiumPrice o' = Order.raydiumPrice o)
          /\ (StatusData.meteoraPrice d = Some 0%float ->
             Order.meteoraPrice o' = Order.meteoraPrice o)
          /\ (StatusData.executionPrice d = Some 0%float ->
             Order.executionPrice o' = Order.executionPrice o))
    (* the other columns an update may name *)
    /\ Order.selectedDex o'
       = (if truthy_opt truthy_string (data ≫= StatusData.selectedDex)
          then toUpperCase <$> (data ≫= StatusData.selectedDex)
          else Order.selectedDex o)
    /\ Order.txHash o' = text StatusData.txHash (Order.txHash o)
    /\ Order.failureReason o'
       = text StatusData.failureReason (Order.failureReason o)
    (* the status and the two dates *)
    /\ Order.status o' = db_value status
    /\ Order.updatedAt o' = clock w
    /\ Order.completedAt o'
       = (if terminal status then Some (clock w) else Order.completedAt o)
    (* the columns no update names *)
    /\ Order.id o' = Order.id o
    /\ Order.type o' = Order.type o
    /\ Order.fromToken o' = Order.fromToken o
    /\ Order.toToken o' = Order.toToken o
    /\ Order.amount o' = Order.amount o
    /\ Order.slippageTolerance o' = Order.slippageTolerance o
    /\ Order.retryCount o' = Order.retryCount o
    /\ Order.createdAt o' = Order.createdAt o.
Proof.
  intros Hrow Hans. cbv zeta.
  rewrite updateOrderStatus_run, prisma_order_update_run, Hans, Hrow.
  rewrite cacheOrder_run.
  cbn [env redisCalls set_trace set_db set_storeCalls].
  exists (applyUpdate (status_update (clock w) status data) o).
  assert (Hcopy : forall A (t : A -> bool) (x old : option A),
             from_option Some old (copy_if t x)
             = if truthy_opt t x then x else old).
  { intros A t [a|] old; cbn; [destruct (t a)|]; reflexivity. }
  destruct (redis_rejects (env w) (redisCalls w)) as [e|]; cbn [fst snd].
  all: repeat match goal with |- _ /\ _ => split end;
    try reflexivity; cbn; try apply Hcopy; try lia.
  all: try (intros k Hk; apply lookup_insert_ne; congruence).
  all: try (intros d ->; cbn; repeat split; intros ->; reflexivity).
  all: try (destruct status; reflexivity).
  all: destruct data as [d|]; cbn; [|reflexivity];
    destruct (StatusData.selectedDex d) as [s|]; cbn; [|reflexivity];
    destruct (truthy_string s); reflexivity.
Qed.

(** The sample order, a quote update that carries a zero price. *)
Lemma updateOrderStatus_frame_witness :
  exists o',
    fst (updateOrderStatus "order-1" ROUTING
           (Some {| StatusData.selectedDex := Some "raydium";
                    StatusData.raydiumPrice := Some 0%float;
                    StatusData.meteoraPrice := Some 98%float;
                    StatusData.executionPrice := None;
                    StatusData.txHash := None;
                    StatusData.failureReason := None |})
           (start calm_env [sample_order])) = Ok o'
    /\ Order.raydiumPrice o' = None
    /\ Order.meteoraPrice o' = Some 98%float
    /\ Order.selectedDex o' = Some "RAYDIUM"
    /\ Order.status o' = "ROUTING".
Proof.
  destruct (updateOrderStatus_frame "order-1" ROUTING
              (Some {| StatusData.selectedDex := Some "raydium";
                       StatusData.raydiumPrice := Some 0%float;
                       StatusData.meteoraPrice := Some 98%float;
                       StatusData.executionPrice := None;
                       StatusData.txHash := None;
                       StatusData.failureReason := None |})
              sample_order (start calm_env [sample_order])
              ltac:(vm_compute; reflexivity) ltac:(reflexivity))
    as (o' & Hr & _ & _ & Hray & Hmet & _ & _ & Hdex & _ & _ & Hst & _).
  exists o'. repeat split; assumption.
Defined.

End Store.

(** ** Admission into the queue *)

Section Queue.
Import OrderQueueService.

Lemma addOrder_run (order : Order.t) (w : World) :
  addOrder order w =
  (Ok tt,
   set_logs (fun l => l ++ [(Info, "Order added to execution queue")])
     (set_jobs (fun l =>
        if existsb (fun j => String.eqb (Job.jobId j) (Order.id order)) l
        then l
        else l ++ [admitted order]) w)).
Proof. reflexivity. Qed.

Lemma existsb_jobId (id : string) (l : list Job.t) :
  existsb (fun j => String.eqb (Job.jobId j) id) l = true
  <-> exists j, j ∈ l /\ Job.jobId j = id.
Proof.
  rewrite existsb_exists. split; intros (j & Hj & E); exists j.
  - split; [apply list_elem_of_In, Hj|]. apply String.eqb_eq, E.
  - split; [apply list_elem_of_In, Hj|]. apply String.eqb_eq, E.
Qed.

(** C9: admission resolves; after it the queue holds a job keyed by the
    order's id, which is the order's own job (name, payload, priority)
    when no job had that key before.  Admitting the same order again leaves
    the queue as the first admission left it, and the number of jobs under
    the key never grows beyond the first one.  The priority is 1 for a
    market order, 2 for a limit order, 3 for a sniper order and 5 for any
    other kind. *)
Theorem addOrder_idempotent (order : Order.t) (w : World) :
  let id := Order.id order in
  let keyed (l : list Job.t) :=
    List.filter (fun j => String.eqb (Job.jobId j) id) l in
  let w1 := snd (addOrder order w) in
  let w2 := snd (addOrder order w1) in
  fst (addOrder order w) = Ok tt
  /\ fst (addOrder order w1) = Ok tt
  /\ jobs w2 = jobs w1
  /\ (keyed (jobs w) = [] ->
        jobs w1 = jobs w ++ [admitted order]
        /\ keyed (jobs w1) = [admitted order])
  /\ (keyed (jobs w) <> [] -> jobs w1 = jobs w)
  /\ keyed (jobs w1) <> []
  /\ Job.jobId (admitted order) = id
  /\ Job.data (admitted order) = order
  /\ Job.priority (admitted order) = getOrderPriority order
  /\ (Order.type order = "MARKET" -> getOrderPriority order = 1%Z)
  /\ (Order.type order = "LIMIT" -> getOrderPriority order = 2%Z)
  /\ (Order.type order = "SNIPER" -> getOrderPriority order = 3%Z)
  /\ (Order.type order <> "MARKET" -> Order.type order <> "LIMIT" ->
      Order.type order <> "SNIPER" -> getOrderPriority order = 5%Z).
Proof.
  cbv zeta. rewrite !addOrder_run. cbn [fst snd jobs set_logs set_jobs].
  set (p := fun j => String.eqb (Job.jobId j) (Order.id order)).
  assert (Hk : forall l, existsb p l = false <-> List.filter p l = []).
  { induction l as [|j l IH]; cbn; [tauto|].
    destruct (p j); cbn; [split; discriminate|exact IH]. }
  assert (Hadm : p (admitted order) = true).
  { unfold p. cbn. apply String.eqb_refl. }
  assert (Hin : forall l, existsb p (l ++ [admitted order]) = true).
  { intros l. rewrite existsb_app. cbn [existsb]. rewrite Hadm.
    destruct (existsb p l); reflexivity. }
  repeat match goal with |- _ /\ _ => split end; try reflexivity.
  - destruct (existsb p (jobs w)) eqn:E; [rewrite E|rewrite Hin]; reflexivity.
  - intros H. apply Hk in H as H'. rewrite H'. split; [reflexivity|].
    rewrite List.filter_app, H. cbn [List.filter app]. rewrite Hadm. reflexivity.
  - intros Hne. destruct (existsb p (jobs w)) eqn:E; [reflexivity|].
    apply Hk in E. contradiction.
  - destruct (existsb p (jobs w)) eqn:E.
    + intros H. apply Hk in H. congruence.
    + rewrite List.filter_app. cbn [List.filter]. rewrite Hadm.
      intros H. apply app_eq_nil in H. destruct H as [_ H]. discriminate H.
  - unfold getOrderPriority. intros ->. reflexivity.
  - unfold getOrderPriority. intros ->. reflexivity.
  - unfold getOrderPriority. intros ->. reflexivity.
  - unfold getOrderPriority. intros H1 H2 H3.
    apply String.eqb_neq in H1, H2, H3. rewrite H1, H2, H3. reflexivity.
Qed.

End Queue.

(** ** The connection registry *)

Section Registry.
Import WebSocketService.

Lemma unregisterConnection_run (orderId : string) (s : SocketStream.t) (w : World) :
  unregisterConnection orderId s w =
  (Ok tt,
   set_logs (fun l => l ++ [(Info, "WebSocket connection unregistered")])
     (set_connections (drop_connection orderId s) w)).
Proof.
  unfold unregisterConnection, drop_connection, bind, gets, modify, log, ret.
  destruct (connections w !! orderId) eqn:E;
    unfold set_logs, set_connections; cbn; rewrite E; [|reflexivity].
  destruct (Nat.eqb _ 0); reflexivity.
Qed.

Lemma drop_connection_members (orderId : string) (s : SocketStream.t)
    (c : gmap string (list SocketStream.t)) :
  default [] (drop_connection orderId s c !! orderId)
  = Set_delete s (default [] (c !! orderId)).
Proof.
  unfold drop_connection.
  destruct (c !! orderId) as [l|] eqn:E; [|rewrite E; reflexivity].
  cbv zeta. rewrite lookup_alter_eq, E.
  change (default [] (Some l)) with l.
  change (default [] (Set_delete s <$> Some l)) with (Set_delete s l).
  destruct (Set_delete s l) as [|x r] eqn:D.
  - change (length [] =? 0) with true. cbv iota.
    rewrite lookup_delete_eq. reflexivity.
  - change (length (x :: r) =? 0) with false. cbv iota.
    rewrite lookup_alter_eq, E. cbn. rewrite D. reflexivity.
Qed.

Lemma drop_connection_other (orderId k : string) (s : SocketStream.t)
    (c : gmap string (list SocketStream.t)) :
  k <> orderId -> drop_connection orderId s c !! k = c !! k.
Proof.
  intros Hk. unfold drop_connection. destruct (c !! orderId); [|reflexivity].
  cbn. destruct (Nat.eqb _ 0).
  - rewrite lookup_delete_ne, lookup_alter_ne; congruence.
  - rewrite lookup_alter_ne; congruence.
Qed.

Lemma drop_connection_nonempty (orderId k : string) (s : SocketStream.t)
    (c : gmap string (list SocketStream.t)) :
  c !! k <> Some [] -> drop_connection orderId s c !! k <> Some [].
Proof.
  intros Hc. destruct (decide (k = orderId)) as [->|Hk].
  - unfold drop_connection. destruct (c !! orderId) as [l|] eqn:E; [|congruence].
    cbv zeta. rewrite lookup_alter_eq, E.
    change (default [] (Set_delete s <$> Some l)) with (Set_delete s l).
    destruct (Set_delete s l) as [|x r] eqn:D.
    + change (length [] =? 0) with true. cbv iota.
      rewrite lookup_delete_eq. discriminate.
    + change (length (x :: r) =? 0) with false. cbv iota.
      rewrite lookup_alter_eq, E. cbn. rewrite D. discriminate.
  - rewrite drop_connection_other by exact Hk. exact Hc.
Qed.

Lemma members_foldl_drop (orderId : string) (F : list SocketStream.t) :
  forall c : gmap string (list SocketStream.t),
  default [] (foldl (fun c s => drop_connection orderId s c) c F !! orderId)
  = foldl (fun acc s => Set_delete s acc) (default [] (c !! orderId)) F.
Proof.
  induction F as [|s F IH]; intros c; cbn; [reflexivity|].
  rewrite IH, drop_connection_members. reflexivity.
Qed.

Lemma other_foldl_drop (orderId k : string) (F : list SocketStream.t) :
  k <> orderId ->
  forall c : gmap string (list SocketStream.t),
  foldl (fun c s => drop_connection orderId s c) c F !! k = c !! k.
Proof.
  intros Hk. induction F as [|s F IH]; intros c; cbn; [reflexivity|].
  rewrite IH. apply drop_connection_other, Hk.
Qed.

Lemma elem_of_Set_delete (s x : SocketStream.t) (l : list SocketStream.t) :
  x ∈ Set_delete s l <-> x ∈ l /\ SocketStream.ref s <> SocketStream.ref x.
Proof.
  unfold Set_delete. rewrite !list_elem_of_In, filter_In. unfold same.
  rewrite negb_true_iff, Nat.eqb_neq. reflexivity.
Qed.

Lemma elem_of_foldl_delete (x : SocketStream.t) (F : list SocketStream.t) :
  forall l : list SocketStream.t,
  x ∈ foldl (fun acc s => Set_delete s acc) l F
  <-> x ∈ l /\ forall t, t ∈ F -> SocketStream.ref t <> SocketStream.ref x.
Proof.
  induction F as [|s F IH]; intros l; cbn.
  - split; [intros H; split; [exact H|]|tauto]. intros t Ht. inversion Ht.
  - rewrite IH, elem_of_Set_delete. split.
    + intros [[Hx Hs] HF]. split; [exact Hx|]. intros t Ht.
      apply elem_of_cons in Ht as [->|Ht]; [exact Hs|exact (HF t Ht)].
    + intros [Hx HF]. repeat split; [exact Hx| |].
      * apply HF. left.
      * intros t Ht. apply HF. right. exact Ht.
Qed.

(** One round of the loop of [broadcastStatusUpdate]. *)
Lemma deliver_run (u : OrderStatusUpdate.t) (s : SocketStream.t) (w : World) :
  exists lg,
    try_catch
      (if Z.eqb (SocketStream.readyState s) 1
       then send s u ;; log Debug "Status update sent"
       else ret tt)
      (fun error =>
         log Error "Failed to send status update" ;;
         unregisterConnection (OrderStatusUpdate.orderId u) s) w
    = (Ok tt,
       set_logs (fun _ => logs w ++ lg)
         (set_trace
            (fun _ => trace w ++ (if is_open s then [delivery u s] else []))
            (set_connections
               (fun c => if send_fails s
                         then drop_connection (OrderStatusUpdate.orderId u) s c
                         else c) w))).
Proof.
  unfold send_fails, is_open, delivery, try_catch, send.
  destruct (Z.eqb (SocketStream.readyState s) 1).
  - destruct (SocketStream.send_throws s) as [e|] eqn:E.
    + eexists. unfold bind, effect, throw, log. unfold modify. cbv beta iota.
      rewrite unregisterConnection_run.
      unfold set_logs, set_trace, set_connections. cbn.
      rewrite <- app_assoc. reflexivity.
    + exists [(Debug, "Status update sent")]. reflexivity.
  - exists []. destruct w. unfold set_logs, set_trace, set_connections. cbn.
    rewrite !app_nil_r. reflexivity.
Qed.

(** The loop of [broadcastStatusUpdate] over the members [l]. *)
Lemma forEach_deliver (u : OrderStatusUpdate.t) (l : list SocketStream.t) :
  forall w : World, exists lg,
    forEach l (fun socket =>
      try_catch
        (if Z.eqb (SocketStream.readyState socket) 1
         then send socket u ;; log Debug "Status update sent"
         else ret tt)
        (fun error =>
           log Error "Failed to send status update" ;;
           unregisterConnection (OrderStatusUpdate.orderId u) socket)) w
    = (Ok tt,
       set_logs (fun _ => logs w ++ lg)
         (set_trace
            (fun _ => trace w ++ (delivery u <$> List.filter is_open l))
            (set_connections
               (fun c =>
                  foldl (fun c s =>
                           drop_connection (OrderStatusUpdate.orderId u) s c)
                    c (List.filter send_fails l)) w))).
Proof.
  induction l as [|s l IH]; intros w.
  - exists []. destruct w. unfold set_logs, set_trace, set_connections. cbn.
    rewrite !app_nil_r. reflexivity.
  - destruct (deliver_run u s w) as [lg1 H1].
    cbn [forEach]. rewrite (bind_ok _ _ _ _ _ H1).
    match goal with
    | |- context [forEach l _ ?w1] => destruct (IH w1) as [lg2 H2]
    end.
    exists (lg1 ++ lg2). rewrite H2.
    unfold set_logs, set_trace, set_connections.
    cbn [env clock db cache jobs connections timers trace logs redisCalls
         randomCalls uuidCalls storeCalls List.filter].
    f_equal. f_equal.
    + destruct (send_fails s); reflexivity.
    + destruct (is_open s); cbn; rewrite <- app_assoc; reflexivity.
    + rewrite <- app_assoc. reflexivity.
Qed.

Lemma terminal_value (s : OrderStatus) :
  String.eqb (OrderStatus_value s) "confirmed"
  || String.eqb (OrderStatus_value s) "failed" = terminal s.
Proof. destruct s; reflexivity. Qed.

(** [broadcastStatusUpdate] when the order has no subscriber. *)
Lemma broadcastStatusUpdate_none (u : OrderStatusUpdate.t) (w : World) :
  subscribers (OrderStatusUpdate.orderId u) w = [] ->
  broadcastStatusUpdate u w
  = (Ok tt,
     set_logs (fun l => l ++ [(Debug, "No active connections for order")]) w).
Proof.
  unfold subscribers, broadcastStatusUpdate. intros H.
  rewrite bind_gets.
  destruct (connections w !! OrderStatusUpdate.orderId u) as [l|];
    [|reflexivity].
  cbn in H. subst l. reflexivity.
Qed.

(** [broadcastStatusUpdate] when the order has subscribers. *)
Lemma broadcastStatusUpdate_some (u : OrderStatusUpdate.t) (w : World) :
  let id := OrderStatusUpdate.orderId u in
  subscribers id w <> [] ->
  exists lg,
    broadcastStatusUpdate u w
    = (Ok tt,
       set_timers
         (fun t => if terminal (OrderStatusUpdate.status u)
                   then t ++ [closure_timer (clock w) id] else t)
         (set_logs (fun _ => logs w ++ lg)
            (set_trace
               (fun _ => trace w
                         ++ (delivery u <$> List.filter is_open (subscribers id w)))
               (set_connections
                  (fun c =>
                     foldl (fun c s => drop_connection id s c) c
                       (List.filter send_fails (subscribers id w))) w)))).
Proof.
  cbv zeta. unfold subscribers, broadcastStatusUpdate. intros H.
  rewrite bind_gets.
  destruct (connections w !! OrderStatusUpdate.orderId u) as [l|];
    [|contradiction]. cbn in H. cbn [default].
  destruct l as [|s l]; [contradiction|]. cbn [length Nat.eqb].
  destruct (forEach_deliver u (s :: l) w) as [lg Hl].
  exists lg. rewrite (bind_ok _ _ _ _ _ Hl), terminal_value.
  destruct (terminal (OrderStatusUpdate.status u)); reflexivity.
Qed.

Lemma registerConnection_run (orderId : string) (s : SocketStream.t) (w : World) :
  registerConnection orderId s w
  = (Ok tt,
     set_logs (fun l => l ++ [(Info, "WebSocket connection registered")])
       (set_connections
          (fun c => alter (Set_add s) orderId
                      (if bool_decide (is_Some (c !! orderId))
                       then c else <[orderId := []]> c)) w)).
Proof.
  unfold registerConnection. rewrite bind_gets.
  destruct (bool_decide (is_Some (connections w !! orderId))) eqn:E;
    unfold set_logs, set_connections, bind, modify, ret, log; cbn;
    rewrite E; reflexivity.
Qed.

Lemma subscribers_register (orderId : string) (s : SocketStream.t) (w : World) :
  subscribers orderId (snd (registerConnection orderId s w))
  = Set_add s (subscribers orderId w).
Proof.
  rewrite registerConnection_run. unfold subscribers. cbn.
  destruct (connections w !! orderId) as [l|] eqn:E.
  - rewrite bool_decide_eq_true_2 by eauto.
    rewrite lookup_alter_eq, E. reflexivity.
  - rewrite bool_decide_eq_false_2 by (intros [? ?]; congruence).
    rewrite lookup_alter_eq, lookup_insert_eq. reflexivity.
Qed.

Lemma survivors_spec (orderId : string) (c : gmap string (list SocketStream.t))
    (s : SocketStream.t) :
  let l := default [] (c !! orderId) in
  s ∈ default []
        (foldl (fun c s => drop_connection orderId s c) c
           (List.filter send_fails l) !! orderId)
  <-> s ∈ l
      /\ forall t, t ∈ l -> send_fails t = true ->
           SocketStream.ref t <> SocketStream.ref s.
Proof.
  cbv zeta. rewrite members_foldl_drop, elem_of_foldl_delete.
  split; intros [Hs HF]; (split; [exact Hs|]).
  - intros t Ht Hf. apply HF. apply list_elem_of_In, filter_In.
    split; [apply list_elem_of_In, Ht|exact Hf].
  - intros t Ht. apply list_elem_of_In, filter_In in Ht as [Ht Hf].
    apply HF; [apply list_elem_of_In, Ht|exact Hf].
Qed.

(** C6, as stated, fails for a subscriber whose socket is not open: no
    delivery to it is attempted, and it stays in the set. *)
Lemma closing_subscriber_is_skipped :
  let s := {| SocketStream.ref := 7; SocketStream.readyState := 2;
              SocketStream.send_throws := None;
              SocketStream.close_throws := None |} in
  let w := snd (registerConnection "order-1" s (start calm_env [sample_order])) in
  let u := {| OrderStatusUpdate.orderId := "order-1";
              OrderStatusUpdate.status := ROUTING;
              OrderStatusUpdate.message := "Comparing DEX prices";
              OrderStatusUpdate.data := None;
              OrderStatusUpdate.timestamp := 0 |} in
  subscribers "order-1" w = [s]
  /\ fst (broadcastStatusUpdate u w) = Ok tt
  /\ new_trace w (snd (broadcastStatusUpdate u w)) = []
  /\ subscribers "order-1" (snd (broadcastStatusUpdate u w)) = [s].
Proof. vm_compute. repeat split. Qed.

(** C6 (amended): [broadcastStatusUpdate] never throws.  With no
    subscriber for the order it sends nothing and leaves the registry and
    the timers as they were.  Otherwise [send] is called once, in order, on
    every subscriber whose socket is open, and on no other; a subscriber
    stays in the set exactly when no [send] on its socket threw, the
    subscribers of other orders are untouched, and a throwing [send] stops
    neither the later deliveries nor the caller.  Two open connections
    registered for one order both have [send] called with the event. *)
Theorem broadcastStatusUpdate_delivery (u : OrderStatusUpdate.t) (w : World) :
  let id := OrderStatusUpdate.orderId u in
  let subs := subscribers id w in
  let w' := snd (broadcastStatusUpdate u w) in
  fst (broadcastStatusUpdate u w) = Ok tt
  /\ (subs = [] ->
        trace w' = trace w /\ connections w' = connections w
        /\ timers w' = timers w)
  /\ new_trace w w' = delivery u <$> List.filter is_open subs
  /\ (forall s,
        s ∈ subscribers id w'
        <-> s ∈ subs
            /\ forall t, t ∈ subs -> send_fails t = true ->
                 SocketStream.ref t <> SocketStream.ref s)
  /\ (forall k, k <> id -> connections w' !! k = connections w !! k)
  /\ db w' = db w
  /\ (forall (a b : SocketStream.t) (v : World),
        subscribers id v = [] ->
        SocketStream.ref a <> SocketStream.ref b ->
        is_open a = true -> is_open b = true ->
        let v2 := snd (registerConnection id b (snd (registerConnection id a v))) in
        new_trace v2 (snd (broadcastStatusUpdate u v2))
        = [delivery u a; delivery u b]).
Proof.
  cbv zeta.
  assert (Hnew : forall v,
            new_trace v (snd (broadcastStatusUpdate u v))
            = delivery u <$> List.filter is_open
                (subscribers (OrderStatusUpdate.orderId u) v)).
  { intros v.
    destruct (subscribers (OrderStatusUpdate.orderId u) v) as [|s l] eqn:E.
    - rewrite (broadcastStatusUpdate_none u v E). cbn.
      apply new_trace_app. rewrite app_nil_r. reflexivity.
    - destruct (broadcastStatusUpdate_some u v) as [lg H];
        [rewrite E; discriminate|].
      rewrite H, E. apply new_trace_app. reflexivity. }
  assert (Htwo : forall (a b : SocketStream.t) (v : World),
            subscribers (OrderStatusUpdate.orderId u) v = [] ->
            SocketStream.ref a <> SocketStream.ref b ->
            is_open a = true -> is_open b = true ->
            new_trace
              (snd (registerConnection (OrderStatusUpdate.orderId u) b
                      (snd (registerConnection (OrderStatusUpdate.orderId u) a v))))
              (snd (broadcastStatusUpdate u
                      (snd (registerConnection (OrderStatusUpdate.orderId u) b
                              (snd (registerConnection
                                      (OrderStatusUpdate.orderId u) a v))))))
            = [delivery u a; delivery u b]).
  { intros a b v Hv Hab Ha Hb. rewrite Hnew, !subscribers_register, Hv.
    unfold Set_add. cbn. unfold same. cbn.
    destruct (Nat.eqb_neq (SocketStream.ref b) (SocketStream.ref a)) as [_ ->];
      [|congruence]. cbn. rewrite Ha, Hb. reflexivity. }
  pose proof (Hnew w) as Hw.
  destruct (decide (subscribers (OrderStatusUpdate.orderId u) w = [])) as [E|E].
  - rewrite (broadcastStatusUpdate_none u w E) in *. cbn [fst snd] in *.
    repeat match goal with |- _ /\ _ => split end;
      try reflexivity; try assumption.
    + intros _. repeat split.
    + intros s. unfold subscribers in *. cbn. rewrite E.
      split; [intros H; inversion H|intros [H _]; inversion H].
  - destruct (broadcastStatusUpdate_some u w E) as [lg H].
    rewrite H in *. cbn [fst snd] in *.
    repeat match goal with |- _ /\ _ => split end;
      try reflexivity; try assumption.
    + intros E'. contradiction.
    + intros s. apply (survivors_spec _ (connections w)).
    + intros k Hk. cbn. apply other_foldl_drop, Hk.
Qed.

(** The loop of [closeOrderConnections] over the members [l]. *)
Lemma forEach_close (l : list SocketStream.t) :
  forall w : World, exists lg,
    forEach l (fun socket =>
      try_catch (close socket)
        (fun error => log Error "Error closing connection")) w
    = (Ok tt,
       set_logs (fun _ => logs w ++ lg)
         (set_trace (fun _ => trace w ++ (closing <$> l)) w)).
Proof.
  induction l as [|s l IH]; intros w.
  - exists []. destruct w. unfold set_logs, set_trace. cbn.
    rewrite !app_nil_r. reflexivity.
  - assert (H1 : exists lg1,
               try_catch (close s)
                 (fun error => log Error "Error closing connection") w
               = (Ok tt,
                  set_logs (fun _ => logs w ++ lg1)
                    (set_trace (fun _ => trace w ++ [closing s]) w))).
    { unfold try_catch, close, closing.
      destruct (SocketStream.close_throws s) as [e|].
      - exists [(Error, "Error closing connection")]. reflexivity.
      - exists []. unfold set_logs, set_trace, bind, effect, modify, ret. cbn.
        rewrite app_nil_r. reflexivity. }
    destruct H1 as [lg1 H1].
    cbn [forEach]. rewrite (bind_ok _ _ _ _ _ H1).
    match goal with
    | |- context [forEach l _ ?w1] => destruct (IH w1) as [lg2 H2]
    end.
    exists (lg1 ++ lg2). rewrite H2.
    unfold set_logs, set_trace.
    cbn [env clock db cache jobs connections timers trace logs redisCalls
         randomCalls uuidCalls storeCalls].
    rewrite <- !app_assoc. reflexivity.
Qed.

Lemma closeOrderConnections_run (orderId : string) (w : World) :
  exists lg,
    closeOrderConnections orderId w
    = (Ok tt,
       set_logs (fun _ => logs w ++ lg)
         (set_trace (fun _ => trace w ++ (closing <$> subscribers orderId w))
            (set_connections (delete orderId) w))).
Proof.
  unfold closeOrderConnections, subscribers. rewrite bind_gets.
  destruct (connections w !! orderId) as [l|] eqn:E.
  - destruct (forEach_close l w) as [lg H].
    exists (lg ++ [(Info, "All connections closed for order")]).
    rewrite (bind_ok _ _ _ _ _ H).
    unfold bind, log. unfold modify, set_logs, set_trace, set_connections.
    cbn. rewrite <- app_assoc. reflexivity.
  - exists []. destruct w. unfold set_logs, set_trace, set_connections.
    cbn in *. rewrite !app_nil_r, delete_id by exact E. reflexivity.
Qed.

(** C7: a terminal event published to an order that has subscribers leaves
    one more timer behind, due 5000 ms after the publication, and none
    when the set was already empty (the count is then 0 already).  Whenever
    that timer's callback runs, it resolves, calls [close] once on every
    subscriber the order then has, swallowing what [close] throws, and
    removes the order's entry from the registry, so the per-order count is
    0 afterwards; the sets of other orders are not touched. *)
Theorem terminal_event_closes_subscribers (u : OrderStatusUpdate.t) (w : World) :
  terminal (OrderStatusUpdate.status u) = true ->
  let id := OrderStatusUpdate.orderId u in
  let w' := snd (broadcastStatusUpdate u w) in
  let t := closure_timer (clock w) id in
  (subscribers id w <> [] -> timers w' = timers w ++ [t])
  /\ (subscribers id w = [] ->
        timers w' = timers w /\ fst (getOrderConnections id w') = Ok 0%nat)
  /\ due t = (clock w + 5000)%Z
  /\ callback t = CloseOrderConnections id
  /\ forall v : World,
       let v' := snd (runTimer t v) in
       fst (runTimer t v) = Ok tt
       /\ new_trace v v' = closing <$> subscribers id v
       /\ connections v' !! id = None
       /\ fst (getOrderConnections id v') = Ok 0%nat
       /\ (forall k, k <> id -> connections v' !! k = connections v !! k).
Proof.
  intros Hterm. cbv zeta.
  repeat match goal with |- _ /\ _ => split end; try reflexivity.
  - intros E. destruct (broadcastStatusUpdate_some u w E) as [lg H].
    rewrite H. cbn. rewrite Hterm. reflexivity.
  - intros E. rewrite (broadcastStatusUpdate_none u w E).
    split; [reflexivity|]. unfold subscribers in E. cbn. rewrite E.
    reflexivity.
  - intros v. unfold runTimer. cbn [callback closure_timer].
    destruct (closeOrderConnections_run (OrderStatusUpdate.orderId u) v)
      as [lg H].
    rewrite H. cbn [fst snd].
    repeat match goal with |- _ /\ _ => split end; try reflexivity.
    + apply new_trace_app. reflexivity.
    + cbn. apply lookup_delete_eq.
    + cbn. rewrite lookup_delete_eq. reflexivity.
    + intros k Hk. cbn. apply lookup_delete_ne. congruence.
Qed.

(** A failed order with one subscriber whose [close] throws. *)
Lemma terminal_event_closes_subscribers_witness :
  let s := {| SocketStream.ref := 1; SocketStream.readyState := 1;
              SocketStream.send_throws := None;
              SocketStream.close_throws := Some {| message := "socket hang up" |} |} in
  let w := snd (registerConnection "order-1" s (start calm_env [sample_order])) in
  let u := {| OrderStatusUpdate.orderId := "order-1";
              OrderStatusUpdate.status := FAILED;
              OrderStatusUpdate.message := "Order execution failed";
              OrderStatusUpdate.data := None;
              OrderStatusUpdate.timestamp := 0 |} in
  let w' := snd (broadcastStatusUpdate u w) in
  timers w' = [closure_timer 0 "order-1"]
  /\ fst (getOrderConnections "order-1"
            (snd (runTimer (closure_timer 0 "order-1") w'))) = Ok 0%nat.
Proof.
  cbv zeta.
  pose proof (terminal_event_closes_subscribers
    {| OrderStatusUpdate.orderId := "order-1";
       OrderStatusUpdate.status := FAILED;
       OrderStatusUpdate.message := "Order execution failed";
       OrderStatusUpdate.data := None;
       OrderStatusUpdate.timestamp := 0 |}
    (snd (registerConnection "order-1"
            {| SocketStream.ref := 1; SocketStream.readyState := 1;
               SocketStream.send_throws := None;
               SocketStream.close_throws := Some {| message := "socket hang up" |} |}
            (start calm_env [sample_order])))
    eq_refl) as H.
  cbv zeta in H. destruct H as (Hsched & _ & _ & _ & Hrun).
  split.
  - apply Hsched. vm_compute. discriminate.
  - apply Hrun.
Defined.

End Registry.

(** ** Histories of effects *)

Lemma Ext_refl (w : World) : Ext w w [].
Proof. split; [reflexivity|tauto|]. rewrite app_nil_r. reflexivity. Qed.

Lemma Ext_trans (w w1 w2 : World) (l1 l2 : list Effect) :
  Ext w w1 l1 -> Ext w1 w2 l2 -> Ext w w2 (l1 ++ l2).
Proof.
  intros [He1 Hr1 Ht1] [He2 Hr2 Ht2]. split.
  - congruence.
  - intros k. rewrite Hr2. apply Hr1.
  - rewrite Ht2, Ht1, app_assoc. reflexivity.
Qed.

Lemma Ext_quiet (w w' : World) :
  env w' = env w -> db w' = db w -> trace w' = trace w -> Ext w w' [].
Proof.
  intros He Hd Ht. split; [exact He|rewrite Hd; tauto|].
  rewrite Ht, app_nil_r. reflexivity.
Qed.

Lemma Ext_new_trace (w w' : World) (l : list Effect) :
  Ext w w' l -> new_trace w w' = l.
Proof. intros [_ _ H]. apply new_trace_app, H. Qed.

Lemma healthy_ext (orderId : string) (w w' : World) (l : list Effect) :
  Ext w w' l -> healthy orderId w -> healthy orderId w'.
Proof.
  intros [He Hr _] [H1 H2]. split.
  - rewrite He. exact H1.
  - apply Hr, H2.
Qed.

Lemma redis_answers_ext (w w' : World) (l : list Effect) :
  Ext w w' l -> redis_answers w -> redis_answers w'.
Proof. intros [He _ _] H n. rewrite He. apply H. Qed.

Lemma persisted_app (orderId : string) (l1 l2 : list Effect) :
  persisted orderId (l1 ++ l2) = persisted orderId l1 ++ persisted orderId l2.
Proof. apply omap_app. Qed.

Lemma published_app (orderId : string) (l1 l2 : list Effect) :
  published orderId (l1 ++ l2) = published orderId l1 ++ published orderId l2.
Proof. apply omap_app. Qed.

Lemma rejections_app (l1 l2 : list Effect) :
  rejections (l1 ++ l2) = rejections l1 ++ rejections l2.
Proof. apply omap_app. Qed.

Lemma cache_rejections_app (l1 l2 : list Effect) :
  cache_rejections (l1 ++ l2) = cache_rejections l1 ++ cache_rejections l2.
Proof. apply omap_app. Qed.

Lemma delays_app (l1 l2 : list Effect) :
  delays (l1 ++ l2) = delays l1 ++ delays l2.
Proof. apply omap_app. Qed.

Lemma marks_app (l1 l2 : list Effect) :
  marks (l1 ++ l2) = marks l1 ++ marks l2.
Proof. apply omap_app. Qed.

Lemma written_app (orderId : string) (p q : list Mark) :
  written orderId (p ++ q) = written orderId p ++ written orderId q.
Proof. apply omap_app. Qed.

Lemma told_app (orderId : string) (p q : list Mark) :
  told orderId (p ++ q) = told orderId p ++ told orderId q.
Proof. apply omap_app. Qed.

Lemma persisted_deliveries (orderId : string) (u : OrderStatusUpdate.t)
    (l : list SocketStream.t) :
  persisted orderId (delivery u <$> l) = [].
Proof. induction l as [|s l IH]; [reflexivity|exact IH]. Qed.

Lemma published_deliveries (orderId : string) (u : OrderStatusUpdate.t)
    (l : list SocketStream.t) :
  published orderId (delivery u <$> l) = [].
Proof. induction l as [|s l IH]; [reflexivity|exact IH]. Qed.

Lemma rejections_deliveries (u : OrderStatusUpdate.t) (l : list SocketStream.t) :
  rejections (delivery u <$> l) = [].
Proof. induction l as [|s l IH]; [reflexivity|exact IH]. Qed.

Lemma cache_rejections_deliveries (u : OrderStatusUpdate.t)
    (l : list SocketStream.t) :
  cache_rejections (delivery u <$> l) = [].
Proof. induction l as [|s l IH]; [reflexivity|exact IH]. Qed.

Lemma delays_deliveries (u : OrderStatusUpdate.t) (l : list SocketStream.t) :
  delays (delivery u <$> l) = [].
Proof. induction l as [|s l IH]; [reflexivity|exact IH]. Qed.

Lemma marks_deliveries (u : OrderStatusUpdate.t) (l : list SocketStream.t) :
  marks (delivery u <$> l) = [].
Proof. induction l as [|s l IH]; [reflexivity|exact IH]. Qed.

Lemma persisted_cons (orderId : string) (x : Effect) (l : list Effect) :
  persisted orderId (x :: l) = persisted orderId [x] ++ persisted orderId l.
Proof. apply (persisted_app orderId [x] l). Qed.

Lemma published_cons (orderId : string) (x : Effect) (l : list Effect) :
  published orderId (x :: l) = published orderId [x] ++ published orderId l.
Proof. apply (published_app orderId [x] l). Qed.

Lemma Transition_marks (orderId : string) (s : OrderStatus) (blk : list Effect) :
  Transition orderId s blk -> marks blk = transition orderId s.
Proof.
  intros [d u l Hd Hu Hs].
  change (marks ([EStoreUpdate orderId d; EPublish u] ++ (delivery u <$> l))
          = transition orderId s).
  rewrite marks_app, marks_deliveries. cbn. rewrite Hd, Hu, Hs. reflexivity.
Qed.

Lemma Transition_rejections (orderId : string) (s : OrderStatus)
    (blk : list Effect) :
  Transition orderId s blk -> rejections blk = [].
Proof.
  intros [d u l Hd Hu Hs].
  change (rejections ([EStoreUpdate orderId d; EPublish u] ++ (delivery u <$> l))
          = []).
  rewrite rejections_app, rejections_deliveries. reflexivity.
Qed.

Lemma Transition_cache (orderId : string) (s : OrderStatus)
    (blk : list Effect) :
  Transition orderId s blk -> cache_rejections blk = [].
Proof.
  intros [d u l Hd Hu Hs].
  change (cache_rejections
            ([EStoreUpdate orderId d; EPublish u] ++ (delivery u <$> l))
          = []).
  rewrite cache_rejections_app, cache_rejections_deliveries. reflexivity.
Qed.

(** The statuses written and the statuses published, read off the
    steps. *)
Lemma persisted_marks (orderId : string) (l : list Effect) :
  persisted orderId l = written orderId (marks l).
Proof.
  induction l as [|x l IH]; [reflexivity|].
  rewrite persisted_cons, IH.
  destruct x as [id d|id e|u|r u t|r t|ms|key e]; try reflexivity.
  cbn. destruct (UpdateData.status d) as [s|];
    destruct (String.eqb id orderId); reflexivity.
Qed.

Lemma published_marks (orderId : string) (l : list Effect) :
  OrderStatusUpdate.status <$> published orderId l = told orderId (marks l).
Proof.
  induction l as [|x l IH]; [reflexivity|].
  rewrite published_cons, fmap_app, IH.
  destruct x as [id d|id e|u|r u t|r t|ms|key e]; try reflexivity.
  cbn. destruct (String.eqb (OrderStatusUpdate.orderId u) orderId); reflexivity.
Qed.

Lemma rejections_marks (l : list Effect) :
  rejections l = [] <-> forall k, Refused k ∉ marks l.
Proof.
  induction l as [|x l IH].
  - split; [intros _ k H; inversion H|reflexivity].
  - destruct x as [id d|id e|u|r u t|r t|ms|key e]; cbn;
      try (rewrite IH; split; intros H k;
           [intros Hin; apply elem_of_cons in Hin as [Hin|Hin];
            [discriminate Hin|exact (H k Hin)]
           |intros Hin; apply (H k); right; exact Hin]);
      try exact IH.
    split; [discriminate|]. intros H. exfalso. apply (H id). left.
Qed.

Lemma cache_rejections_marks (l : list Effect) :
  cache_rejections l = [] <-> Uncached ∉ marks l.
Proof.
  induction l as [|x l IH].
  - split; [intros _ H; inversion H|reflexivity].
  - destruct x as [id d|id e|u|r u t|r t|ms|key e]; cbn;
      try (rewrite IH; split; intros H;
           [intros Hin; apply elem_of_cons in Hin as [Hin|Hin];
            [discriminate Hin|exact (H Hin)]
           |intros Hin; apply H; right; exact Hin]);
      try exact IH.
    split; [discriminate|]. intros H. exfalso. apply H. left.
Qed.

Lemma insert_keeps_rows (m : gmap string Order.t) (id : string)
    (o o' : Order.t) :
  m !! id = Some o ->
  forall k, is_Some (<[id := o']> m !! k) <-> is_Some (m !! k).
Proof.
  intros Hrow k. destruct (decide (k = id)) as [->|Hk].
  - rewrite lookup_insert_eq, Hrow. split; eauto.
  - rewrite lookup_insert_ne by congruence. tauto.
Qed.

(** ** The execution pipeline *)

Section Pipeline.
Import OrderService OrderExecutionService.

Lemma wp_bind {A B} (c : M A) (k : A -> M B) (Q : Outcome B -> World -> Prop)
    (w : World) :
  wp c (fun r w1 =>
          match r with
          | Ok a => wp (k a) Q w1
          | Throw e => Q (Throw e) w1
          | Cut => Q Cut w1
          end) w ->
  wp (bind c k) Q w.
Proof. unfold wp, bind. destruct (c w) as [[a|e|] w1]; cbn; auto. Qed.

Lemma bind_fst_ok {A B} (c : M A) (k : A -> M B) (w : World) (a : A) :
  fst (c w) = Ok a -> bind c k w = k a (snd (c w)).
Proof. unfold bind. destruct (c w) as [r w1]. cbn. intros ->. reflexivity. Qed.

Lemma emitStatusUpdate_spec (orderId : string) (s : OrderStatus)
    (msg : string) (ev : option EventData.t) (w : World) :
  let w' := snd (emitStatusUpdate orderId s msg ev w) in
  let u := {| OrderStatusUpdate.orderId := orderId;
              OrderStatusUpdate.status := s;
              OrderStatusUpdate.message := msg;
              OrderStatusUpdate.data := ev;
              OrderStatusUpdate.timestamp := clock w |} in
  fst (emitStatusUpdate orderId s msg ev w) = Ok tt
  /\ trace w'
     = trace w ++ EPublish u
         :: (delivery u <$> List.filter is_open (subscribers orderId w))
  /\ env w' = env w /\ db w' = db w /\ clock w' = clock w
  /\ storeCalls w' = storeCalls w.
Proof.
  cbv zeta. unfold emitStatusUpdate, Date_now. rewrite bind_gets.
  cbv zeta. unfold effect. rewrite bind_modify.
  set (u := {| OrderStatusUpdate.orderId := orderId;
               OrderStatusUpdate.status := s;
               OrderStatusUpdate.message := msg;
               OrderStatusUpdate.data := ev;
               OrderStatusUpdate.timestamp := clock w |}).
  set (w1 := set_trace (fun t => t ++ [EPublish u]) w).
  assert (Hs : subscribers orderId w1 = subscribers orderId w) by reflexivity.
  destruct (decide (subscribers (OrderStatusUpdate.orderId u) w1 = [])) as [E|E].
  - rewrite (broadcastStatusUpdate_none u w1 E). cbn.
    change (OrderStatusUpdate.orderId u) with orderId in E.
    rewrite <- Hs, E. repeat split.
  - destruct (broadcastStatusUpdate_some u w1 E) as [lg H].
    rewrite H. cbn. rewrite <- app_assoc. repeat split.
Qed.

Ltac ext_tac :=
  split; cbn;
  [reflexivity | intros; tauto | rewrite ?app_nil_r; reflexivity].

(** [updateOrderStatus], case by case: the store rejects the call; the
    store writes the row and the cache write rejects; both answer. *)
Lemma updateOrderStatus_cases (orderId : string) (s : OrderStatus)
    (data : option StatusData.t) (w : World) :
  let d := status_update (clock w) s data in
  let r := fst (updateOrderStatus orderId s data w) in
  let w1 := snd (updateOrderStatus orderId s data w) in
  (exists e, r = Throw e /\ Ext w w1 [EStoreReject orderId e]
             /\ ~ healthy orderId w)
  \/ (exists e key, r = Throw e
                    /\ Ext w w1 [EStoreUpdate orderId d; ECacheReject key e]
                    /\ ~ redis_answers w)
  \/ (exists o, r = Ok o /\ Ext w w1 [EStoreUpdate orderId d]
                /\ clock w1 = clock w
                /\ subscribers orderId w1 = subscribers orderId w).
Proof.
  cbv zeta. rewrite updateOrderStatus_run, prisma_order_update_run.
  destruct (store_rejects (env w) (storeCalls w)) as [e|] eqn:Ha;
    [|destruct (db w !! orderId) as [o|] eqn:Hrow].
  - left. exists e. cbn [fst snd]. split; [reflexivity|]. split; [ext_tac|].
    intros [H _]. rewrite H in Ha. discriminate.
  - rewrite cacheOrder_run.
    cbn [env redisCalls set_trace set_db set_storeCalls].
    destruct (redis_rejects (env w) (redisCalls w)) as [e|] eqn:Hc.
    + right. left. eexists e, _. cbn [fst snd].
      split; [reflexivity|]. split.
      * split; cbn; [reflexivity|apply (insert_keeps_rows _ _ _ _ Hrow)|].
        rewrite <- app_assoc. reflexivity.
      * intros H. rewrite H in Hc. discriminate.
    + right. right. eexists. cbn [fst snd]. split; [reflexivity|].
      split; [|split; reflexivity].
      split; cbn; [reflexivity|apply (insert_keeps_rows _ _ _ _ Hrow)|reflexivity].
  - left. exists recordNotFound. cbn [fst snd]. split; [reflexivity|].
    split; [ext_tac|]. intros [_ [o' H]]. congruence.
Qed.

(** A transition: the store call is rejected; or the status is written
    and the cache write rejected, and no event is published; or the status
    is written and its event published before the pipeline goes on. *)
Lemma transition_wp {A} (orderId : string) (s : OrderStatus)
    (data : option StatusData.t) (msg : string) (ev : option EventData.t)
    (k : M A) (Q : Outcome A -> World -> Prop) (w : World) :
  (forall e w1,
     Ext w w1 [EStoreReject orderId e] -> ~ healthy orderId w ->
     Q (Throw e) w1) ->
  (forall e w1 d key,
     Ext w w1 [EStoreUpdate orderId d; ECacheReject key e] ->
     UpdateData.status d = Some (db_value s) -> ~ redis_answers w ->
     Q (Throw e) w1) ->
  (forall w1 blk,
     Ext w w1 blk -> Transition orderId s blk -> wp k Q w1) ->
  wp (updateOrderStatus orderId s data ;;
      emitStatusUpdate orderId s msg ev ;; k) Q w.
Proof.
  intros Hrej Hcache Hgo. unfold wp.
  destruct (updateOrderStatus_cases orderId s data w)
    as [(e & Hr & E & Hn)|[(e & key & Hr & E & Hn)|(o & Hr & E & Hc & Hs)]];
    destruct (updateOrderStatus orderId s data w) as [r w1] eqn:Hu;
    cbn [fst snd] in *; subst r.
  - rewrite (bind_throw _ _ _ _ _ Hu).
    exact (Hrej e w1 E Hn).
  - rewrite (bind_throw _ _ _ _ _ Hu).
    exact (Hcache e w1 _ key E eq_refl Hn).
  - rewrite (bind_ok _ _ _ _ _ Hu).
    match goal with
    | |- Q (fst (bind ?c ?k' ?w1)) _ =>
        destruct (emitStatusUpdate_spec orderId s msg ev w1)
          as (Hr & Ht & He & Hd & _);
        rewrite (bind_fst_ok c k' w1 tt Hr);
        apply (Hgo (snd (c w1))
                 (EStoreUpdate orderId (status_update (clock w) s data)
                  :: EPublish
                       {| OrderStatusUpdate.orderId := orderId;
                          OrderStatusUpdate.status := s;
                          OrderStatusUpdate.message := msg;
                          OrderStatusUpdate.data := ev;
                          OrderStatusUpdate.timestamp := clock w1 |}
                  :: (delivery
                        {| OrderStatusUpdate.orderId := orderId;
                           OrderStatusUpdate.status := s;
                           OrderStatusUpdate.message := msg;
                           OrderStatusUpdate.data := ev;
                           OrderStatusUpdate.timestamp := clock w1 |}
                      <$> List.filter is_open (subscribers orderId w1))))
    end.
    + destruct E as [Ee Er Et]. split.
      * rewrite He. exact Ee.
      * intros k0. rewrite Hd. apply Er.
      * rewrite Ht, Et. cbn. rewrite <- app_assoc. reflexivity.
    + constructor; reflexivity.
Qed.

(** [getQuotes] never rejects: it draws, awaits the two timers of the
    venues, and resolves. *)
Lemma getQuotes_resolves (f t : string) (a : float) (w : World) :
  exists q ms_r ms_m,
    fst (DexRouterService.getQuotes f t a w) = Ok q
    /\ Ext w (snd (DexRouterService.getQuotes f t a w)) [EDelay ms_r; EDelay ms_m].
Proof.
  unfold DexRouterService.getQuotes, Promise_all,
    DexRouterService.fetchRaydiumQuote, DexRouterService.fetchMeteoraQuote,
    DexRouterService.fetchQuote, upto_await, from_await, Math_random,
    Date_now, advance, effect, log, bind, gets, modify, ret.
  cbn [fst snd].
  match goal with
  | |- context [if ?b then _ else _] => destruct b
  end; eexists _, _, _; (split; [reflexivity|]); split; cbn;
    try reflexivity; try tauto; rewrite <- app_assoc; reflexivity.
Qed.

Lemma buildTransaction_run (order : Order.t) (quote : DexQuote.t) (w : World) :
  buildTransaction order quote w =
  let w1 :=
    set_clock (fun c => (c + 500)%Z)
      (set_trace (fun t => t ++ [EDelay 500]) w) in
  if js_gt (DexQuote.priceImpact quote) (Order.slippageTolerance order)
  then
    (Throw {| message :=
                "Price impact "
                +:+ numberToString (env w) (DexQuote.priceImpact quote)
                +:+ " exceeds max slippage "
                +:+ numberToString (env w) (Order.slippageTolerance order) |},
     w1)
  else
    (Ok {| Transaction.dex := DexQuote.dex quote;
           Transaction.fromToken := Order.fromToken order;
           Transaction.toToken := Order.toToken order;
           Transaction.amount := Order.amount order;
           Transaction.expectedOutput := DexQuote.outputAmount quote;
           Transaction.slippage := Order.slippageTolerance order;
           Transaction.timestamp := (clock w + 500)%Z |},
     w1).
Proof.
  unfold buildTransaction.
  destruct (js_gt (DexQuote.priceImpact quote) (Order.slippageTolerance order));
    reflexivity.
Qed.

Lemma submitTransaction_run (t : Transaction.t) (order : Order.t)
    (quote : DexQuote.t) (w : World) :
  submitTransaction t order quote w =
  let ms := timeout (mockExecutionDelay (config (env w))) in
  let w1 :=
    set_randomCalls S
      (set_clock (fun c => (c + ms)%Z)
         (set_trace (fun t => t ++ [EDelay ms]) w)) in
  if js_lt (random (env w) (randomCalls w)) 0x1.999999999999ap-5%float
  then (Throw {| message := "Network error: Transaction failed to submit" |}, w1)
  else
    (Ok (removeDashes (uuid (env w) (uuidCalls w))),
     set_logs (fun l => l ++ [(Info, "Transaction submitted successfully")])
       (set_uuidCalls S w1)).
Proof.
  unfold submitTransaction, delay, advance, effect, Math_random, randomUUID,
    bind, modify, gets, throw, ret, log. cbv beta iota zeta.
  cbn [env randomCalls set_trace set_clock set_randomCalls].
  destruct (js_lt (random (env w) (randomCalls w)) _); reflexivity.
Qed.

Lemma getQuotes_wp {A} (f t : string) (a : float)
    (k : DexQuote.t * DexQuote.t -> M A) (Q : Outcome A -> World -> Prop)
    (w : World) :
  (forall q ms_r ms_m w1, Ext w w1 [EDelay ms_r; EDelay ms_m] -> wp (k q) Q w1) ->
  wp (bind (DexRouterService.getQuotes f t a) k) Q w.
Proof.
  intros Hgo. unfold wp.
  destruct (getQuotes_resolves f t a w) as (q & ms_r & ms_m & Hr & E).
  rewrite (bind_fst_ok _ k w q Hr). exact (Hgo q ms_r ms_m _ E).
Qed.

Lemma validateQuotes_wp {A} (r m : DexQuote.t) (k : bool -> M A)
    (Q : Outcome A -> World -> Prop) (w : World) :
  (forall w1, Ext w w1 [] -> wp (k true) Q w1) ->
  wp (bind (DexRouterService.validateQuotes r m) k) Q w.
Proof.
  intros Hgo. unfold wp. rewrite (bind_ok _ _ _ _ _ (validateQuotes_run r m w)).
  apply Hgo. destruct (js_gt _ _); [ext_tac|apply Ext_refl].
Qed.

Lemma selectBestDex_wp {A} (r m : DexQuote.t) (k : DexQuote.t -> M A)
    (Q : Outcome A -> World -> Prop) (w : World) :
  (forall w1, Ext w w1 [] ->
     wp (k (if js_gt (DexQuote.outputAmount r) (DexQuote.outputAmount m)
            then r else m)) Q w1) ->
  wp (bind (DexRouterService.selectBestDex r m) k) Q w.
Proof.
  intros Hgo. unfold wp. rewrite (bind_ok _ _ _ _ _ (selectBestDex_run r m w)).
  apply Hgo. ext_tac.
Qed.

Lemma buildTransaction_wp {A} (order : Order.t) (quote : DexQuote.t)
    (k : Transaction.t -> M A) (Q : Outcome A -> World -> Prop) (w : World) :
  (forall e w1, Ext w w1 [EDelay 500] -> Q (Throw e) w1) ->
  (forall t w1, Ext w w1 [EDelay 500] -> wp (k t) Q w1) ->
  wp (bind (buildTransaction order quote) k) Q w.
Proof.
  intros Hth Hgo. unfold wp, bind. rewrite buildTransaction_run. cbv zeta.
  destruct (js_gt _ _).
  - apply Hth. ext_tac.
  - apply Hgo. ext_tac.
Qed.

Lemma submitTransaction_wp {A} (t : Transaction.t) (order : Order.t)
    (quote : DexQuote.t) (k : string -> M A) (Q : Outcome A -> World -> Prop)
    (w : World) :
  (forall e ms w1, Ext w w1 [EDelay ms] -> Q (Throw e) w1) ->
  (forall h ms w1, Ext w w1 [EDelay ms] -> wp (k h) Q w1) ->
  wp (bind (submitTransaction t order quote) k) Q w.
Proof.
  intros Hth Hgo. unfold wp, bind. rewrite submitTransaction_run. cbv zeta.
  destruct (js_lt _ _).
  - eapply Hth. ext_tac.
  - eapply Hgo. ext_tac.
Qed.

Lemma Progress_start (w : World) : Progress w w [] [].
Proof. split; [apply Ext_refl|reflexivity..]. Qed.

Lemma Progress_transition (orderId : string) (s : OrderStatus)
    (w w1 w2 : World) (l blk : list Effect) (p : list Mark) :
  Progress w w1 l p -> Ext w1 w2 blk -> Transition orderId s blk ->
  Progress w w2 (l ++ blk) (p ++ transition orderId s).
Proof.
  intros [E P R C] E2 T. split.
  - exact (Ext_trans _ _ _ _ _ E E2).
  - rewrite marks_app, P, (Transition_marks _ _ _ T). reflexivity.
  - rewrite rejections_app, R, (Transition_rejections _ _ _ T). reflexivity.
  - rewrite cache_rejections_app, C, (Transition_cache _ _ _ T). reflexivity.
Qed.

Lemma Progress_quiet (w w1 w2 : World) (l : list Effect) (p : list Mark) :
  Progress w w1 l p -> Ext w1 w2 [] -> Progress w w2 l p.
Proof.
  intros [E P R C] E2. split; try assumption.
  rewrite <- (app_nil_r l). exact (Ext_trans _ _ _ _ _ E E2).
Qed.

Lemma Progress_delay (w w1 w2 : World) (l : list Effect) (p : list Mark)
    (ms : Z) :
  Progress w w1 l p -> Ext w1 w2 [EDelay ms] ->
  Progress w w2 (l ++ [EDelay ms]) (p ++ [Waited]).
Proof.
  intros [E P R C] E2. split.
  - exact (Ext_trans _ _ _ _ _ E E2).
  - rewrite marks_app, P. reflexivity.
  - rewrite rejections_app, R. reflexivity.
  - rewrite cache_rejections_app, C. reflexivity.
Qed.

Lemma Progress_delays (w w1 w2 : World) (l : list Effect) (p : list Mark)
    (ms ms' : Z) :
  Progress w w1 l p -> Ext w1 w2 [EDelay ms; EDelay ms'] ->
  Progress w w2 (l ++ [EDelay ms; EDelay ms']) (p ++ [Waited; Waited]).
Proof.
  intros [E P R C] E2. split.
  - exact (Ext_trans _ _ _ _ _ E E2).
  - rewrite marks_app, P. reflexivity.
  - rewrite rejections_app, R. reflexivity.
  - rewrite cache_rejections_app, C. reflexivity.
Qed.

Lemma Attempt_ok (orderId : string) (w w' : World) (l : list Effect)
    (p : list Mark) :
  Progress w w' l p -> p = done orderId 5 -> Attempt orderId w (Ok tt) w'.
Proof.
  intros [E P R C] ->. exists l, (5, Completed).
  split; [exact E|]. split; [rewrite P; symmetry; apply app_nil_r|].
  split; [reflexivity|]. split; [left; split; reflexivity|].
  split; intros _; assumption.
Qed.

Lemma Attempt_threw (j : nat) (orderId : string) (w w' : World)
    (l : list Effect) (p : list Mark) (e : JsError) :
  Progress w w' l p -> p = done orderId j -> j = 3 \/ j = 4 ->
  Attempt orderId w (Throw e) w'.
Proof.
  intros [E P R C] -> Hj. exists l, (j, StageThrew).
  split; [exact E|]. split; [rewrite P; symmetry; apply app_nil_r|].
  split; [destruct Hj as [-> | ->]; reflexivity|].
  split; [right; exists e; split; [reflexivity|discriminate]|].
  split; intros _; assumption.
Qed.

Lemma Attempt_refused (j : nat) (orderId : string) (w w1 w' : World)
    (l : list Effect) (p : list Mark) (e : JsError) :
  Progress w w1 l p -> p = done orderId j -> j < 5 ->
  Ext w1 w' [EStoreReject orderId e] -> ~ healthy orderId w1 ->
  Attempt orderId w (Throw e) w'.
Proof.
  intros [E P R C] -> Hj E2 Hn.
  exists (l ++ [EStoreReject orderId e]), (j, WriteRefused).
  split; [exact (Ext_trans _ _ _ _ _ E E2)|].
  split; [rewrite marks_app, P; reflexivity|].
  split; [apply Nat.ltb_lt, Hj|].
  split; [right; exists e; split; [reflexivity|discriminate]|].
  split.
  - intros Hh. exfalso. exact (Hn (healthy_ext _ _ _ _ E Hh)).
  - intros _. rewrite cache_rejections_app, C. reflexivity.
Qed.

Lemma Attempt_uncached (j : nat) (s : OrderStatus) (orderId : string)
    (w w1 w' : World) (l : list Effect) (p : list Mark) (e : JsError)
    (d : UpdateData.t) (key : string) :
  Progress w w1 l p -> p = done orderId j -> pipeline !! j = Some s ->
  Ext w1 w' [EStoreUpdate orderId d; ECacheReject key e] ->
  UpdateData.status d = Some (db_value s) -> ~ redis_answers w1 ->
  Attempt orderId w (Throw e) w'.
Proof.
  intros [E P R C] -> Hs E2 Hd Hn.
  exists (l ++ [EStoreUpdate orderId d; ECacheReject key e]), (j, CacheRefused).
  split; [exact (Ext_trans _ _ _ _ _ E E2)|].
  split.
  { rewrite marks_app, P. unfold attempt_marks, ending. cbn [fst snd].
    rewrite Hs. cbn. rewrite Hd. reflexivity. }
  split; [apply Nat.ltb_lt; apply lookup_lt_Some in Hs; exact Hs|].
  split; [right; exists e; split; [reflexivity|discriminate]|].
  split.
  - intros _. rewrite rejections_app, R. reflexivity.
  - intros Hh. exfalso. exact (Hn (redis_answers_ext _ _ _ E Hh)).
Qed.

(** One attempt, whatever the draws, the database and the cache do. *)
Lemma executeMarketOrder_try_spec (order : Order.t) (w : World) :
  wp (executeMarketOrder_try order) (Attempt (Order.id order) w) w.
Proof.
  unfold executeMarketOrder_try. cbv zeta.
  pose proof (Progress_start w) as P0.
  apply transition_wp;
    [intros e w1 E Hn;
     exact (Attempt_refused 0 _ _ _ _ _ _ _ P0 eq_refl ltac:(lia) E Hn)
    |intros e w1 d key E Hd Hn;
     exact (Attempt_uncached 0 ROUTING _ _ _ _ _ _ _ _ _ P0 eq_refl eq_refl E Hd Hn)
    |].
  intros w1 b1 E1 T1. pose proof (Progress_transition _ _ _ _ _ _ _ _ P0 E1 T1) as P1.
  apply getQuotes_wp. intros q ms_r ms_m w2 E2.
  pose proof (Progress_delays _ _ _ _ _ _ _ P1 E2) as P2.
  apply validateQuotes_wp. intros w3 E3.
  pose proof (Progress_quiet _ _ _ _ _ P2 E3) as P3.
  apply selectBestDex_wp. intros w4 E4.
  pose proof (Progress_quiet _ _ _ _ _ P3 E4) as P4.
  apply transition_wp;
    [intros e w5 E5 Hn;
     exact (Attempt_refused 1 _ _ _ _ _ _ _ P4 eq_refl ltac:(lia) E5 Hn)
    |intros e w5 d key E5 Hd Hn;
     exact (Attempt_uncached 1 ROUTING _ _ _ _ _ _ _ _ _ P4 eq_refl eq_refl E5 Hd Hn)
    |].
  intros w5 b5 E5 T5. pose proof (Progress_transition _ _ _ _ _ _ _ _ P4 E5 T5) as P5.
  apply transition_wp;
    [intros e w6 E6 Hn;
     exact (Attempt_refused 2 _ _ _ _ _ _ _ P5 eq_refl ltac:(lia) E6 Hn)
    |intros e w6 d key E6 Hd Hn;
     exact (Attempt_uncached 2 BUILDING _ _ _ _ _ _ _ _ _ P5 eq_refl eq_refl E6 Hd Hn)
    |].
  intros w6 b6 E6 T6. pose proof (Progress_transition _ _ _ _ _ _ _ _ P5 E6 T6) as P6.
  apply buildTransaction_wp;
    [intros e w7 E7;
     exact (Attempt_threw 3 _ _ _ _ _ _ (Progress_delay _ _ _ _ _ _ P6 E7)
              eq_refl ltac:(tauto))|].
  intros t w7 E7. pose proof (Progress_delay _ _ _ _ _ _ P6 E7) as P7.
  apply transition_wp;
    [intros e w8 E8 Hn;
     exact (Attempt_refused 3 _ _ _ _ _ _ _ P7 eq_refl ltac:(lia) E8 Hn)
    |intros e w8 d key E8 Hd Hn;
     exact (Attempt_uncached 3 SUBMITTED _ _ _ _ _ _ _ _ _ P7 eq_refl eq_refl E8 Hd Hn)
    |].
  intros w8 b8 E8 T8. pose proof (Progress_transition _ _ _ _ _ _ _ _ P7 E8 T8) as P8.
  apply submitTransaction_wp;
    [intros e ms w9 E9;
     exact (Attempt_threw 4 _ _ _ _ _ _ (Progress_delay _ _ _ _ _ _ P8 E9)
              eq_refl ltac:(tauto))|].
  intros h ms w9 E9. pose proof (Progress_delay _ _ _ _ _ _ P8 E9) as P9.
  apply transition_wp;
    [intros e w10 E10 Hn;
     exact (Attempt_refused 4 _ _ _ _ _ _ _ P9 eq_refl ltac:(lia) E10 Hn)
    |intros e w10 d key E10 Hd Hn;
     exact (Attempt_uncached 4 CONFIRMED _ _ _ _ _ _ _ _ _ P9 eq_refl eq_refl E10 Hd Hn)
    |].
  intros w10 b10 E10 T10.
  pose proof (Progress_transition _ _ _ _ _ _ _ _ P9 E10 T10) as P10.
  unfold wp. cbn [fst snd log modify].
  eapply Attempt_ok; [eapply Progress_quiet; [exact P10|ext_tac]|reflexivity].
Qed.

Lemma incrementRetryCount_run (orderId : string) (w : World) :
  incrementRetryCount orderId w =
  match prisma_order_update orderId retry_increment w with
  | (Ok o, w1) => (Ok (Order.retryCount o), w1)
  | (Throw e, w1) => (Throw e, w1)
  | (Cut, w1) => (Cut, w1)
  end.
Proof.
  unfold incrementRetryCount, bind.
  destruct (prisma_order_update _ _ w) as [[o|e|] w1]; reflexivity.
Qed.

(** The world in which the body of [executeMarketOrder] starts, and the
    worlds in which the two branches of its [catch] block start. *)
Lemma executeMarketOrder_eq (depth : nat) (order : Order.t) (n : nat) (w : World) :
  executeMarketOrder depth order n w =
  match executeMarketOrder_try order (entered w) with
  | (Throw error, w1) =>
      if (n <? maxRetries (config (env w1)))%nat
      then
        match incrementRetryCount (Order.id order) (retrying w1) with
        | (Ok _, w2) =>
            match depth with
            | O => (Cut, waited (timeout (backoff n)) w2)
            | S depth' =>
                executeMarketOrder depth' order (S n)
                  (waited (timeout (backoff n)) w2)
            end
        | (Throw e, w2) => (Throw e, w2)
        | (Cut, w2) => (Cut, w2)
        end
      else executeMarketOrder_fail order error (caught w1)
  | r => r
  end.
Proof.
  destruct depth; cbn [executeMarketOrder]; rewrite bind_log;
    fold (entered w); unfold try_catch;
    destruct (executeMarketOrder_try order (entered w)) as [[[]|e|] w1];
    try reflexivity;
    rewrite bind_log, bind_gets; fold (caught w1);
    change (env (caught w1)) with (env w1);
    destruct (n <? maxRetries (config (env w1)))%nat; try reflexivity;
    rewrite bind_log; fold (retrying w1); unfold bind at 1;
    destruct (incrementRetryCount (Order.id order) (retrying w1))
      as [[c|e'|] w2]; reflexivity.
Qed.

Lemma Ext_entered (w : World) : Ext w (entered w) [].
Proof. ext_tac. Qed.

Lemma healthy_entered (orderId : string) (w : World) :
  healthy orderId w -> healthy orderId (entered w).
Proof. exact (healthy_ext _ _ _ _ (Ext_entered w)). Qed.

Lemma redis_answers_entered (w : World) :
  redis_answers w -> redis_answers (entered w).
Proof. exact (redis_answers_ext _ _ _ (Ext_entered w)). Qed.

Lemma Attempt_failed (orderId : string) (w w1 : World) (e : JsError) :
  Attempt orderId w (Throw e) w1 ->
  exists (l : list Effect) (a : nat * End),
    Ext w w1 l /\ marks l = attempt_marks orderId a /\ failed a
    /\ (healthy orderId w -> rejections l = [])
    /\ (redis_answers w -> cache_rejections l = []).
Proof.
  intros (l & a & E & P & Hp & [(Hr & _)|(e0 & _ & Ha)] & R & C);
    [discriminate Hr|].
  exists l, a. exact (conj E (conj P (conj (conj Hp Ha) (conj R C)))).
Qed.

(** The attempt succeeds. *)
Lemma Run_confirmed (orderId : string) (budget depth : nat) (w w1 : World) :
  Attempt orderId (entered w) (Ok tt) w1 ->
  Run orderId budget depth w (Ok tt) w1.
Proof.
  intros (l & [j en] & E & P & Hp & [(_ & Ha)|(e & He & _)] & R & C);
    [|discriminate He].
  cbn in Ha. subst en. apply Nat.eqb_eq in Hp. cbn in Hp. subst j.
  exists l, [], Confirmed.
  split; [exact (Ext_trans _ _ _ _ _ (Ext_entered w) E)|].
  split; [rewrite P; apply app_nil_r|].
  split; [constructor|]. split; [cbn; lia|]. split; [reflexivity|].
  split; intros H; [apply R, healthy_entered, H|apply C, redis_answers_entered, H].
Qed.

(** The attempt fails and the store rejects the call of the handler. *)
Lemma Run_rejected (orderId : string) (budget depth : nat) (w w1 w2 : World)
    (e e' : JsError) :
  Attempt orderId (entered w) (Throw e) w1 ->
  Ext w1 w2 [EStoreReject orderId e'] -> ~ healthy orderId w1 ->
  Run orderId budget depth w (Throw e') w2.
Proof.
  intros A E2 Hn. destruct (Attempt_failed _ _ _ _ A) as (l & a & E & P & Hf & R & C).
  exists (l ++ [EStoreReject orderId e']), [], (HandlerRefused a).
  split; [exact (Ext_trans _ _ _ _ _ (Ext_entered w)
                   (Ext_trans _ _ _ _ _ E E2))|].
  split; [rewrite marks_app, P; reflexivity|].
  split; [constructor|]. split; [cbn; lia|].
  split; [split; [exact Hf|exists e'; split; [reflexivity|apply last_snoc]]|].
  split.
  - intros Hh. exfalso. apply Hn.
    exact (healthy_ext _ _ _ _ E (healthy_entered _ _ Hh)).
  - intros Hc. rewrite cache_rejections_app, (C (redis_answers_entered _ Hc)).
    reflexivity.
Qed.

(** The last permitted attempt fails, [FAILED] is written, and the cache
    write that follows is rejected. *)
Lemma Run_uncached (orderId : string) (depth : nat) (w w1 w2 : World)
    (e e' : JsError) (d : UpdateData.t) (key : string) :
  Attempt orderId (entered w) (Throw e) w1 ->
  Ext w1 w2 [EStoreUpdate orderId d; ECacheReject key e'] ->
  UpdateData.status d = Some (db_value FAILED) -> ~ redis_answers w1 ->
  Run orderId 0 depth w (Throw e') w2.
Proof.
  intros A E2 Hd Hn.
  destruct (Attempt_failed _ _ _ _ A) as (l & a & E & P & Hf & R & C).
  exists (l ++ [EStoreUpdate orderId d; ECacheReject key e']), [],
    (HandlerUncached a).
  split; [exact (Ext_trans _ _ _ _ _ (Ext_entered w)
                   (Ext_trans _ _ _ _ _ E E2))|].
  split; [rewrite marks_app, P; cbn; rewrite Hd; reflexivity|].
  split; [constructor|]. split; [cbn; lia|].
  split.
  { split; [exact Hf|]. split; [reflexivity|]. exists e', key.
    split; [reflexivity|]. rewrite last_app. reflexivity. }
  split.
  - intros Hh. rewrite rejections_app, (R (healthy_entered _ _ Hh)).
    reflexivity.
  - intros Hc. exfalso. apply Hn.
    exact (redis_answers_ext _ _ _ E (redis_answers_entered _ Hc)).
Qed.

(** The attempt fails, the back-off is waited, and the unrolling stops. *)
Lemma Run_cut (orderId : string) (budget : nat) (w w1 w3 : World)
    (e : JsError) (ms : Z) :
  Attempt orderId (entered w) (Throw e) w1 ->
  Ext w1 w3 [EStoreUpdate orderId retry_increment; EDelay ms] ->
  0 < budget ->
  Run orderId budget 0 w Cut w3.
Proof.
  intros A E2 Hb.
  destruct (Attempt_failed _ _ _ _ A) as (l & a & E & P & Hf & R & C).
  exists (l ++ [EStoreUpdate orderId retry_increment; EDelay ms]), [a], Unrolled.
  split; [exact (Ext_trans _ _ _ _ _ (Ext_entered w)
                   (Ext_trans _ _ _ _ _ E E2))|].
  split.
  { rewrite marks_app, P. unfold run_marks. cbn. rewrite !app_nil_r.
    reflexivity. }
  split; [constructor; [exact Hf|constructor]|]. split; [cbn; lia|].
  split; [split; reflexivity|].
  split.
  - intros Hh. rewrite rejections_app, (R (healthy_entered _ _ Hh)).
    reflexivity.
  - intros Hc. rewrite cache_rejections_app, (C (redis_answers_entered _ Hc)).
    reflexivity.
Qed.

(** The attempt fails, the back-off is waited, and the pipeline runs
    again. *)
Lemma Run_retry (orderId : string) (budget depth : nat) (w w1 w3 w' : World)
    (e : JsError) (ms : Z) (r : Outcome unit) :
  Attempt orderId (entered w) (Throw e) w1 ->
  Ext w1 w3 [EStoreUpdate orderId retry_increment; EDelay ms] ->
  Run orderId budget depth w3 r w' ->
  Run orderId (S budget) (S depth) w r w'.
Proof.
  intros A E2 (l' & fs & f & E' & P' & Hfs & Hlen & Hcase & R' & C').
  destruct (Attempt_failed _ _ _ _ A) as (l & a & E & P & Hf & R & C).
  pose proof (Ext_trans _ _ _ _ _ (Ext_entered w) (Ext_trans _ _ _ _ _ E E2))
    as E3. cbn [app] in E3.
  exists ((l ++ [EStoreUpdate orderId retry_increment; EDelay ms]) ++ l'),
    (a :: fs), f.
  split; [exact (Ext_trans _ _ _ _ _ E3 E')|].
  split.
  { rewrite !marks_app, P, P'. unfold run_marks. cbn [fmap list_fmap concat].
    rewrite <- !app_assoc. reflexivity. }
  split; [constructor; assumption|]. split; [cbn; lia|].
  split.
  { destruct f as [|b|b|b|]; cbn [length].
    - exact Hcase.
    - destruct Hcase as (H1 & H2 & H3). repeat split; [exact H1|apply H2..|lia].
    - destruct Hcase as (H1 & e' & H2 & H3). split; [exact H1|].
      exists e'. split; [exact H2|]. rewrite last_app, H3. reflexivity.
    - destruct Hcase as (H1 & H2 & e' & key & H3 & H4).
      split; [exact H1|]. split; [lia|]. exists e', key.
      split; [exact H3|]. rewrite last_app, H4. reflexivity.
    - destruct Hcase as (H1 & H2). split; [exact H1|lia]. }
  split.
  - intros Hh. pose proof (healthy_entered _ _ Hh) as Hh0.
    rewrite !rejections_app, (R Hh0). cbn.
    apply R'. exact (healthy_ext _ _ _ _ E3 Hh).
  - intros Hc. pose proof (redis_answers_entered _ Hc) as Hc0.
    rewrite !cache_rejections_app, (C Hc0). cbn.
    apply C'. exact (redis_answers_ext _ _ _ E3 Hc).
Qed.

(** The attempt fails with no retry left, and [FAILED] is written and
    published. *)
Lemma Run_failed (orderId : string) (depth : nat) (w w1 w2 : World)
    (e : JsError) (blk : list Effect) :
  Attempt orderId (entered w) (Throw e) w1 ->
  Ext w1 w2 blk -> Transition orderId FAILED blk ->
  Run orderId 0 depth w (Ok tt) w2.
Proof.
  intros A E2 T.
  destruct (Attempt_failed _ _ _ _ A) as (l & a & E & P & Hf & R & C).
  exists (l ++ blk), [], (Failed a).
  split; [exact (Ext_trans _ _ _ _ _ (Ext_entered w)
                   (Ext_trans _ _ _ _ _ E E2))|].
  split; [rewrite marks_app, P, (Transition_marks _ _ _ T); reflexivity|].
  split; [constructor|]. split; [cbn; lia|].
  split; [repeat split; apply Hf|].
  split.
  - intros Hh. rewrite rejections_app, (R (healthy_entered _ _ Hh)),
      (Transition_rejections _ _ _ T). reflexivity.
  - intros Hc. rewrite cache_rejections_app, (C (redis_answers_entered _ Hc)),
      (Transition_cache _ _ _ T). reflexivity.
Qed.

Lemma Ext_caught (w w2 : World) (l : list Effect) :
  Ext (caught w) w2 l -> Ext w w2 l.
Proof. intros E. exact (Ext_trans w (caught w) w2 [] l ltac:(ext_tac) E). Qed.

Lemma Ext_retrying (w w2 : World) (l : list Effect) :
  Ext (retrying w) w2 l -> Ext w w2 l.
Proof. intros E. exact (Ext_trans w (retrying w) w2 [] l ltac:(ext_tac) E). Qed.

Lemma Run_fail_branch (order : Order.t) (depth : nat) (w w1 : World)
    (e : JsError) :
  Attempt (Order.id order) (entered w) (Throw e) w1 ->
  Run (Order.id order) 0 depth w
    (fst (executeMarketOrder_fail order e (caught w1)))
    (snd (executeMarketOrder_fail order e (caught w1))).
Proof.
  intros A.
  change (wp (executeMarketOrder_fail order e)
            (Run (Order.id order) 0 depth w) (caught w1)).
  unfold executeMarketOrder_fail. cbv zeta. apply transition_wp.
  - intros e' w2 E2 Hn.
    apply (Run_rejected _ _ _ _ _ _ _ _ A (Ext_caught _ _ _ E2)).
    intros Hh. apply Hn. revert Hh. apply healthy_ext with (l := []). ext_tac.
  - intros e' w2 d key E2 Hd Hn.
    apply (Run_uncached _ _ _ _ _ _ _ _ _ A (Ext_caught _ _ _ E2) Hd).
    intros Hh. apply Hn. revert Hh. apply redis_answers_ext with (l := []).
    ext_tac.
  - intros w2 blk E2 T. unfold wp. cbn [fst snd log modify].
    apply (Run_failed _ _ _ _ _ _ blk A); [|exact T].
    rewrite <- (app_nil_r blk).
    apply (Ext_trans _ _ _ _ _ (Ext_caught _ _ _ E2)). ext_tac.
Qed.

Lemma incrementRetryCount_cases (orderId : string) (w1 : World) :
  (exists e' w2,
     incrementRetryCount orderId (retrying w1) = (Throw e', w2)
     /\ Ext w1 w2 [EStoreReject orderId e'] /\ ~ healthy orderId w1)
  \/ (exists c w2,
        incrementRetryCount orderId (retrying w1) = (Ok c, w2)
        /\ forall ms,
             Ext w1 (waited ms w2) [EStoreUpdate orderId retry_increment; EDelay ms]).
Proof.
  rewrite incrementRetryCount_run, prisma_order_update_run.
  change (env (retrying w1)) with (env w1).
  change (storeCalls (retrying w1)) with (storeCalls w1).
  change (db (retrying w1)) with (db w1).
  destruct (store_rejects (env w1) (storeCalls w1)) as [e'|] eqn:Ha;
    [|destruct (db w1 !! orderId) as [o|] eqn:Hrow].
  - left. eexists _, _. split; [reflexivity|]. split.
    + apply Ext_retrying. ext_tac.
    + intros [H1 _]. congruence.
  - right. eexists _, _. split; [reflexivity|]. intros ms.
    apply Ext_retrying.
    split; cbn; [reflexivity| |rewrite <- app_assoc; reflexivity].
    apply (insert_keeps_rows _ _ _ _ Hrow).
  - left. eexists _, _. split; [reflexivity|]. split.
    + apply Ext_retrying. ext_tac.
    + intros [_ [o' H2]]. congruence.
Qed.

(** Every run of [executeMarketOrder], whatever the draws, the database
    and the cache do. *)
Lemma executeMarketOrder_spec (depth : nat) :
  forall (order : Order.t) (n : nat) (w : World),
    Run (Order.id order) (maxRetries (config (env w)) - n) depth w
      (fst (executeMarketOrder depth order n w))
      (snd (executeMarketOrder depth order n w)).
Proof.
  induction depth as [|d IH]; intros order n w;
    rewrite executeMarketOrder_eq;
    pose proof (executeMarketOrder_try_spec order (entered w)) as A;
    unfold wp in A;
    destruct (executeMarketOrder_try order (entered w)) as [[[]|e|] w1];
    cbn [fst snd] in A;
    try (apply Run_confirmed; exact A);
    try (exfalso; destruct A as (l & k & _ & _ & _ & [(H & _)|(e & H & _)] & _);
         discriminate H).
  all: assert (Henv : env w1 = env w)
         by (destruct A as (l & k & [He _ _] & _); exact He);
       rewrite Henv;
       destruct (n <? maxRetries (config (env w)))%nat eqn:Hlt;
       [apply Nat.ltb_lt in Hlt
       |apply Nat.ltb_ge in Hlt;
        replace (maxRetries (config (env w)) - n) with 0 by lia;
        apply Run_fail_branch; exact A].
  all: destruct (incrementRetryCount_cases (Order.id order) w1)
         as [(e' & w2 & -> & E2 & Hn)|(c & w2 & -> & E2)];
       [exact (Run_rejected _ _ _ _ _ _ _ _ A E2 Hn)|];
       replace (maxRetries (config (env w)) - n)
         with (S (maxRetries (config (env w)) - S n)) by lia.
  - apply (Run_cut _ _ _ _ _ _ (timeout (backoff n)) A (E2 _)). lia.
  - pose proof (IH order (S n) (waited (timeout (backoff n)) w2)) as R.
    destruct (E2 (timeout (backoff n))) as [He _ _]. rewrite He, Henv in R.
    exact (Run_retry _ _ _ _ _ _ _ _ _ _ A (E2 _) R).
Qed.

(** ** The steps of attempts and runs *)

Ltac possible_cases a Hp :=
  let j := fresh "j" in
  let en := fresh "en" in
  destruct a as [j en]; destruct en; cbn [possible fst snd] in Hp;
  do 6 (try (destruct j as [|j]; try discriminate Hp)).

Ltac crunch :=
  repeat (cbn; rewrite ?String.eqb_refl); try reflexivity.

Lemma written_attempt (orderId : string) (a : nat * End) :
  possible a = true ->
  written orderId (attempt_marks orderId a)
  = db_value <$> take (writes a) pipeline.
Proof. intros Hp. possible_cases a Hp; crunch. Qed.

Lemma told_attempt (orderId : string) (a : nat * End) :
  possible a = true ->
  told orderId (attempt_marks orderId a) = take (fst a) pipeline.
Proof. intros Hp. possible_cases a Hp; crunch. Qed.

Lemma paired_attempt (orderId : string) (a : nat * End) :
  possible a = true -> paired (attempt_marks orderId a) = true.
Proof. intros Hp. possible_cases a Hp; crunch. Qed.


Lemma attempt_uncached (orderId : string) (a : nat * End) :
  possible a = true -> snd a = CacheRefused ->
  Uncached ∈ attempt_marks orderId a.
Proof.
  intros Hp Hc. possible_cases a Hp; try discriminate Hc;
    unfold attempt_marks; apply elem_of_app; right; cbn; right; left.
Qed.

Lemma attempt_head (orderId : string) (a : nat * End) (q : list Mark) :
  possible a = true -> snd a <> StageThrew \/ 0 < fst a ->
  match attempt_marks orderId a ++ q with
  | Wrote k s :: _ => k = orderId /\ s = Some (db_value ROUTING)
  | Refused k :: _ => k = orderId
  | _ => False
  end.
Proof.
  intros Hp Hs. possible_cases a Hp; cbn; try (split; reflexivity);
    try reflexivity.
Qed.

Lemma paired_app (p q : list Mark) :
  paired p = true -> paired q = true -> paired (p ++ q) = true.
Proof.
  intros H1 H2. remember (length p) as n eqn:Hn.
  revert p Hn H1. induction n as [n IH] using lt_wf_ind.
  intros [|x p] Hn H1; [exact H2|].
  destruct x as [id [s|]|id| |id st|]; cbn in *;
    try discriminate H1;
    try (apply (IH (length p)); [lia|reflexivity|exact H1]).
  destruct p as [|[| | |id' st|] p]; try discriminate H1; cbn in *.
  - apply (IH (length p)); [lia|reflexivity|exact H1].
  - apply andb_prop in H1 as [Hc H1]. rewrite Hc. cbn.
    apply (IH (length p)); [lia|reflexivity|exact H1].
Qed.

(** The discipline, read position by position. *)
Lemma paired_positions (p : list Mark) :
  paired p = true ->
  (forall i id s,
     p !! i = Some (Wrote id (Some s)) ->
     (exists st, p !! S i = Some (Told id st) /\ db_value st = s)
     \/ p !! S i = Some Uncached)
  /\ (forall i id st,
        p !! i = Some (Told id st) ->
        exists j, i = S j /\ p !! j = Some (Wrote id (Some (db_value st))))
  /\ (forall i,
        p !! i = Some Uncached ->
        exists j id s, i = S j /\ p !! j = Some (Wrote id (Some s))).
Proof.
  remember (length p) as n eqn:Hn. revert p Hn.
  induction n as [n IH] using lt_wf_ind. intros [|x p] Hn H.
  { repeat split; intros; discriminate. }
  assert (Hskip : paired p = true ->
            (forall id s, x <> Wrote id (Some s)) ->
            (forall id st, x <> Told id st) -> x <> Uncached ->
            (forall i id s,
               (x :: p) !! i = Some (Wrote id (Some s)) ->
               (exists st, (x :: p) !! S i = Some (Told id st) /\ db_value st = s)
               \/ (x :: p) !! S i = Some Uncached)
            /\ (forall i id st,
                  (x :: p) !! i = Some (Told id st) ->
                  exists j, i = S j
                            /\ (x :: p) !! j = Some (Wrote id (Some (db_value st))))
            /\ (forall i,
                  (x :: p) !! i = Some Uncached ->
                  exists j id s, i = S j
                                 /\ (x :: p) !! j = Some (Wrote id (Some s)))).
  { intros Hp Hx1 Hx2 Hx3.
    destruct (IH (length p) ltac:(subst n; cbn; lia) p eq_refl Hp)
      as (IH1 & IH2 & IH3).
    split; [|split].
    - intros [|i] id s Hi; cbn in Hi.
      + injection Hi as ->. exfalso. exact (Hx1 id s eq_refl).
      + exact (IH1 i id s Hi).
    - intros [|i] id st Hi; cbn in Hi.
      + injection Hi as ->. exfalso. exact (Hx2 id st eq_refl).
      + destruct (IH2 i id st Hi) as (j & -> & Hj). exists (S j).
        split; [reflexivity|exact Hj].
    - intros [|i] Hi; cbn in Hi.
      + injection Hi as ->. exfalso. exact (Hx3 eq_refl).
      + destruct (IH3 i Hi) as (j & id & s & -> & Hj). exists (S j), id, s.
        split; [reflexivity|exact Hj]. }
  destruct x as [id [s|]|id| |id st|]; cbn in H;
    try discriminate H;
    try (apply Hskip; [exact H|discriminate..]).
  destruct p as [|[| | |id' st|] p]; try discriminate H.
  - destruct (IH (length p) ltac:(subst n; cbn; lia) p eq_refl H)
      as (IH1 & IH2 & IH3).
    split; [|split].
    + intros [|[|i]] id0 s0 Hi; cbn in Hi.
      * injection Hi as <- <-. right. reflexivity.
      * discriminate Hi.
      * exact (IH1 i id0 s0 Hi).
    + intros [|[|i]] id0 st0 Hi; cbn in Hi; try discriminate Hi.
      destruct (IH2 i id0 st0 Hi) as (j & -> & Hj). exists (S (S j)).
      split; [reflexivity|exact Hj].
    + intros [|[|i]] Hi; cbn in Hi; try discriminate Hi.
      * exists 0, id, s. split; reflexivity.
      * destruct (IH3 i Hi) as (j & id0 & s0 & -> & Hj).
        exists (S (S j)), id0, s0. split; [reflexivity|exact Hj].
  - apply andb_prop in H as [Hc H]. apply andb_prop in Hc as [Hc1 Hc2].
    apply String.eqb_eq in Hc1, Hc2. subst id' s.
    destruct (IH (length p) ltac:(subst n; cbn; lia) p eq_refl H)
      as (IH1 & IH2 & IH3).
    split; [|split].
    + intros [|[|i]] id0 s0 Hi; cbn in Hi.
      * injection Hi as <- <-. left. exists st. split; reflexivity.
      * discriminate Hi.
      * exact (IH1 i id0 s0 Hi).
    + intros [|[|i]] id0 st0 Hi; cbn in Hi; try discriminate Hi.
      * injection Hi as <- <-. exists 0. split; reflexivity.
      * destruct (IH2 i id0 st0 Hi) as (j & -> & Hj). exists (S (S j)).
        split; [reflexivity|exact Hj].
    + intros [|[|i]] Hi; cbn in Hi; try discriminate Hi.
      destruct (IH3 i Hi) as (j & id0 & s0 & -> & Hj).
      exists (S (S j)), id0, s0. split; [reflexivity|exact Hj].
Qed.

Lemma finish_failed (fs : list (nat * End)) (f : Finish) :
  Forall failed fs ->
  match f with
  | Failed a => failed a
  | HandlerRefused a => failed a
  | HandlerUncached a => failed a
  | _ => True
  end ->
  Forall failed (failures fs f).
Proof.
  intros Hfs Hf. apply Forall_app. split; [exact Hfs|].
  destruct f; try constructor; try exact Hf; constructor.
Qed.

Lemma run_written (orderId : string) (fs : list (nat * End)) (f : Finish) :
  Forall failed (failures fs f) ->
  written orderId (run_marks orderId fs f)
  = db_value <$> (concat ((fun a => take (writes a) pipeline) <$> failures fs f)
                  ++ final_statuses f).
Proof.
  unfold run_marks, failures. intros H. apply Forall_app in H as [Hfs Hf].
  rewrite written_app, (fmap_app (fun a => take (writes a) pipeline)),
    concat_app, !fmap_app, <- app_assoc.
  f_equal.
  - induction Hfs as [|a fs [Ha _] _ IH]; [reflexivity|].
    cbn [fmap list_fmap concat]. rewrite !written_app, IH, fmap_app.
    rewrite (written_attempt _ _ Ha). cbn. rewrite app_nil_r. reflexivity.
  - destruct f as [|a|a|a|]; try (inversion Hf as [|? ? [Ha _] _]; subst);
      cbn [finish_marks final_statuses fmap list_fmap concat];
      rewrite ?written_app, ?written_attempt by assumption; crunch.
    all: rewrite ?app_nil_r; try reflexivity.
    all: rewrite fmap_app; reflexivity.
Qed.

Lemma run_told (orderId : string) (fs : list (nat * End)) (f : Finish) :
  Forall failed (failures fs f) ->
  told orderId (run_marks orderId fs f)
  = concat ((fun a => take (fst a) pipeline) <$> failures fs f)
    ++ final_events f.
Proof.
  unfold run_marks, failures. intros H. apply Forall_app in H as [Hfs Hf].
  rewrite told_app, fmap_app, concat_app, <- app_assoc.
  f_equal.
  - induction Hfs as [|a fs [Ha _] _ IH]; [reflexivity|].
    cbn [fmap list_fmap concat]. rewrite !told_app, IH.
    rewrite (told_attempt _ _ Ha). cbn. rewrite app_nil_r. reflexivity.
  - destruct f as [|a|a|a|]; try (inversion Hf as [|? ? [Ha _] _]; subst);
      cbn [finish_marks final_events fmap list_fmap concat];
      rewrite ?told_app, ?told_attempt by assumption; crunch.
    all: rewrite ?app_nil_r; reflexivity.
Qed.

Lemma run_paired (orderId : string) (fs : list (nat * End)) (f : Finish) :
  Forall failed (failures fs f) -> paired (run_marks orderId fs f) = true.
Proof.
  unfold run_marks, failures. intros H. apply Forall_app in H as [Hfs Hf].
  apply paired_app.
  - induction Hfs as [|a fs [Ha _] _ IH]; [reflexivity|].
    cbn [fmap list_fmap concat]. apply paired_app; [|exact IH].
    apply paired_app; [apply paired_attempt, Ha|reflexivity].
  - destruct f as [|a|a|a|]; try (inversion Hf as [|? ? [Ha _] _]; subst);
      cbn [finish_marks]; try reflexivity.
    + crunch.
    + apply paired_app; [apply paired_attempt, Ha|crunch].
    + apply paired_app; [apply paired_attempt, Ha|crunch].
    + apply paired_app; [apply paired_attempt, Ha|crunch].
Qed.

(** When no Redis call was rejected, no attempt ended on a rejected cache
    write. *)
Lemma run_cached (orderId : string) (fs : list (nat * End)) (f : Finish) :
  Forall failed (failures fs f) ->
  Uncached ∉ run_marks orderId fs f ->
  Forall (fun a => snd a <> CacheRefused) (failures fs f)
  /\ (forall a, f <> HandlerUncached a).
Proof.
  unfold run_marks, failures. intros H Hn.
  apply Forall_app in H as [Hfs Hf].
  rewrite elem_of_app in Hn.
  split.
  - apply Forall_app. split.
    + induction Hfs as [|a fs [Ha _] _ IH]; [constructor|].
      cbn [fmap list_fmap concat] in Hn. constructor.
      * intros Hc. apply Hn. left. apply elem_of_app. left.
        apply elem_of_app. left. exact (attempt_uncached _ _ Ha Hc).
      * apply IH. intros [H|H]; apply Hn; [left|right; exact H].
        apply elem_of_app. right. exact H.
    + destruct f as [|a|a|a|]; try constructor; try constructor;
        inversion Hf as [|? ? [Ha _] _]; subst; intros Hc; apply Hn; right;
        cbn [finish_marks]; apply elem_of_app; left;
        exact (attempt_uncached _ _ Ha Hc).
  - intros a ->. apply Hn. right. cbn [finish_marks]. apply elem_of_app.
    right. right. left.
Qed.




(** ** The claims on the pipeline *)

Lemma run_statuses_agree (fs : list (nat * End)) (f : Finish) :
  Forall (fun a => snd a <> CacheRefused) (failures fs f) ->
  (forall a, f <> HandlerUncached a) ->
  concat ((fun a => take (writes a) pipeline) <$> failures fs f)
  ++ final_statuses f
  = concat ((fun a => take (fst a) pipeline) <$> failures fs f)
    ++ final_events f.
Proof.
  intros Hc Hf. f_equal.
  - f_equal. induction Hc as [|a l Ha _ IH]; [reflexivity|].
    cbn [fmap list_fmap]. rewrite IH. f_equal.
    unfold writes. destruct (snd a); try reflexivity. contradiction.
  - destruct f as [|a|a|a|]; try reflexivity. exfalso. exact (Hf a eq_refl).
Qed.

(** C8, as stated, fails when the Redis server does not answer: the store
    writes [ROUTING], the cache write that [updateOrderStatus] awaits next
    is rejected, and the attempt leaves its [try] block with the status
    written and no event published. *)
Lemma status_written_without_event :
  let w := start cache_down_env [sample_order] in
  let r := executeMarketOrder_try sample_order w in
  fst r = Throw redis_unreachable
  /\ Order.status <$> db (snd r) !! "order-1" = Some (db_value ROUTING)
  /\ trace (snd r)
     = [EStoreUpdate "order-1" (status_update 0 ROUTING None);
        ECacheReject "order:order-1" redis_unreachable]
  /\ persisted "order-1" (trace (snd r)) = [db_value ROUTING]
  /\ published "order-1" (trace (snd r)) = [].
Proof. vm_compute. repeat split. Qed.

(** C8 (amended): the steps of every run of [executeMarketOrder] are those
    of its attempts, in order.  An attempt goes through the stages one
    after the other; in each stage the status is written first, its event
    is published next, and only then is the work of the stage done (the
    timers of the two venues, of the build, of the submission).  An attempt
    is cut short only by a rejected write, by a cache write rejected right
    after the status was written, in which case no event of that status is
    published, or by the build or the submission throwing.  So every event
    directly follows the write of its status, and every write of a status
    is directly followed by its event or by the rejection of the cache
    write; when no Redis call was rejected, the statuses published are, in
    order, the statuses written. *)
Theorem persist_before_publish (depth : nat) (order : Order.t) (n : nat)
    (w : World) :
  let id := Order.id order in
  let r := fst (executeMarketOrder depth order n w) in
  let w' := snd (executeMarketOrder depth order n w) in
  let l := new_trace w w' in
  let first := executeMarketOrder_try order (entered w) in
  trace w' = trace w ++ l
  (* the steps of the run *)
  /\ (exists (fs : list (nat * End)) (f : Finish),
        marks l = run_marks id fs f
        /\ Forall failed (failures fs f)
        /\ match f with
           | Confirmed => r = Ok tt
           | Failed _ => r = Ok tt
           | HandlerRefused _ => exists e, r = Throw e
           | HandlerUncached _ => exists e, r = Throw e
           | Unrolled => r = Cut
           end)
  (* the steps of its first attempt *)
  /\ (exists a : nat * End,
        marks (new_trace (entered w) (snd first)) = attempt_marks id a
        /\ possible a = true
        /\ (fst first = Ok tt <-> snd a = Completed)
        /\ (healthy id w -> snd a <> WriteRefused)
        /\ (redis_answers w -> snd a <> CacheRefused))
  (* the steps of a complete attempt *)
  /\ attempt_marks id (5, Completed)
     = [Wrote id (Some "ROUTING"); Told id ROUTING; Waited; Waited;
        Wrote id (Some "ROUTING"); Told id ROUTING;
        Wrote id (Some "BUILDING"); Told id BUILDING; Waited;
        Wrote id (Some "SUBMITTED"); Told id SUBMITTED; Waited;
        Wrote id (Some "CONFIRMED"); Told id CONFIRMED]
  (* write, then event *)
  /\ (forall i k s,
        marks l !! i = Some (Wrote k (Some s)) ->
        (exists st, marks l !! S i = Some (Told k st) /\ db_value st = s)
        \/ marks l !! S i = Some Uncached)
  /\ (forall i k st,
        marks l !! i = Some (Told k st) ->
        exists j, i = S j /\ marks l !! j = Some (Wrote k (Some (db_value st))))
  /\ (cache_rejections l = [] ->
      persisted id l
      = (fun u => db_value (OrderStatusUpdate.status u)) <$> published id l).
Proof.
  cbv zeta.
  destruct (executeMarketOrder_spec depth order n w)
    as (l & fs & f & E & P & Hfs & Hlen & Hcase & R & C).
  rewrite (Ext_new_trace _ _ _ E).
  assert (Hall : Forall failed (failures fs f)).
  { apply finish_failed; [exact Hfs|]. destruct f; try exact I; apply Hcase. }
  pose proof (run_paired (Order.id order) fs f Hall) as Hp.
  rewrite <- P in Hp. destruct (paired_positions _ Hp) as (H1 & H2 & _).
  split; [apply E|]. split.
  { exists fs, f. split; [exact P|]. split; [exact Hall|].
    destruct f as [|a|a|a|].
    - exact Hcase.
    - apply Hcase.
    - destruct Hcase as (_ & e & He & _). exists e. exact He.
    - destruct Hcase as (_ & _ & e & key & He & _). exists e. exact He.
    - apply Hcase. }
  split.
  { pose proof (executeMarketOrder_try_spec order (entered w)) as A.
    unfold wp in A.
    destruct A as (l1 & a & E1 & P1 & Hp1 & Hr1 & R1 & C1).
    rewrite (Ext_new_trace _ _ _ E1). exists a.
    split; [exact P1|]. split; [exact Hp1|]. split.
    { destruct Hr1 as [(Hr & Ha)|(e & Hr & Ha)]; split; intros H;
        try assumption; try congruence. }
    split.
    - intros Hh Ha. pose proof (R1 (healthy_entered _ _ Hh)) as Hr.
      apply (proj1 (rejections_marks _) Hr (Order.id order)).
      rewrite P1. destruct a as [j en]. cbn in Ha. subst en.
      apply elem_of_app. right. left.
    - intros Hc Ha. pose proof (C1 (redis_answers_entered _ Hc)) as Hr.
      apply cache_rejections_marks in Hr. apply Hr. rewrite P1.
      exact (attempt_uncached _ _ Hp1 Ha). }
  split; [reflexivity|]. split; [exact H1|]. split; [exact H2|].
  intros Hc. apply cache_rejections_marks in Hc. rewrite P in Hc.
  destruct (run_cached _ _ _ Hall Hc) as [Hno Hf].
  rewrite persisted_marks, P, (run_written _ _ _ Hall),
    (run_statuses_agree _ _ Hno Hf), <- (run_told (Order.id order) _ _ Hall),
    <- P, <- published_marks, <- list_fmap_compose.
  reflexivity.
Qed.







Lemma processOrder_eq (depth : nat) (order : Order.t) (w : World) :
  OrderQueueService.processOrder depth order w =
  match executeMarketOrder depth order 0 (dequeued w) with
  | (Throw e, w1) =>
      (Throw e,
       set_logs (fun l => l ++ [(Error, "Order processing failed")]) w1)
  | r => r
  end.
Proof.
  unfold OrderQueueService.processOrder. rewrite bind_log. fold (dequeued w).
  unfold try_catch.
  destruct (executeMarketOrder depth order 0 (dequeued w)) as [[[]|e|] w1];
    reflexivity.
Qed.





Lemma backoff_values :
  backoff 0 = 1000%Z /\ backoff 1 = 2000%Z /\ backoff 2 = 4000%Z.
Proof. repeat split. Qed.

(** The back-off Node waits: the doubling seconds up to attempt 21, and
    1 ms from attempt 22 on, where the doubling seconds pass the longest
    delay a timer takes. *)
Lemma timeout_backoff (n : nat) :
  (n <= 21 -> timeout (backoff n) = (2 ^ Z.of_nat n * 1000)%Z)
  /\ (22 <= n -> timeout (backoff n) = 1%Z).
Proof.
  unfold timeout, backoff, TIMEOUT_MAX. split; intros Hn.
  - pose proof (Z.pow_pos_nonneg 2 (Z.of_nat n) ltac:(lia) ltac:(lia)) as H0.
    pose proof (Z.pow_le_mono_r 2 (Z.of_nat n) 21 ltac:(lia) ltac:(lia)) as H.
    change (2 ^ 21)%Z with 2097152%Z in H.
    destruct (Z.leb_spec 1 (2 ^ Z.of_nat n * 1000)); [|lia].
    destruct (Z.leb_spec (2 ^ Z.of_nat n * 1000) 2147483647); [reflexivity|lia].
  - pose proof (Z.pow_le_mono_r 2 22 (Z.of_nat n) ltac:(lia) ltac:(lia)) as H.
    change (2 ^ 22)%Z with 4194304%Z in H.
    destruct (Z.leb_spec (2 ^ Z.of_nat n * 1000) 2147483647); [lia|].
    rewrite andb_false_r. reflexivity.
Qed.

Lemma run_head (orderId : string) (fs : list (nat * End)) (f : Finish) :
  Forall failed (failures fs f) -> (f = Unrolled -> fs <> []) ->
  match run_marks orderId fs f with
  | Wrote k s :: _ => k = orderId /\ s = Some (db_value ROUTING)
  | Refused k :: _ => k = orderId
  | _ => False
  end.
Proof.
  assert (Hst : forall a, failed a -> snd a <> StageThrew \/ 0 < fst a).
  { intros [j en] [Hp _]. destruct en; cbn in *; try (left; discriminate).
    right. destruct j; [discriminate Hp|lia]. }
  unfold run_marks, failures. intros Hall Hu.
  destruct fs as [|a fs].
  - cbn [fmap list_fmap concat app] in *.
    destruct f as [|a|a|a|]; cbn [finish_marks].
    + cbn. split; reflexivity.
    + inversion Hall as [|? ? Ha _]; subst.
      apply attempt_head; [apply Ha|exact (Hst _ Ha)].
    + inversion Hall as [|? ? Ha _]; subst.
      apply attempt_head; [apply Ha|exact (Hst _ Ha)].
    + inversion Hall as [|? ? Ha _]; subst.
      apply attempt_head; [apply Ha|exact (Hst _ Ha)].
    + exfalso. exact (Hu eq_refl eq_refl).
  - inversion Hall as [|? ? Ha _]; subst.
    cbn [fmap list_fmap concat]. rewrite <- !app_assoc.
    apply attempt_head; [apply Ha|exact (Hst _ Ha)].
Qed.

(** The three branches of the [catch] block, from the world [w1] the
    attempt left. *)
Lemma handler_retries (depth : nat) (order : Order.t) (n : nat)
    (w w1 : World) (e : JsError) (o : Order.t) :
  executeMarketOrder_try order (entered w) = (Throw e, w1) ->
  n < maxRetries (config (env w1)) ->
  store_rejects (env w1) (storeCalls w1) = None ->
  db w1 !! Order.id order = Some o ->
  let id := Order.id order in
  let ms := timeout (backoff n) in
  let w2 := waited ms (snd (incrementRetryCount id (retrying w1))) in
  db w2 = <[id := applyUpdate retry_increment o]> (db w1)
  /\ new_trace w1 w2 = [EStoreUpdate id retry_increment; EDelay ms]
  /\ clock w2 = (clock w1 + ms)%Z
  /\ executeMarketOrder (S depth) order n w
     = executeMarketOrder depth order (S n) w2.
Proof.
  intros Htry Hlt Hans Hrow. cbv zeta.
  rewrite executeMarketOrder_eq, Htry.
  apply Nat.ltb_lt in Hlt. rewrite Hlt.
  rewrite incrementRetryCount_run, prisma_order_update_run.
  change (env (retrying w1)) with (env w1).
  change (storeCalls (retrying w1)) with (storeCalls w1).
  change (db (retrying w1)) with (db w1).
  rewrite Hans, Hrow. cbn [fst snd].
  split; [reflexivity|].
  split; [apply new_trace_app; cbn; rewrite <- app_assoc; reflexivity|].
  split; reflexivity.
Qed.

Lemma handler_fails (depth : nat) (order : Order.t) (n : nat)
    (w w1 : World) (e : JsError) (o : Order.t) :
  executeMarketOrder_try order (entered w) = (Throw e, w1) ->
  maxRetries (config (env w1)) <= n ->
  store_rejects (env w1) (storeCalls w1) = None ->
  db w1 !! Order.id order = Some o ->
  let id := Order.id order in
  let run := executeMarketOrder depth order n w in
  let d := status_update (clock w1) FAILED (Some (failure_data e)) in
  let u := failure_event id e (clock w1) in
  db (snd run) = <[id := applyUpdate d o]> (db w1)
  /\ (redis_rejects (env w1) (redisCalls w1) = None ->
      fst run = Ok tt
      /\ new_trace w1 (snd run)
         = EStoreUpdate id d :: EPublish u
             :: (delivery u <$> List.filter is_open (subscribers id w1)))
  /\ (forall e', redis_rejects (env w1) (redisCalls w1) = Some e' ->
      fst run = Throw e'
      /\ new_trace w1 (snd run)
         = [EStoreUpdate id d; ECacheReject ("order:" +:+ Order.id o) e']).
Proof.
  intros Htry Hge Hans Hrow. cbv zeta.
  rewrite executeMarketOrder_eq, Htry.
  apply Nat.ltb_ge in Hge. rewrite Hge.
  unfold executeMarketOrder_fail. cbv zeta.
  fold (failure_data e).
  pose proof (updateOrderStatus_answered (Order.id order) FAILED
                (Some (failure_data e)) o (caught w1) Hrow Hans) as Hupd.
  cbv zeta in Hupd.
  change (env (caught w1)) with (env w1) in Hupd.
  change (redisCalls (caught w1)) with (redisCalls w1) in Hupd.
  change (clock (caught w1)) with (clock w1) in Hupd.
  destruct (redis_rejects (env w1) (redisCalls w1)) as [e'|] eqn:Hc.
  - rewrite (bind_throw _ _ _ _ _ Hupd). cbn [fst snd].
    split; [reflexivity|]. split; [discriminate|].
    intros e'' He. injection He as <-. split; [reflexivity|].
    apply new_trace_app. cbn. rewrite <- app_assoc. reflexivity.
  - rewrite (bind_ok _ _ _ _ _ Hupd).
    match goal with
    | |- context [bind (emitStatusUpdate ?i ?s ?m ?ev) ?k ?w2] =>
        pose proof (emitStatusUpdate_spec i s m ev w2) as Hspec;
        cbv zeta in Hspec; revert Hspec;
        destruct (emitStatusUpdate i s m ev w2) as [r3 w3] eqn:Hemit;
        cbn [fst snd]; intros (Hr & Ht & _ & Hd & _); subst r3;
        rewrite (bind_ok _ _ _ _ _ Hemit)
    end.
    cbn [fst snd log modify db set_logs]. rewrite Hd.
    split; [reflexivity|].
    split; [|discriminate].
    intros _. split; [reflexivity|].
    apply new_trace_app. cbn [trace set_logs]. rewrite Ht. cbn.
    rewrite <- app_assoc. reflexivity.
Qed.

Lemma handler_rejected (depth : nat) (order : Order.t) (n : nat)
    (w w1 : World) (e : JsError) :
  executeMarketOrder_try order (entered w) = (Throw e, w1) ->
  store_rejects (env w1) (storeCalls w1) <> None
  \/ db w1 !! Order.id order = None ->
  let run := executeMarketOrder depth order n w in
  exists e', fst run = Throw e'
             /\ new_trace w1 (snd run) = [EStoreReject (Order.id order) e'].
Proof.
  intros Htry Hno. cbv zeta. rewrite executeMarketOrder_eq, Htry.
  assert (Hrej : forall (d : UpdateData.t) (v : World),
            env v = env w1 -> storeCalls v = storeCalls w1 ->
            db v = db w1 -> trace v = trace w1 ->
            exists e' v',
              prisma_order_update (Order.id order) d v = (Throw e', v')
              /\ trace v' = trace w1 ++ [EStoreReject (Order.id order) e']).
  { intros d v H1 H2 H3 H4. rewrite prisma_order_update_run, H1, H2, H3.
    destruct (store_rejects (env w1) (storeCalls w1)) as [e'|] eqn:Ha.
    - eexists _, _. split; [reflexivity|]. cbn. rewrite H4. reflexivity.
    - destruct Hno as [Hno|Hno]; [contradiction|]. rewrite Hno.
      eexists _, _. split; [reflexivity|]. cbn. rewrite H4. reflexivity. }
  destruct (n <? maxRetries (config (env w1)))%nat.
  - destruct (Hrej retry_increment (retrying w1) eq_refl eq_refl eq_refl
                eq_refl) as (e' & v' & Hp & Ht).
    rewrite incrementRetryCount_run, Hp. exists e'.
    split; [reflexivity|]. apply new_trace_app, Ht.
  - unfold executeMarketOrder_fail. cbv zeta.
    match goal with
    | |- context [bind (updateOrderStatus ?i ?s ?dt) _ ?v] =>
        destruct (Hrej (status_update (clock v) s dt) v eq_refl eq_refl
                    eq_refl eq_refl) as (e' & v' & Hp & Ht);
        assert (Hupd : updateOrderStatus i s dt v = (Throw e', v'))
          by (rewrite updateOrderStatus_run, Hp; reflexivity)
    end.
    rewrite (bind_throw _ _ _ _ _ Hupd). exists e'.
    split; [reflexivity|]. apply new_trace_app, Ht.
Qed.

(** C3, as stated, fails when the store or the Redis server rejects the
    handler's call, and for attempts past the twenty-second.  In the first
    run the attempt is stopped by the slippage check with the counter
    below the maximum, the increment of the retry counter is rejected, and
    the call rejects with no back-off waited and no second attempt.  In
    the second run the retries are used up, [FAILED] is written with the
    description, the cache write that follows is rejected, and the call
    rejects with no failure event published.  And the back-off of attempt
    22, which would be 4194304 s, lasts 1 ms. *)
Lemma retry_blocked_by_store :
  let w := start flaky_store_env [sample_order] in
  let w' := snd (executeMarketOrder 3 sample_order 0 w) in
  let v := start cache_down_env [sample_order] in
  let v' := snd (executeMarketOrder 3 sample_order 0 v) in
  fst (executeMarketOrder_try sample_order (entered w))
  = Throw {| message := "Price impact <number> exceeds max slippage <number>" |}
  /\ fst (executeMarketOrder 3 sample_order 0 w) = Throw database_unreachable
  /\ Order.retryCount <$> db w' !! "order-1" = Some 0%Z
  /\ last (trace w') = Some (EStoreReject "order-1" database_unreachable)
  /\ delays (trace w') = [2900; 2900; 500]%Z
  /\ persisted "order-1" (trace w') = db_value <$> [ROUTING; ROUTING; BUILDING]
  /\ fst (executeMarketOrder 3 sample_order 0 v) = Throw redis_unreachable
  /\ Order.status <$> db v' !! "order-1" = Some (db_value FAILED)
  /\ Order.failureReason <$> db v' !! "order-1"
     = Some (Some "Connection is closed.")
  /\ published "order-1" (trace v') = []
  /\ (TIMEOUT_MAX < backoff 22)%Z
  /\ clock (snd (delay (backoff 22) v)) = (clock v + 1)%Z.
Proof. vm_compute. repeat split. Qed.

(** C3 (amended): when an attempt throws [e], at whatever stage, the
    handler does one of four things.  With retries left and the store
    answering, the retry counter of the row is incremented, a timer of
    [2^n * 1000] ms is awaited (1 s, 2 s, 4 s, and so on up to attempt 21;
    1 ms from attempt 22 on), and the pipeline runs again for the same
    order with the next attempt number, its first step being the store
    call that writes [ROUTING].  With no retry left and the store
    answering, [FAILED] is written, with the message of [e] as failure
    reason when that message is not empty; then, when the cache write is
    answered, the event of [FAILED] carrying the message is published and
    the call resolves, and when the cache write is rejected, the call
    rejects with that rejection and no event is published.  When the store
    rejects the handler's call, the call rejects with that rejection and
    nothing else is done. *)
Theorem failure_handling (depth : nat) (order : Order.t) (n : nat)
    (w : World) (e : JsError) :
  fst (executeMarketOrder_try order (entered w)) = Throw e ->
  let id := Order.id order in
  let max := maxRetries (config (env w)) in
  let w1 := snd (executeMarketOrder_try order (entered w)) in
  let run := executeMarketOrder (S depth) order n w in
  let answered := store_rejects (env w1) (storeCalls w1) = None in
  let cached := redis_rejects (env w1) (redisCalls w1) in
  (n < max -> answered -> forall o, db w1 !! id = Some o ->
     let ms := timeout (backoff n) in
     let w2 := waited ms (snd (incrementRetryCount id (retrying w1))) in
     db w2 = <[id := applyUpdate retry_increment o]> (db w1)
     /\ Order.retryCount (applyUpdate retry_increment o)
        = (Order.retryCount o + 1)%Z
     /\ new_trace w1 w2 = [EStoreUpdate id retry_increment; EDelay ms]
     /\ clock w2 = (clock w1 + ms)%Z
     /\ (n <= 21 -> ms = (2 ^ Z.of_nat n * 1000)%Z)
     /\ (22 <= n -> ms = 1%Z)
     /\ run = executeMarketOrder depth order (S n) w2
     /\ starts_with_routing id (new_trace w2 (snd run)))
  /\ (max <= n -> answered -> forall o, db w1 !! id = Some o ->
     let d := status_update (clock w1) FAILED (Some (failure_data e)) in
     let u := failure_event id e (clock w1) in
     db (snd run) = <[id := applyUpdate d o]> (db w1)
     /\ Order.status (applyUpdate d o) = db_value FAILED
     /\ Order.failureReason (applyUpdate d o)
        = (if truthy_string (message e) then Some (message e)
           else Order.failureReason o)
     /\ (cached = None ->
         fst run = Ok tt
         /\ new_trace w1 (snd run)
            = EStoreUpdate id d :: EPublish u
                :: (delivery u <$> List.filter is_open (subscribers id w1)))
     /\ (forall e', cached = Some e' ->
         fst run = Throw e'
         /\ new_trace w1 (snd run)
            = [EStoreUpdate id d; ECacheReject ("order:" +:+ Order.id o) e']))
  /\ ((~ answered \/ db w1 !! id = None) ->
      exists e', fst run = Throw e'
                 /\ new_trace w1 (snd run) = [EStoreReject id e'])
  /\ backoff 0 = 1000%Z /\ backoff 1 = 2000%Z /\ backoff 2 = 4000%Z.
Proof.
  intros Htry. cbv zeta.
  pose proof (executeMarketOrder_try_spec order (entered w)) as A.
  unfold wp in A.
  destruct (executeMarketOrder_try order (entered w)) as [r1 w1] eqn:Hrun.
  cbn [fst snd] in *. subst r1.
  assert (Henv : env w1 = env w)
    by (destruct A as (l & k & [He _ _] & _); exact He).
  rewrite <- Henv.
  split; [|split; [|split; [|exact backoff_values]]].
  - intros Hlt Hans o Hrow.
    destruct (handler_retries depth order n w w1 e o Hrun Hlt Hans Hrow)
      as (H1 & H2 & H3 & H4).
    split; [exact H1|]. split; [cbn; lia|]. split; [exact H2|].
    split; [exact H3|].
    split; [exact (proj1 (timeout_backoff n))|].
    split; [exact (proj2 (timeout_backoff n))|].
    split; [exact H4|]. rewrite H4.
    match goal with
    | |- context [executeMarketOrder depth order (S n) ?w2] =>
        destruct (executeMarketOrder_spec depth order (S n) w2)
          as (l & fs & f & E & P & Hfs & Hlen & Hcase & _)
    end.
    rewrite (Ext_new_trace _ _ _ E). unfold starts_with_routing. rewrite P.
    apply run_head.
    + apply finish_failed; [exact Hfs|]. destruct f; try exact I; apply Hcase.
    + intros -> ->. destruct Hcase as [_ H]. discriminate H.
  - intros Hge Hans o Hrow.
    destruct (handler_fails (S depth) order n w w1 e o Hrun Hge Hans Hrow)
      as (H1 & H2 & H3).
    split; [exact H1|]. split; [reflexivity|].
    split; [cbn; destruct (truthy_string (message e)); reflexivity|].
    split; assumption.
  - intros Hno. apply (handler_rejected (S depth) order n w w1 e Hrun).
    destruct Hno as [Hno|Hno]; [left; exact Hno|right; exact Hno].
Qed.

(** The first attempt is stopped by the slippage check with retries
    left, and the pipeline runs again as attempt 1. *)
Lemma failure_handling_witness :
  let w := start retry_env [sample_order] in
  let w1 := snd (executeMarketOrder_try sample_order (entered w)) in
  executeMarketOrder 3 sample_order 0 w
  = executeMarketOrder 2 sample_order 1
      (waited (timeout (backoff 0))
         (snd (incrementRetryCount (Order.id sample_order) (retrying w1)))).
Proof.
  cbv zeta.
  pose proof (failure_handling 2 sample_order 0
                (start retry_env [sample_order])
                {| message := "Price impact <number> exceeds max slippage <number>" |}
                ltac:(vm_compute; reflexivity)) as H.
  cbv zeta in H. destruct H as (H & _).
  assert (Hrow : exists o,
            db (snd (executeMarketOrder_try sample_order
                       (entered (start retry_env [sample_order]))))
              !! Order.id sample_order = Some o)
    by (vm_compute; eauto).
  destruct Hrow as [o Hrow].
  destruct (H ltac:(cbn; lia) ltac:(vm_compute; reflexivity) o Hrow)
    as (_ & _ & _ & _ & _ & _ & Hrun & _).
  exact Hrun.
Defined.

End Pipeline.

(** * Further properties of the code *)

(** ** The registry as a map of sets *)

Section RegistrySets.
Import WebSocketService.

(** [registerConnection] adds the socket to the order's set: at the end
    when it is not yet a member, not at all when it is; registering a
    socket twice is registering it once.  The sets of other orders and the
    history are not touched, and the call resolves. *)
Theorem registerConnection_set (orderId : string) (s : SocketStream.t) (w : World) :
  let w1 := snd (registerConnection orderId s w) in
  let w2 := snd (registerConnection orderId s w1) in
  fst (registerConnection orderId s w) = Ok tt
  /\ (existsb (same s) (subscribers orderId w) = false ->
        subscribers orderId w1 = subscribers orderId w ++ [s])
  /\ (existsb (same s) (subscribers orderId w) = true ->
        subscribers orderId w1 = subscribers orderId w)
  /\ existsb (same s) (subscribers orderId w1) = true
  /\ subscribers orderId w2 = subscribers orderId w1
  /\ connections w2 = connections w1
  /\ (forall k, k <> orderId -> connections w1 !! k = connections w !! k)
  /\ trace w1 = trace w /\ db w1 = db w /\ timers w1 = timers w.
Proof.
  cbv zeta.
  assert (Hmem : existsb (same s) (Set_add s (subscribers orderId w)) = true).
  { unfold Set_add. destruct (existsb (same s) (subscribers orderId w)) eqn:E;
      [exact E|]. rewrite existsb_app. cbn. unfold same at 2.
    rewrite Nat.eqb_refl. apply orb_true_r. }
  assert (Hsub2 : subscribers orderId
                    (snd (registerConnection orderId s
                            (snd (registerConnection orderId s w))))
                  = subscribers orderId (snd (registerConnection orderId s w))).
  { rewrite !subscribers_register. unfold Set_add at 1. rewrite Hmem.
    reflexivity. }
  split; [rewrite registerConnection_run; reflexivity|].
  split; [intros E; rewrite subscribers_register; unfold Set_add;
          rewrite E; reflexivity|].
  split; [intros E; rewrite subscribers_register; unfold Set_add;
          rewrite E; reflexivity|].
  split; [rewrite subscribers_register; exact Hmem|].
  split; [exact Hsub2|].
  split.
  { pose proof (subscribers_register orderId s w) as H1.
    unfold subscribers at 1 in H1.
    rewrite !registerConnection_run in *.
    cbn [snd connections set_logs set_connections] in *.
    match goal with
    | |- alter _ _ (if bool_decide (is_Some (?c1 !! _)) then _ else _) = _ =>
        set (c := c1) in *
    end.
    destruct (c !! orderId) as [l|] eqn:Hc.
    - rewrite bool_decide_eq_true_2 by eauto. apply alter_id.
      intros x Hx. rewrite Hc in Hx. injection Hx as <-. cbn in H1. subst l.
      unfold Set_add at 1. rewrite Hmem. reflexivity.
    - exfalso. unfold c in Hc. rewrite lookup_alter_eq in Hc.
      destruct (bool_decide (is_Some (connections w !! orderId))) eqn:B.
      + apply bool_decide_eq_true_1 in B as [l Hl]. rewrite Hl in Hc.
        discriminate Hc.
      + rewrite lookup_insert_eq in Hc. discriminate Hc. }
  split.
  { intros k Hk. rewrite registerConnection_run. cbn.
    rewrite lookup_alter_ne by congruence.
    destruct (bool_decide _); [reflexivity|].
    rewrite lookup_insert_ne by congruence. reflexivity. }
  rewrite registerConnection_run. repeat split.
Qed.

Lemma Set_delete_absent (s : SocketStream.t) (l : list SocketStream.t) :
  existsb (same s) l = false -> Set_delete s l = l.
Proof.
  unfold Set_delete. induction l as [|x l IH]; cbn; [reflexivity|].
  intros H. apply orb_false_elim in H as [Hx Hl]. rewrite Hx. cbn.
  rewrite (IH Hl). reflexivity.
Qed.

Lemma Set_delete_twice (s : SocketStream.t) (l : list SocketStream.t) :
  Set_delete s (Set_delete s l) = Set_delete s l.
Proof.
  unfold Set_delete. induction l as [|x l IH]; cbn; [reflexivity|].
  destruct (same s x) eqn:E; cbn; [exact IH|]. rewrite E. cbn.
  rewrite IH. reflexivity.
Qed.

Lemma subscribers_unregister (orderId : string) (s : SocketStream.t) (w : World) :
  subscribers orderId (snd (unregisterConnection orderId s w))
  = Set_delete s (subscribers orderId w).
Proof.
  rewrite unregisterConnection_run. unfold subscribers. cbn.
  apply drop_connection_members.
Qed.

(** [unregisterConnection] removes the socket from the order's set and
    nothing else; it drops the order's entry when the set becomes empty,
    does nothing when called again, and undoes the registration of a
    socket that was not a member before. *)
Theorem unregisterConnection_set (orderId : string) (s : SocketStream.t) (w : World) :
  let w1 := snd (unregisterConnection orderId s w) in
  fst (unregisterConnection orderId s w) = Ok tt
  /\ (forall x,
        x ∈ subscribers orderId w1
        <-> x ∈ subscribers orderId w
            /\ SocketStream.ref s <> SocketStream.ref x)
  /\ (subscribers orderId w1 = [] -> connections w1 !! orderId = None)
  /\ subscribers orderId (snd (unregisterConnection orderId s w1))
     = subscribers orderId w1
  /\ (forall k, k <> orderId -> connections w1 !! k = connections w !! k)
  /\ trace w1 = trace w
  /\ (existsb (same s) (subscribers orderId w) = false ->
      subscribers orderId
        (snd (unregisterConnection orderId s
                (snd (registerConnection orderId s w))))
      = subscribers orderId w).
Proof.
  cbv zeta.
  split; [rewrite unregisterConnection_run; reflexivity|].
  split; [intros x; rewrite subscribers_unregister; apply elem_of_Set_delete|].
  split.
  { intros H. pose proof (drop_connection_nonempty orderId orderId s
                            (connections w)) as Hne.
    unfold subscribers in H. rewrite unregisterConnection_run in *.
    cbn [snd connections set_logs set_connections] in *.
    destruct (drop_connection orderId s (connections w) !! orderId)
      as [l|] eqn:E; [|reflexivity].
    cbn in H. subst l. exfalso.
    unfold drop_connection in E.
    destruct (connections w !! orderId) as [l0|] eqn:E0; [|congruence].
    cbv zeta in E. rewrite lookup_alter_eq, E0 in E.
    change (default [] (Set_delete s <$> Some l0)) with (Set_delete s l0) in E.
    destruct (Set_delete s l0) as [|x r] eqn:D.
    - change (length [] =? 0) with true in E. cbv iota in E.
      rewrite lookup_delete_eq in E. discriminate E.
    - change (length (x :: r) =? 0) with false in E. cbv iota in E.
      rewrite lookup_alter_eq, E0 in E. cbn in E. congruence. }
  split; [rewrite !subscribers_unregister; apply Set_delete_twice|].
  split.
  { intros k Hk. rewrite unregisterConnection_run. cbn.
    apply drop_connection_other, Hk. }
  split; [rewrite unregisterConnection_run; reflexivity|].
  intros H. rewrite subscribers_unregister, subscribers_register.
  unfold Set_add. rewrite H. unfold Set_delete.
  rewrite List.filter_app. cbn. unfold same at 2. rewrite Nat.eqb_refl. cbn.
  rewrite app_nil_r. apply Set_delete_absent, H.
Qed.

Lemma wf_registry_foldl_drop (orderId : string) (F : list SocketStream.t) :
  forall c : gmap string (list SocketStream.t),
  wf_registry c ->
  wf_registry (foldl (fun c s => drop_connection orderId s c) c F).
Proof.
  induction F as [|s F IH]; intros c Hc; cbn; [exact Hc|].
  apply IH. intros k. apply drop_connection_nonempty, Hc.
Qed.

(** No operation of the registry leaves an order mapped to an empty set:
    a registry that holds none, as the empty one does, holds none after
    [registerConnection], [unregisterConnection], [broadcastStatusUpdate]
    and [closeOrderConnections]. *)
Theorem registry_never_holds_empty_set (w : World) :
  wf_registry (connections w) ->
  (forall id s, wf_registry (connections (snd (registerConnection id s w))))
  /\ (forall id s, wf_registry (connections (snd (unregisterConnection id s w))))
  /\ (forall u, wf_registry (connections (snd (broadcastStatusUpdate u w))))
  /\ (forall id, wf_registry (connections (snd (closeOrderConnections id w)))).
Proof.
  intros Hw. repeat split.
  - intros id s k. rewrite registerConnection_run. cbn.
    destruct (decide (k = id)) as [->|Hk].
    + rewrite lookup_alter_eq.
      assert (Hadd : forall l, Set_add s l <> []).
      { intros l. unfold Set_add. destruct (existsb (same s) l) eqn:E.
        - destruct l; [discriminate E|discriminate].
        - destruct l; discriminate. }
      destruct (bool_decide _).
      * destruct (connections w !! id) as [l|]; cbn; [|discriminate].
        intros H. injection H as H. exact (Hadd _ H).
      * rewrite lookup_insert_eq. cbn. discriminate.
    + rewrite lookup_alter_ne by congruence. destruct (bool_decide _).
      * apply Hw.
      * rewrite lookup_insert_ne by congruence. apply Hw.
  - intros id s k. rewrite unregisterConnection_run. cbn.
    apply drop_connection_nonempty, Hw.
  - intros u.
    destruct (decide (subscribers (OrderStatusUpdate.orderId u) w = [])) as [E|E].
    + rewrite (broadcastStatusUpdate_none u w E). exact Hw.
    + destruct (broadcastStatusUpdate_some u w E) as [lg H]. rewrite H. cbn.
      apply wf_registry_foldl_drop, Hw.
  - intros id k. destruct (closeOrderConnections_run id w) as [lg H].
    rewrite H. cbn. destruct (decide (k = id)) as [->|Hk].
    + rewrite lookup_delete_eq. discriminate.
    + rewrite lookup_delete_ne by congruence. apply Hw.
Qed.

(** The empty registry of a freshly started process, after a socket has
    been registered and unregistered. *)
Lemma registry_never_holds_empty_set_witness :
  connections
    (snd (unregisterConnection "order-1" sample_socket
            (snd (registerConnection "order-1" sample_socket
                    (start calm_env [])))))
  !! "order-1" <> Some [].
Proof.
  refine (proj1 (proj2 (registry_never_holds_empty_set
                          (snd (registerConnection "order-1" sample_socket
                                  (start calm_env []))) _))
            "order-1" sample_socket "order-1").
  apply (registry_never_holds_empty_set (start calm_env [])).
  intros k. cbn. rewrite lookup_empty. discriminate.
Defined.

Lemma length_Set_delete (s : SocketStream.t) (l : list SocketStream.t) :
  length (Set_delete s l) <= length l.
Proof. unfold Set_delete. apply List.filter_length_le. Qed.

Lemma length_foldl_delete (F : list SocketStream.t) :
  forall l : list SocketStream.t,
  length (foldl (fun acc s => Set_delete s acc) l F) <= length l.
Proof.
  induction F as [|s F IH]; intros l; cbn; [lia|].
  etransitivity; [apply IH|apply length_Set_delete].
Qed.

(** [broadcastStatusUpdate] touches only the registry, the history, the
    log and the timers: it schedules the closure of the order's
    connections exactly when the event is terminal and the order has a
    subscriber, and it never adds a subscriber. *)
Theorem broadcastStatusUpdate_frame (u : OrderStatusUpdate.t) (w : World) :
  let id := OrderStatusUpdate.orderId u in
  let w' := snd (broadcastStatusUpdate u w) in
  env w' = env w /\ clock w' = clock w /\ db w' = db w
  /\ cache w' = cache w /\ jobs w' = jobs w
  /\ timers w'
     = (if terminal (OrderStatusUpdate.status u)
           && negb (Nat.eqb (length (subscribers id w)) 0)
        then timers w ++ [closure_timer (clock w) id]
        else timers w)
  /\ length (subscribers id w') <= length (subscribers id w).
Proof.
  cbv zeta.
  destruct (decide (subscribers (OrderStatusUpdate.orderId u) w = [])) as [E|E].
  - rewrite (broadcastStatusUpdate_none u w E). cbn [snd]. rewrite E. cbn.
    rewrite andb_false_r. unfold subscribers in *. cbn. rewrite E.
    repeat split. cbn. lia.
  - destruct (broadcastStatusUpdate_some u w E) as [lg H]. rewrite H.
    cbn [snd]. repeat split.
    + cbn. destruct (subscribers (OrderStatusUpdate.orderId u) w) as [|x l];
        [contradiction|]. cbn.
      destruct (terminal (OrderStatusUpdate.status u)); reflexivity.
    + unfold subscribers at 1. cbn. rewrite members_foldl_drop.
      apply length_foldl_delete.
Qed.

(** [closeOrderConnections] calls [close] once on each subscriber of the
    order; on an order without an entry it does nothing at all, so closing
    the same order again changes nothing. *)
Theorem closeOrderConnections_twice (orderId : string) (w : World) :
  let w1 := snd (closeOrderConnections orderId w) in
  (connections w !! orderId = None ->
     closeOrderConnections orderId w = (Ok tt, w))
  /\ closeOrderConnections orderId w1 = (Ok tt, w1)
  /\ new_trace w w1 = closing <$> subscribers orderId w
  /\ db w1 = db w /\ timers w1 = timers w.
Proof.
  cbv zeta.
  assert (Hnone : forall v, connections v !! orderId = None ->
            closeOrderConnections orderId v = (Ok tt, v)).
  { intros v Hv. unfold closeOrderConnections. rewrite bind_gets, Hv.
    reflexivity. }
  destruct (closeOrderConnections_run orderId w) as [lg H].
  split; [apply Hnone|]. rewrite H. cbn [snd].
  split; [apply Hnone; cbn; apply lookup_delete_eq|].
  split; [apply new_trace_app; reflexivity|]. repeat split.
Qed.

Lemma total_split (c : gmap string (list SocketStream.t)) (orderId : string) :
  map_fold (fun _ l total => (total + length l)%nat) 0%nat c
  = (map_fold (fun _ l total => (total + length l)%nat) 0%nat (delete orderId c)
     + length (default [] (c !! orderId)))%nat.
Proof.
  destruct (c !! orderId) as [l|] eqn:E.
  - rewrite (map_fold_delete_L _ _ orderId l c); [reflexivity| |exact E].
    intros. lia.
  - rewrite delete_id by exact E. cbn. lia.
Qed.

(** [getActiveConnections] is the sum of the per-order counts: it is at
    least the count of any one order, grows by one when a socket that is
    not yet a member is registered, stays when a member is registered
    again, and drops by the order's count when the order is closed. *)
Theorem getActiveConnections_counts (orderId : string) (s : SocketStream.t)
    (w : World) :
  exists total n : nat,
    getActiveConnections w = (Ok total, w)
    /\ getOrderConnections orderId w = (Ok n, w)
    /\ n = length (subscribers orderId w)
    /\ n <= total
    /\ fst (getActiveConnections (snd (registerConnection orderId s w)))
       = Ok (if existsb (same s) (subscribers orderId w)
             then total else S total)
    /\ fst (getActiveConnections (snd (closeOrderConnections orderId w)))
       = Ok (total - n).
Proof.
  eexists _, _. split; [reflexivity|]. split; [reflexivity|].
  split; [reflexivity|]. cbn [fst snd].
  rewrite (total_split (connections w) orderId).
  fold (subscribers orderId w).
  split; [lia|]. split.
  - unfold getActiveConnections, gets. cbn [fst]. f_equal.
    rewrite (total_split _ orderId).
    fold (subscribers orderId (snd (registerConnection orderId s w))).
    rewrite subscribers_register.
    assert (Hdel : delete orderId
                     (connections (snd (registerConnection orderId s w)))
                   = delete orderId (connections w)).
    { apply map_eq. intros k. destruct (decide (k = orderId)) as [->|Hk].
      - rewrite !lookup_delete_eq. reflexivity.
      - rewrite !lookup_delete_ne by congruence.
        rewrite registerConnection_run. cbn.
        rewrite lookup_alter_ne by congruence.
        destruct (bool_decide _); [reflexivity|].
        rewrite lookup_insert_ne by congruence. reflexivity. }
    rewrite Hdel. unfold Set_add.
    destruct (existsb (same s) (subscribers orderId w)); [reflexivity|].
    rewrite length_app. cbn. lia.
  - destruct (closeOrderConnections_run orderId w) as [lg H]. rewrite H.
    unfold getActiveConnections, gets. cbn. f_equal. lia.
Qed.

End RegistrySets.

(** ** The order store and its cache *)

Section StoreAndCache.
Import OrderService.

Lemma live_insert (now : Z) (c : gmap string Entry) (key : string)
    (o : Order.t) :
  live now (<[key := cached_entry o now]> c) key = Some (JSON_copy o).
Proof.
  unfold live. rewrite lookup_insert_eq. cbn.
  destruct (Z.ltb_spec now (now + 3600 * 1000)); [reflexivity|lia].
Qed.

Lemma getOrder_run (orderId : string) (w : World) :
  getOrder orderId w =
  let key := "order:" +:+ orderId in
  match redis_rejects (env w) (redisCalls w) with
  | Some e =>
      (Throw e,
       set_trace (fun t => t ++ [ECacheReject key e]) (set_redisCalls S w))
  | None =>
      let w1 := set_redisCalls S w in
      match live (clock w) (cache w) key with
      | Some c => (Ok (Some (Cached c)), w1)
      | None =>
          match store_rejects (env w) (storeCalls w) with
          | Some e => (Throw e, set_storeCalls S w1)
          | None =>
              match db w !! orderId with
              | None => (Ok None, set_storeCalls S w1)
              | Some o => bind (cacheOrder o) (fun _ => ret (Some (Row o)))
                            (set_storeCalls S w1)
              end
          end
      end
  end.
Proof.
  unfold getOrder, redis_get, bind at 1 2. rewrite redis_call_run.
  destruct (redis_rejects (env w) (redisCalls w)); [reflexivity|].
  cbv zeta. unfold gets at 1. cbn [clock cache set_redisCalls].
  destruct (live (clock w) (cache w) ("order:" +:+ orderId)); [reflexivity|].
  unfold prisma_order_findUnique, bind, gets, modify, throw, ret. cbn.
  destruct (store_rejects (env w) (storeCalls w)); [reflexivity|].
  change (db (set_storeCalls S (set_redisCalls S w))) with (db w).
  destruct (db w !! orderId); reflexivity.
Qed.

(** [updateOrderStatus] awaits the store call and then the cache write.
    When the store call rejects, the rejection is passed on and nothing
    else is done: no Redis call is made.  When the store call resolves with
    a row, one Redis call is made: if it rejects, the call rejects with
    that rejection, the table being as the store call left it and the cache
    as it was; if it is answered, the call resolves with the row, and the
    cache holds the JSON copy of the row under the row's key for an
    hour. *)
Theorem updateOrderStatus_rejection (orderId : string) (status : OrderStatus)
    (data : option StatusData.t) (w : World) :
  let r := fst (updateOrderStatus orderId status data w) in
  let w' := snd (updateOrderStatus orderId status data w) in
  let stored :=
    prisma_order_update orderId (status_update (clock w) status data) w in
  let w1 := snd stored in
  (forall e, fst stored = Throw e -> r = Throw e /\ w' = w1)
  /\ (forall o e,
        fst stored = Ok o -> redis_rejects (env w1) (redisCalls w1) = Some e ->
        r = Throw e
        /\ db w' = db w1 /\ cache w' = cache w
        /\ trace w' = trace w1 ++ [ECacheReject ("order:" +:+ Order.id o) e])
  /\ (forall o,
        fst stored = Ok o -> redis_rejects (env w1) (redisCalls w1) = None ->
        r = Ok o
        /\ db w' = db w1 /\ trace w' = trace w1
        /\ cache w'
           = <["order:" +:+ Order.id o := cached_entry o (clock w)]> (cache w))
  /\ ((exists o, r = Ok o)
      <-> (exists o, fst stored = Ok o)
          /\ redis_rejects (env w1) (redisCalls w1) = None)
  /\ redisCalls w'
     = match fst stored with
       | Ok _ => S (redisCalls w)
       | _ => redisCalls w
       end.
Proof.
  cbv zeta. rewrite updateOrderStatus_run, prisma_order_update_run.
  destruct (store_rejects (env w) (storeCalls w)) as [e|] eqn:Ha;
    [|destruct (db w !! orderId) as [o|] eqn:Hrow]; cbn [fst snd].
  - split; [intros e' H; injection H as <-; split; reflexivity|].
    split; [discriminate|]. split; [discriminate|].
    split; [|reflexivity].
    split; [intros [o H]; discriminate H|intros [[o H] _]; discriminate H].
  - rewrite cacheOrder_run.
    cbn [env redisCalls clock cache trace db set_trace set_db set_storeCalls].
    destruct (redis_rejects (env w) (redisCalls w)) as [e|] eqn:Hc;
      cbn [fst snd].
    + split; [discriminate|]. split.
      { intros o' e' H He. injection H as <-. injection He as <-.
        repeat split. }
      split; [discriminate|]. split; [|reflexivity].
      split; [intros [o' H]; discriminate H|intros [_ H]; discriminate H].
    + split; [discriminate|]. split; [discriminate|]. split.
      { intros o' H _. injection H as <-. repeat split. }
      split; [|reflexivity]. split; eauto.
  - split; [intros e' H; injection H as <-; split; reflexivity|].
    split; [discriminate|]. split; [discriminate|].
    split; [|reflexivity].
    split; [intros [o H]; discriminate H|intros [[o H] _]; discriminate H].
Qed.

(** After [updateOrderStatus] has resolved with a row stored under its
    own id, [getOrder] makes no store call: when its Redis call is
    answered it resolves with the JSON copy of the row, in which the dates
    are strings and a price that is not finite is [null]. *)
Theorem updateOrderStatus_then_getOrder (orderId : string) (status : OrderStatus)
    (data : option StatusData.t) (w : World) (o' : Order.t) :
  fst (updateOrderStatus orderId status data w) = Ok o' ->
  Order.id o' = orderId ->
  let w1 := snd (updateOrderStatus orderId status data w) in
  let copy := JSON_copy o' in
  db w1 !! orderId = Some o'
  /\ fst (getOrder orderId w1)
     = match redis_rejects (env w1) (redisCalls w1) with
       | Some e => Throw e
       | None => Ok (Some (Cached copy))
       end
  /\ storeCalls (snd (getOrder orderId w1)) = storeCalls w1
  /\ CachedOrder.status copy = db_value status
  /\ CachedOrder.updatedAt copy = ISO (clock w)
  /\ (forall x, Order.executionPrice o' = Some x ->
        PrimFloat.is_infinity x = true \/ PrimFloat.is_nan x = true ->
        CachedOrder.executionPrice copy = None).
Proof.
  intros Hr Hid. cbv zeta.
  rewrite updateOrderStatus_run, prisma_order_update_run in *.
  destruct (store_rejects (env w) (storeCalls w)) as [e|];
    [discriminate Hr|].
  destruct (db w !! orderId) as [o|]; [|discriminate Hr].
  rewrite cacheOrder_run in *.
  cbn [env redisCalls clock set_trace set_db set_storeCalls] in *.
  destruct (redis_rejects (env w) (redisCalls w)) as [e|];
    [discriminate Hr|].
  cbn [fst snd] in *. injection Hr as <-. cbn in Hid.
  split; [cbn; apply lookup_insert_eq|].
  rewrite getOrder_run. cbv zeta.
  cbn [env redisCalls clock cache set_cache set_redisCalls set_trace set_db
         set_storeCalls Order.id applyUpdate].
  rewrite Hid, live_insert.
  split; [destruct (redis_rejects _ _); reflexivity|].
  split; [destruct (redis_rejects _ _); reflexivity|].
  split; [reflexivity|]. split; [reflexivity|].
  intros x Hx Hbad. cbn. cbn in Hx. rewrite Hx. cbn. unfold json_number.
  destruct Hbad as [-> | ->]; rewrite ?orb_true_r; reflexivity.
Qed.

(** The sample order moved to [ROUTING]. *)
Lemma updateOrderStatus_then_getOrder_witness :
  exists o',
    fst (getOrder "order-1"
           (snd (updateOrderStatus "order-1" ROUTING None
                   (start calm_env [sample_order]))))
    = Ok (Some (Cached (JSON_copy o')))
    /\ CachedOrder.status (JSON_copy o') = db_value ROUTING.
Proof.
  exists (applyUpdate (status_update 0 ROUTING None) sample_order).
  pose proof (updateOrderStatus_then_getOrder "order-1" ROUTING None
                (start calm_env [sample_order])
                (applyUpdate (status_update 0 ROUTING None) sample_order)
                ltac:(vm_compute; reflexivity) eq_refl) as H.
  cbv zeta in H. destruct H as (_ & H1 & _ & H2 & _). split; assumption.
Defined.

(** [incrementRetryCount] resolves with the row's counter plus one and
    writes that counter to the row, but not to the cache: an order that
    was cached stays cached as it was, and [getOrder], when its Redis call
    is answered, goes on returning the cached content. *)
Theorem incrementRetryCount_stale_cache (orderId : string) (w : World)
    (o : Order.t) (c : CachedOrder.t) :
  db w !! orderId = Some o ->
  store_rejects (env w) (storeCalls w) = None ->
  live (clock w) (cache w) ("order:" +:+ orderId) = Some c ->
  let w1 := snd (incrementRetryCount orderId w) in
  fst (incrementRetryCount orderId w) = Ok (Order.retryCount o + 1)%Z
  /\ (exists o1,
        db w1 !! orderId = Some o1
        /\ Order.retryCount o1 = (Order.retryCount o + 1)%Z
        /\ Order.status o1 = Order.status o
        /\ Order.failureReason o1 = Order.failureReason o)
  /\ cache w1 = cache w
  /\ fst (getOrder orderId w1)
     = match redis_rejects (env w1) (redisCalls w1) with
       | Some e => Throw e
       | None => Ok (Some (Cached c))
       end
  /\ storeCalls (snd (getOrder orderId w1)) = storeCalls w1
  /\ new_trace w w1 = [EStoreUpdate orderId retry_increment].
Proof.
  intros Hrow Hans Hc. cbv zeta.
  rewrite incrementRetryCount_run, prisma_order_update_run, Hans, Hrow.
  cbn [fst snd].
  split; [reflexivity|]. split.
  { eexists. split; [cbn; apply lookup_insert_eq|]. repeat split. }
  split; [reflexivity|].
  rewrite getOrder_run. cbv zeta.
  cbn [env redisCalls clock cache set_trace set_db set_storeCalls].
  rewrite Hc.
  split; [destruct (redis_rejects _ _); reflexivity|].
  split; [destruct (redis_rejects _ _); reflexivity|].
  apply new_trace_app. reflexivity.
Qed.

(** The sample order, cached by a first [getOrder], then retried once. *)
Lemma incrementRetryCount_stale_cache_witness :
  let w := snd (getOrder "order-1" (start calm_env [sample_order])) in
  let w1 := snd (incrementRetryCount "order-1" w) in
  fst (incrementRetryCount "order-1" w) = Ok 1%Z
  /\ fst (getOrder "order-1" w1) = Ok (Some (Cached (JSON_copy sample_order))).
Proof.
  cbv zeta.
  pose proof (incrementRetryCount_stale_cache "order-1"
                (snd (getOrder "order-1" (start calm_env [sample_order])))
                sample_order (JSON_copy sample_order)
                ltac:(vm_compute; reflexivity) eq_refl
                ltac:(vm_compute; reflexivity)) as H.
  cbv zeta in H. destruct H as (H1 & _ & _ & H2 & _). split; assumption.
Defined.

Lemma createOrder_run (input : CreateOrderInput.t) (w : World) :
  createOrder input w =
  match store_rejects (env w) (storeCalls w) with
  | Some e => (Throw e, set_storeCalls S w)
  | None =>
      let id := uuid (env w) (uuidCalls w) in
      let w1 := set_uuidCalls S (set_storeCalls S w) in
      match db w !! id with
      | Some _ => (Throw uniqueConstraint, w1)
      | None =>
          let o := created input id (clock w) in
          let w2 := set_db (insert id o) w1 in
          match redis_rejects (env w) (redisCalls w) with
          | Some e =>
              (Throw e,
               set_trace (fun t => t ++ [ECacheReject ("order:" +:+ id) e])
                 (set_redisCalls S w2))
          | None =>
              (Ok o,
               set_logs (fun l => l ++ [(Info, "Order created successfully")])
                 (set_cache (insert ("order:" +:+ id) (cached_entry o (clock w)))
                    (set_redisCalls S w2)))
          end
      end
  end.
Proof.
  unfold createOrder, prisma_order_create, randomUUID, Date_now.
  unfold bind at 1 2 3 4 5 6 7 8 9. unfold gets, modify, throw, ret. cbn.
  destruct (store_rejects _ _); [reflexivity|].
  change (db (set_storeCalls S w)) with (db w).
  change (env (set_storeCalls S w)) with (env w).
  change (uuidCalls (set_storeCalls S w)) with (uuidCalls w).
  destruct (db w !! uuid (env w) (uuidCalls w)); [reflexivity|].
  unfold bind. rewrite cacheOrder_run.
  cbn [env redisCalls clock set_db set_uuidCalls set_storeCalls].
  destruct (redis_rejects (env w) (redisCalls w)); reflexivity.
Qed.

(** When the database answers, the fresh id is free and the Redis server
    answers, [createOrder] resolves with a [PENDING] row that carries the
    request's fields, the kind in the database spelling, a retry counter of
    0 and no routing or execution data; the row is stored under its id and
    its JSON copy is cached, so that [getOrder], when its Redis call is
    answered, resolves with that copy without a store call; and admitting
    the row gives its job the priority of its kind, never the lowest
    one. *)
Theorem createOrder_admission (input : CreateOrderInput.t) (w : World) :
  store_rejects (env w) (storeCalls w) = None ->
  db w !! uuid (env w) (uuidCalls w) = None ->
  redis_rejects (env w) (redisCalls w) = None ->
  let w1 := snd (createOrder input w) in
  exists o,
    fst (createOrder input w) = Ok o
    /\ Order.id o = uuid (env w) (uuidCalls w)
    /\ Order.status o = db_value PENDING
    /\ Order.type o = toUpperCase (OrderType_value (CreateOrderInput.type input))
    /\ Order.fromToken o = CreateOrderInput.fromToken input
    /\ Order.toToken o = CreateOrderInput.toToken input
    /\ Order.amount o = CreateOrderInput.amount input
    /\ Order.slippageTolerance o = CreateOrderInput.slippageTolerance input
    /\ Order.retryCount o = 0%Z
    /\ Order.selectedDex o = None /\ Order.txHash o = None
    /\ Order.failureReason o = None /\ Order.completedAt o = None
    /\ db w1 = <[Order.id o := o]> (db w)
    /\ cache w1
       = <["order:" +:+ Order.id o := cached_entry o (clock w)]> (cache w)
    /\ fst (getOrder (Order.id o) w1)
       = match redis_rejects (env w1) (redisCalls w1) with
         | Some e => Throw e
         | None => Ok (Some (Cached (JSON_copy o)))
         end
    /\ storeCalls (snd (getOrder (Order.id o) w1)) = storeCalls w1
    /\ OrderQueueService.getOrderPriority o
       = match CreateOrderInput.type input with
         | MARKET => 1%Z
         | LIMIT => 2%Z
         | SNIPER => 3%Z
         end
    /\ trace w1 = trace w.
Proof.
  intros Hans Hfree Hc. cbv zeta. rewrite createOrder_run, Hans. cbv zeta.
  rewrite Hfree, Hc. cbn [fst snd]. eexists. split; [reflexivity|].
  repeat match goal with |- _ /\ _ => split end; try reflexivity.
  - rewrite getOrder_run. cbv zeta.
    cbn [env redisCalls clock cache set_logs set_cache set_redisCalls set_db
           set_uuidCalls set_storeCalls created Order.id].
    rewrite live_insert.
    destruct (redis_rejects (env w) (S (redisCalls w))); reflexivity.
  - rewrite getOrder_run. cbv zeta.
    cbn [env redisCalls clock cache set_logs set_cache set_redisCalls set_db
           set_uuidCalls set_storeCalls created Order.id].
    rewrite live_insert.
    destruct (redis_rejects (env w) (S (redisCalls w))); reflexivity.
  - unfold OrderQueueService.getOrderPriority. cbn.
    destruct (CreateOrderInput.type input); reflexivity.
Qed.

(** A market order created in a freshly started process. *)
Lemma createOrder_admission_witness :
  exists o,
    fst (createOrder
           {| CreateOrderInput.type := MARKET;
              CreateOrderInput.fromToken := "SOL";
              CreateOrderInput.toToken := "USDC";
              CreateOrderInput.amount := 10;
              CreateOrderInput.slippageTolerance := 0x1.47ae147ae147bp-7 |}
           (start calm_env [])) = Ok o
    /\ Order.status o = db_value PENDING
    /\ OrderQueueService.getOrderPriority o = 1%Z.
Proof.
  destruct (createOrder_admission
              {| CreateOrderInput.type := MARKET;
                 CreateOrderInput.fromToken := "SOL";
                 CreateOrderInput.toToken := "USDC";
                 CreateOrderInput.amount := 10;
                 CreateOrderInput.slippageTolerance := 0x1.47ae147ae147bp-7 |}
              (start calm_env []) eq_refl eq_refl eq_refl)
    as (o & H1 & _ & H2 & _ & _ & _ & _ & _ & _ & _ & _ & _ & _ & _ & _ & _
        & _ & H3 & _).
  exists o. repeat split; assumption.
Defined.

Lemma createOrder_stored (input : CreateOrderInput.t) (w : World) :
  createOrder input w =
  match prisma_order_create
          (toUpperCase (OrderType_value (CreateOrderInput.type input)))
          (toUpperCase (OrderStatus_value PENDING))
          (CreateOrderInput.fromToken input) (CreateOrderInput.toToken input)
          (CreateOrderInput.amount input)
          (CreateOrderInput.slippageTolerance input) w with
  | (Ok o, w1) =>
      match cacheOrder o w1 with
      | (Ok _, w2) =>
          (Ok o,
           set_logs (fun l => l ++ [(Info, "Order created successfully")]) w2)
      | (Throw e, w2) => (Throw e, w2)
      | (Cut, w2) => (Cut, w2)
      end
  | (Throw e, w1) => (Throw e, w1)
  | (Cut, w1) => (Cut, w1)
  end.
Proof.
  unfold createOrder. unfold bind at 1.
  destruct (prisma_order_create _ _ _ _ _ _ w) as [[o|e|] w1]; reflexivity.
Qed.

(** [createOrder] awaits the store call and then the cache write, and
    logs last.  When the store call rejects, the rejection is passed on
    and nothing else is done: no Redis call is made.  When the store call
    resolves with a row and the cache write is rejected, the call rejects
    with that rejection: the table is as the store call left it, with the
    row in it, the cache is as it was, and nothing was logged.  When both
    are answered the call resolves with the row, its JSON copy is cached
    for an hour, and the creation is logged. *)
Theorem createOrder_rejection (input : CreateOrderInput.t) (w : World) :
  let r := fst (createOrder input w) in
  let w' := snd (createOrder input w) in
  let stored :=
    prisma_order_create
      (toUpperCase (OrderType_value (CreateOrderInput.type input)))
      (toUpperCase (OrderStatus_value PENDING))
      (CreateOrderInput.fromToken input) (CreateOrderInput.toToken input)
      (CreateOrderInput.amount input)
      (CreateOrderInput.slippageTolerance input) w in
  let w1 := snd stored in
  (forall e, fst stored = Throw e -> r = Throw e /\ w' = w1)
  /\ (forall o e,
        fst stored = Ok o -> redis_rejects (env w1) (redisCalls w1) = Some e ->
        r = Throw e
        /\ db w' = db w1 /\ cache w' = cache w1 /\ logs w' = logs w1
        /\ trace w' = trace w1 ++ [ECacheReject ("order:" +:+ Order.id o) e])
  /\ (forall o,
        fst stored = Ok o -> redis_rejects (env w1) (redisCalls w1) = None ->
        r = Ok o
        /\ db w' = db w1 /\ trace w' = trace w1
        /\ cache w'
           = <["order:" +:+ Order.id o := cached_entry o (clock w1)]> (cache w1)
        /\ logs w' = logs w1 ++ [(Info, "Order created successfully")])
  /\ ((exists o, r = Ok o)
      <-> (exists o, fst stored = Ok o)
          /\ redis_rejects (env w1) (redisCalls w1) = None).
Proof.
  cbv zeta. rewrite createOrder_stored.
  destruct (prisma_order_create _ _ _ _ _ _ w) as [[o|e|] w1]; cbn [fst snd].
  - rewrite cacheOrder_run.
    destruct (redis_rejects (env w1) (redisCalls w1)) as [e|]; cbn [fst snd].
    + split; [discriminate|]. split.
      { intros o' e' H He. injection H as <-. injection He as <-.
        repeat split. }
      split; [discriminate|].
      split; [intros [o' H]; discriminate H|intros [_ H]; discriminate H].
    + split; [discriminate|]. split; [discriminate|]. split.
      { intros o' H _. injection H as <-. repeat split. }
      split; eauto.
  - split; [intros e' H; injection H as <-; split; reflexivity|].
    split; [discriminate|]. split; [discriminate|].
    split; [intros [o H]; discriminate H|intros [[o H] _]; discriminate H].
  - split; [discriminate|]. split; [discriminate|]. split; [discriminate|].
    split; [intros [o H]; discriminate H|intros [[o H] _]; discriminate H].
Qed.

(** [getOrder] reads through the cache.  Its Redis call comes first, and
    its rejection is passed on.  A live entry is returned as the cache has
    it, the parsed JSON copy, whatever the table holds and with no store
    call.  On a miss the table is asked once: a rejection of the database
    is passed on; a missing row gives [null] and is not cached; a row found
    is cached, and the call rejects when that cache write is rejected and
    resolves with the row itself otherwise, the next call then resolving
    with the JSON copy of the row.  The table is never changed. *)
Theorem getOrder_read_through (orderId : string) (w : World) :
  let key := "order:" +:+ orderId in
  let r := fst (getOrder orderId w) in
  let w1 := snd (getOrder orderId w) in
  let hit := live (clock w) (cache w) key in
  let answered := redis_rejects (env w) (redisCalls w) = None in
  let stored := store_rejects (env w) (storeCalls w) = None in
  (forall e, redis_rejects (env w) (redisCalls w) = Some e ->
     r = Throw e /\ storeCalls w1 = storeCalls w /\ cache w1 = cache w)
  /\ (forall c, answered -> hit = Some c ->
        r = Ok (Some (Cached c)) /\ storeCalls w1 = storeCalls w
        /\ cache w1 = cache w)
  /\ (answered -> hit = None -> storeCalls w1 = S (storeCalls w))
  /\ (forall e, answered -> hit = None ->
        store_rejects (env w) (storeCalls w) = Some e ->
        r = Throw e /\ cache w1 = cache w)
  /\ (answered -> hit = None -> stored -> db w !! orderId = None ->
      r = Ok None /\ cache w1 = cache w)
  /\ (forall o e, answered -> hit = None -> stored ->
        db w !! orderId = Some o ->
        redis_rejects (env w) (S (redisCalls w)) = Some e ->
        r = Throw e /\ cache w1 = cache w)
  /\ (forall o, answered -> hit = None -> stored ->
        db w !! orderId = Some o ->
        redis_rejects (env w) (S (redisCalls w)) = None ->
        r = Ok (Some (Row o))
        /\ cache w1
           = <["order:" +:+ Order.id o := cached_entry o (clock w)]> (cache w)
        /\ (Order.id o = orderId ->
            redis_rejects (env w) (S (S (redisCalls w))) = None ->
            fst (getOrder orderId w1) = Ok (Some (Cached (JSON_copy o)))))
  /\ db w1 = db w.
Proof.
  cbv zeta. rewrite getOrder_run. cbv zeta.
  destruct (redis_rejects (env w) (redisCalls w)) as [e|] eqn:Hr.
  { cbn [fst snd]. split.
    { intros e' H. injection H as <-. repeat split. }
    repeat split; intros; discriminate. }
  split; [discriminate|].
  destruct (live (clock w) (cache w) ("order:" +:+ orderId)) as [c|] eqn:Hc.
  { cbn [fst snd]. split.
    { intros c' _ H. injection H as <-. repeat split. }
    repeat split; intros; discriminate. }
  split; [discriminate|].
  destruct (store_rejects (env w) (storeCalls w)) as [e|] eqn:Ha.
  { cbn [fst snd]. split; [reflexivity|]. split.
    { intros e' _ _ H. injection H as <-. repeat split. }
    repeat split; intros; discriminate. }
  destruct (db w !! orderId) as [o|] eqn:Hrow.
  2:{ cbn [fst snd]. split; [reflexivity|]. split; [discriminate|].
      split; [repeat split|]. repeat split; intros; discriminate. }
  unfold bind, ret. rewrite cacheOrder_run.
  cbn [env redisCalls clock set_storeCalls set_redisCalls].
  destruct (redis_rejects (env w) (S (redisCalls w))) as [e|] eqn:Hr2;
    cbn [fst snd].
  - split; [reflexivity|]. split; [discriminate|]. split; [discriminate|].
    split.
    { intros o' e' _ _ _ H He. injection He as <-. repeat split. }
    split; [|reflexivity]. intros o' _ _ _ _ H. discriminate H.
  - split; [reflexivity|]. split; [discriminate|]. split; [discriminate|].
    split; [intros o' e' _ _ _ _ H; discriminate H|].
    split; [|reflexivity].
    intros o' _ _ _ H _. injection H as <-.
    split; [reflexivity|]. split; [reflexivity|].
    intros Hid Hr3. rewrite getOrder_run. cbv zeta.
    cbn [env redisCalls clock cache set_cache set_storeCalls set_redisCalls].
    rewrite Hr3, Hid, live_insert. reflexivity.
Qed.

End StoreAndCache.

(** ** The queue *)

Section QueueOrder.
Import OrderQueueService.

(** [getOrderPriority] returns 1, 2, 3 or 5, and compares the kind with
    the database spellings only: an order whose kind is spelled as the
    request spells it, in lower case, gets 5 whatever its kind, while the
    same kind in the database spelling gets its own priority. *)
Theorem getOrderPriority_spelling (order : Order.t) :
  (getOrderPriority order = 1 \/ getOrderPriority order = 2
   \/ getOrderPriority order = 3 \/ getOrderPriority order = 5)%Z
  /\ (forall t : OrderType,
        Order.type order = OrderType_value t -> getOrderPriority order = 5%Z)
  /\ (forall t : OrderType,
        Order.type order = toUpperCase (OrderType_value t) ->
        getOrderPriority order
        = match t with
          | MARKET => 1%Z
          | LIMIT => 2%Z
          | SNIPER => 3%Z
          end)
  /\ (getOrderPriority order = 1%Z <-> Order.type order = "MARKET").
Proof.
  unfold getOrderPriority. repeat split.
  - destruct (String.eqb _ "MARKET"); [tauto|].
    destruct (String.eqb _ "LIMIT"); [tauto|].
    destruct (String.eqb _ "SNIPER"); tauto.
  - intros t ->. destruct t; reflexivity.
  - intros t ->. destruct t; reflexivity.
  - destruct (String.eqb_spec (Order.type order) "MARKET") as [E|E];
      [intros _; exact E|].
    destruct (String.eqb _ "LIMIT"); [discriminate|].
    destruct (String.eqb _ "SNIPER"); discriminate.
  - intros ->. reflexivity.
Qed.

End QueueOrder.

(** ** The stages of an attempt *)

Section Stages.
Import OrderService OrderExecutionService.

Ltac ext_tac :=
  split; cbn;
  [reflexivity | intros; tauto | rewrite ?app_nil_r; reflexivity].

Lemma nan_compare (x y : float) :
  PrimFloat.is_nan x = true ->
  SFcompare (Prim2SF x) (Prim2SF y) = None
  /\ SFcompare (Prim2SF y) (Prim2SF x) = None.
Proof.
  unfold PrimFloat.is_nan. rewrite negb_true_iff, FloatAxioms.eqb_spec.
  unfold SFeqb. destruct (Prim2SF x) as [s|s| |s m e]; cbn.
  - discriminate.
  - destruct s; discriminate.
  - intros _. split; [reflexivity|]. destruct (Prim2SF y); reflexivity.
  - change (IntDef.Z.compare e e) with (Z.compare e e).
    rewrite Z.compare_refl.
    change (PosDef.Pos.compare_cont Eq m m) with (Pos.compare_cont Eq m m).
    rewrite Pos.compare_cont_refl. destruct s; discriminate.
Qed.

Lemma js_gt_nan (a b : float) :
  PrimFloat.is_nan a = true -> js_gt a b = false /\ js_gt b a = false.
Proof.
  intros H. destruct (nan_compare a b H) as [H1 H2].
  unfold js_gt. rewrite !FloatAxioms.ltb_spec. unfold SFltb.
  rewrite H1, H2. split; reflexivity.
Qed.

(** [buildTransaction] waits 500 ms in every case, and then throws
    exactly when the quote's price impact is above the order's tolerance;
    an impact equal to the tolerance passes, and so does one that is not a
    number.  The transaction built carries the quote's venue and output
    and the order's tokens, amount and tolerance. *)
Theorem buildTransaction_slippage_guard (order : Order.t) (quote : DexQuote.t)
    (w : World) :
  let r := fst (buildTransaction order quote w) in
  let w' := snd (buildTransaction order quote w) in
  let impact := DexQuote.priceImpact quote in
  let tolerance := Order.slippageTolerance order in
  new_trace w w' = [EDelay 500]
  /\ clock w' = (clock w + 500)%Z /\ db w' = db w
  /\ ((exists e, r = Throw e) <-> js_gt impact tolerance = true)
  /\ (forall e, r = Throw e ->
        message e
        = "Price impact " +:+ numberToString (env w) impact
          +:+ " exceeds max slippage " +:+ numberToString (env w) tolerance)
  /\ (forall t, r = Ok t ->
        Transaction.dex t = DexQuote.dex quote
        /\ Transaction.expectedOutput t = DexQuote.outputAmount quote
        /\ Transaction.fromToken t = Order.fromToken order
        /\ Transaction.toToken t = Order.toToken order
        /\ Transaction.amount t = Order.amount order
        /\ Transaction.slippage t = tolerance
        /\ Transaction.timestamp t = (clock w + 500)%Z)
  /\ (PrimFloat.eqb impact tolerance = true -> exists t, r = Ok t)
  /\ (PrimFloat.is_nan impact = true -> exists t, r = Ok t).
Proof.
  cbv zeta. rewrite buildTransaction_run. cbv zeta.
  assert (Heq : PrimFloat.eqb (DexQuote.priceImpact quote)
                  (Order.slippageTolerance order) = true ->
                js_gt (DexQuote.priceImpact quote)
                  (Order.slippageTolerance order) = false).
  { intros H. unfold js_gt. apply float_eqb_not_ltb, H. }
  assert (Hnan : PrimFloat.is_nan (DexQuote.priceImpact quote) = true ->
                 js_gt (DexQuote.priceImpact quote)
                   (Order.slippageTolerance order) = false).
  { intros H. exact (proj1 (js_gt_nan _ _ H)). }
  destruct (js_gt (DexQuote.priceImpact quote) (Order.slippageTolerance order));
    cbn [fst snd].
  - split; [apply new_trace_app; reflexivity|]. split; [reflexivity|].
    split; [reflexivity|]. split; [split; eauto|].
    split; [intros e H; injection H as <-; reflexivity|].
    split; [discriminate|].
    split; intros H; [apply Heq in H|apply Hnan in H]; discriminate H.
  - split; [apply new_trace_app; reflexivity|]. split; [reflexivity|].
    split; [reflexivity|].
    split; [split; [intros [e H]; discriminate H|discriminate]|].
    split; [discriminate|].
    split; [intros t H; injection H as <-; repeat split|].
    split; eauto.
Qed.

Lemma removeDashes_clean (s : string) :
  forall c, c ∈ list_ascii_of_string (removeDashes s) -> c <> "-"%char.
Proof.
  induction s as [|a s IH]; cbn; intros c Hc; [inversion Hc|].
  destruct (Ascii.eqb_spec a "-"%char) as [E|E]; [exact (IH c Hc)|].
  cbn in Hc. apply elem_of_cons in Hc as [->|Hc]; [exact E|exact (IH c Hc)].
Qed.

(** [submitTransaction] awaits a timer of the configured delay (the delay
    itself when it lies between 1 ms and [TIMEOUT_MAX], 1 ms otherwise) and
    takes one random draw in every case; it throws the network error
    exactly when the draw is below 0.05, and otherwise resolves with the
    next uuid stripped of its dashes, which is the only case in which a
    uuid is drawn. *)
Theorem submitTransaction_outcome (t : Transaction.t) (order : Order.t)
    (quote : DexQuote.t) (w : World) :
  let r := fst (submitTransaction t order quote w) in
  let w' := snd (submitTransaction t order quote w) in
  let draw := random (env w) (randomCalls w) in
  let ms := mockExecutionDelay (config (env w)) in
  new_trace w w' = [EDelay (timeout ms)]
  /\ clock w' = (clock w + timeout ms)%Z
  /\ ((1 <= ms <= TIMEOUT_MAX)%Z -> timeout ms = ms)
  /\ randomCalls w' = S (randomCalls w) /\ db w' = db w
  /\ (js_lt draw 0x1.999999999999ap-5%float = true ->
      r = Throw {| message := "Network error: Transaction failed to submit" |}
      /\ uuidCalls w' = uuidCalls w)
  /\ (js_lt draw 0x1.999999999999ap-5%float = false ->
      exists h, r = Ok h
                /\ h = removeDashes (uuid (env w) (uuidCalls w))
                /\ (forall c, c ∈ list_ascii_of_string h -> c <> "-"%char)
                /\ uuidCalls w' = S (uuidCalls w)).
Proof.
  cbv zeta. rewrite submitTransaction_run. cbv zeta.
  assert (Hin : (1 <= mockExecutionDelay (config (env w)) <= TIMEOUT_MAX)%Z ->
                timeout (mockExecutionDelay (config (env w)))
                = mockExecutionDelay (config (env w))).
  { intros [H1 H2]. unfold timeout.
    apply Z.leb_le in H1, H2. rewrite H1, H2. reflexivity. }
  destruct (js_lt _ _); cbn [fst snd].
  - split; [apply new_trace_app; reflexivity|]. split; [reflexivity|].
    split; [exact Hin|]. repeat split; discriminate.
  - split; [apply new_trace_app; reflexivity|]. split; [reflexivity|].
    split; [exact Hin|].
    repeat split; try discriminate.
    intros _. eexists. repeat split. apply removeDashes_clean.
Qed.

(** The status hook as [index.ts] installs it never throws: it publishes
    one event, stamped with the current time and carrying the status,
    message and data it was given, has [send] called on the open
    subscribers of the order, and leaves the table, the clock and the
    store counter as they were. *)
Theorem emitStatusUpdate_publishes (orderId : string) (s : OrderStatus)
    (msg : string) (ev : option EventData.t) (w : World) :
  let w' := snd (emitStatusUpdate orderId s msg ev w) in
  let u := {| OrderStatusUpdate.orderId := orderId;
              OrderStatusUpdate.status := s;
              OrderStatusUpdate.message := msg;
              OrderStatusUpdate.data := ev;
              OrderStatusUpdate.timestamp := clock w |} in
  fst (emitStatusUpdate orderId s msg ev w) = Ok tt
  /\ new_trace w w'
     = EPublish u :: (delivery u <$> List.filter is_open (subscribers orderId w))
  /\ published orderId (new_trace w w') = [u]
  /\ persisted orderId (new_trace w w') = []
  /\ db w' = db w /\ clock w' = clock w /\ storeCalls w' = storeCalls w.
Proof.
  cbv zeta.
  destruct (emitStatusUpdate_spec orderId s msg ev w)
    as (Hr & Ht & _ & Hd & Hc & Hs).
  rewrite (new_trace_app _ _ _ Ht).
  split; [exact Hr|]. split; [reflexivity|].
  split.
  { rewrite published_cons, published_deliveries. cbn.
    rewrite String.eqb_refl. reflexivity. }
  split; [rewrite persisted_cons, persisted_deliveries; reflexivity|].
  repeat split; assumption.
Qed.

(** [processOrder] adds nothing to what [executeMarketOrder] does but two
    log lines: it has the same outcome, throws the same error, and leaves
    the same table, history, registry and timers. *)
Theorem processOrder_rethrows (depth : nat) (order : Order.t) (w : World) :
  let r := fst (executeMarketOrder depth order 0 (dequeued w)) in
  let w1 := snd (executeMarketOrder depth order 0 (dequeued w)) in
  let w' := snd (OrderQueueService.processOrder depth order w) in
  fst (OrderQueueService.processOrder depth order w) = r
  /\ db w' = db w1 /\ trace w' = trace w1
  /\ connections w' = connections w1 /\ timers w' = timers w1
  /\ logs w'
     = logs w1 ++ match r with
                  | Throw _ => [(Error, "Order processing failed")]
                  | _ => []
                  end.
Proof.
  cbv zeta. rewrite processOrder_eq.
  destruct (executeMarketOrder depth order 0 (dequeued w)) as [[[]|e|] w1];
    cbn [fst snd]; repeat split; cbn; rewrite ?app_nil_r; reflexivity.
Qed.

End Stages.

(** ** The base price of a pair *)

Section BasePrice.
Import DexRouterService.

Lemma list_ascii_of_string_app (a b : string) :
  list_ascii_of_string (a +:+ b)
  = list_ascii_of_string a ++ list_ascii_of_string b.
Proof.
  induction a as [|c a IH]; [reflexivity|].
  change (String c a +:+ b) with (String c (a +:+ b)).
  cbn [list_ascii_of_string app]. rewrite IH. reflexivity.
Qed.

Lemma charCodeSum_app (a b : string) :
  charCodeSum (a +:+ b) = (charCodeSum a + charCodeSum b)%Z.
Proof.
  unfold charCodeSum. rewrite list_ascii_of_string_app.
  induction (list_ascii_of_string a) as [|c l IH]; cbn; [reflexivity|].
  rewrite IH. lia.
Qed.

Lemma charCodeSum_nonneg (a : string) : (0 <= charCodeSum a)%Z.
Proof. unfold charCodeSum. induction a as [|c a IH]; cbn; lia. Qed.

(** [generateBasePrice] gives a pair the same price in both directions,
    a price that depends on the names only through the sum of their
    character codes modulo 100, and one that lies between 0.1 and 10. *)
Theorem generateBasePrice_range (a b : string) :
  generateBasePrice a b = generateBasePrice b a
  /\ PrimFloat.leb 0x1.999999999999ap-4 (generateBasePrice a b) = true
  /\ PrimFloat.leb (generateBasePrice a b) 10 = true
  /\ (forall a' b',
        ((charCodeSum a' + charCodeSum b') mod 100
         = (charCodeSum a + charCodeSum b) mod 100)%Z ->
        generateBasePrice a' b' = generateBasePrice a b).
Proof.
  unfold generateBasePrice. cbv zeta. rewrite !charCodeSum_app.
  split; [rewrite Z.add_comm; reflexivity|].
  assert (Hall : forallb (fun k =>
            let p := (0x1.999999999999ap-4
                      + PrimFloat.of_uint63 (Uint63.of_Z (Z.of_nat k)) / 10)%float in
            PrimFloat.leb 0x1.999999999999ap-4 p && PrimFloat.leb p 10)
            (seq 0 100) = true) by (vm_compute; reflexivity).
  rewrite forallb_forall in Hall.
  pose proof (Z.mod_pos_bound (charCodeSum a + charCodeSum b) 100 ltac:(lia))
    as Hr.
  specialize (Hall (Z.to_nat ((charCodeSum a + charCodeSum b) mod 100))).
  rewrite Z2Nat.id in Hall by lia. cbv zeta in Hall.
  destruct (andb_prop _ _ (Hall ltac:(apply in_seq; lia))) as [H1 H2].
  split; [exact H1|]. split; [exact H2|].
  intros a' b' H. rewrite !charCodeSum_app, H. reflexivity.
Qed.

End BasePrice.


(** ** An attempt in which nothing fails *)

Section CalmAttempt.
Import OrderService OrderExecutionService.

Lemma emitStatusUpdate_counters (orderId : string) (s : OrderStatus)
    (msg : string) (ev : option EventData.t) (w : World) :
  let w' := snd (emitStatusUpdate orderId s msg ev w) in
  redisCalls w' = redisCalls w /\ randomCalls w' = randomCalls w
  /\ uuidCalls w' = uuidCalls w /\ cache w' = cache w.
Proof.
  cbv zeta. unfold emitStatusUpdate, Date_now. rewrite bind_gets.
  cbv zeta. unfold effect. rewrite bind_modify.
  match goal with
  | |- context [WebSocketService.broadcastStatusUpdate ?u ?w1] =>
      destruct (decide (subscribers (OrderStatusUpdate.orderId u) w1 = []))
        as [E|E];
      [rewrite (broadcastStatusUpdate_none u w1 E)
      |destruct (broadcastStatusUpdate_some u w1 E) as [lg H]; rewrite H]
  end; repeat split.
Qed.

(** A transition when the database and Redis answer. *)
Lemma transition_known (orderId : string) (s : OrderStatus)
    (data : option StatusData.t) (msg : string) (ev : option EventData.t)
    (w : World) (e : Env) (now : Z) (row : Order.t) (r u : nat)
    (tr : list Effect) :
  Known w e now orderId row r u tr ->
  (forall n, store_rejects e n = None) ->
  (forall n, redis_rejects e n = None) ->
  exists w2 blk,
    (forall A (k : M A),
       bind (updateOrderStatus orderId s data)
         (fun _ => bind (emitStatusUpdate orderId s msg ev) (fun _ => k)) w
       = k w2)
    /\ Transition orderId s blk
    /\ Known w2 e now orderId (applyUpdate (status_update now s data) row)
         r u (tr ++ blk).
Proof.
  intros [He Hc Hrow Hr Hu Ht] Hans Hred.
  set (o' := applyUpdate (status_update now s data) row).
  assert (Hupd : updateOrderStatus orderId s data w
                 = (Ok o',
                    set_cache
                      (insert ("order:" +:+ Order.id o') (cached_entry o' now))
                      (set_redisCalls S
                         (set_trace
                            (fun t => t ++ [EStoreUpdate orderId
                                              (status_update now s data)])
                            (set_db (insert orderId o')
                               (set_storeCalls S w)))))).
  { rewrite updateOrderStatus_run, prisma_order_update_run, He, Hans, Hrow, Hc.
    rewrite cacheOrder_run. cbn [env redisCalls set_trace set_db set_storeCalls].
    rewrite He, Hred. cbn [clock set_trace set_db set_storeCalls].
    rewrite Hc. reflexivity. }
  match type of Hupd with _ = (_, ?w1) => set (w1' := w1) in * end.
  destruct (emitStatusUpdate_spec orderId s msg ev w1')
    as (Hr1 & Ht1 & He1 & Hd1 & Hc1 & _).
  destruct (emitStatusUpdate_counters orderId s msg ev w1')
    as (_ & Hr2 & Hu1 & _).
  eexists (snd (emitStatusUpdate orderId s msg ev w1')), _.
  split; [|split].
  - intros A k. rewrite (bind_ok _ _ _ _ _ Hupd).
    exact (bind_fst_ok (emitStatusUpdate orderId s msg ev) (fun _ => k) w1' tt Hr1).
  - apply (Transition_intro orderId s (status_update now s data)
             {| OrderStatusUpdate.orderId := orderId;
                OrderStatusUpdate.status := s;
                OrderStatusUpdate.message := msg;
                OrderStatusUpdate.data := ev;
                OrderStatusUpdate.timestamp := clock w1' |}
             (List.filter is_open (subscribers orderId w1'))); reflexivity.
  - split.
    + rewrite He1. exact He.
    + rewrite Hc1. exact Hc.
    + rewrite Hd1. cbn. apply lookup_insert_eq.
    + rewrite Hr2. exact Hr.
    + rewrite Hu1. exact Hu.
    + rewrite Ht1.
      cbn [trace w1' set_cache set_redisCalls set_trace set_db set_storeCalls].
      rewrite Ht, <- app_assoc. reflexivity.
Qed.

Lemma Known_logs (f : list (LogLevel * string) -> list (LogLevel * string))
    (w : World) (e : Env) (now : Z) (id : string) (row : Order.t)
    (r u : nat) (tr : list Effect) :
  Known w e now id row r u tr -> Known (set_logs f w) e now id row r u tr.
Proof. intros [? ? ? ? ? ?]. split; assumption. Qed.

Lemma Known_waited (ms : Z) (w : World) (e : Env) (now : Z) (id : string)
    (row : Order.t) (r u : nat) (tr : list Effect) :
  Known w e now id row r u tr ->
  Known (set_clock (fun c => (c + ms)%Z)
           (set_trace (fun t => t ++ [EDelay ms]) w))
    e (now + ms) id row r u (tr ++ [EDelay ms]).
Proof. intros [? ? ? ? ? ?]. split; cbn; congruence. Qed.

Lemma Known_drawn (w : World) (e : Env) (now : Z) (id : string)
    (row : Order.t) (r u : nat) (tr : list Effect) :
  Known w e now id row r u tr ->
  Known (set_uuidCalls S (set_randomCalls S w)) e now id row (S r) (S u) tr.
Proof. intros [? ? ? ? ? ?]. split; cbn; congruence. Qed.

(** [getQuotes] on a known world: six draws, the two timers, and the
    clock moved by the longer delay. *)
Lemma getQuotes_known (order : Order.t) (w : World) (e : Env) (now : Z)
    (id : string) (row : Order.t) (r u : nat) (tr : list Effect) :
  Known w e now id row r u tr ->
  exists w2,
    DexRouterService.getQuotes (Order.fromToken order) (Order.toToken order)
      (Order.amount order) w
    = (Ok (quotes_at e r now order), w2)
    /\ Known w2 e (now + quotes_wait e r) id row (6 + r) u
         (tr ++ [EDelay (venue_wait (random e r));
                 EDelay (venue_wait (random e (1 + r)))]).
Proof.
  intros [He Hc Hrow Hr Hu Ht].
  unfold DexRouterService.getQuotes, Promise_all,
    DexRouterService.fetchRaydiumQuote, DexRouterService.fetchMeteoraQuote,
    DexRouterService.fetchQuote, upto_await, from_await, Math_random,
    Date_now, advance, effect, log, bind, gets, modify, ret.
  cbn [fst snd].
  cbn [env randomCalls clock set_logs set_randomCalls set_trace set_clock].
  rewrite He, Hr.
  unfold quotes_at, quotes_wait. fold (venue_wait (random e r)).
  change (S r) with (1 + r)%nat. fold (venue_wait (random e (1 + r))).
  destruct (Z.leb_spec (venue_wait (random e r))
              (venue_wait (random e (1 + r)))) as [Hle|Hlt];
    cbn [env randomCalls clock set_logs set_randomCalls set_trace set_clock];
    rewrite He, Hr, Hc;
    set (wait_r := venue_wait (random e r)) in *;
    set (wait_m := venue_wait (random e (1 + r))) in *;
    [replace (now + wait_r + (wait_m - wait_r))%Z with (now + wait_m)%Z by lia
    |replace (now + wait_m + (wait_r - wait_m))%Z with (now + wait_r)%Z by lia];
    eexists; (split; [reflexivity|]);
    split; cbn; try congruence; try lia;
    rewrite Ht, <- app_assoc; reflexivity.
Qed.

Lemma Transition_persisted (orderId : string) (s : OrderStatus)
    (blk : list Effect) :
  Transition orderId s blk -> persisted orderId blk = [db_value s].
Proof.
  intros T. rewrite persisted_marks, (Transition_marks _ _ _ T).
  unfold transition, written. cbn. rewrite String.eqb_refl. reflexivity.
Qed.

Lemma Transition_delays (orderId : string) (s : OrderStatus)
    (blk : list Effect) :
  Transition orderId s blk -> delays blk = [].
Proof.
  intros [d u l Hd Hu Hs].
  change (EStoreUpdate orderId d :: EPublish u :: (delivery u <$> l))
    with ([EStoreUpdate orderId d; EPublish u] ++ (delivery u <$> l)).
  rewrite delays_app, delays_deliveries. reflexivity.
Qed.

(** An attempt when the database and Redis answer, the chosen quote's
    price impact is within the tolerance and the seventh draw is not
    below 0.05. *)
Lemma calm_attempt (order : Order.t) (w : World) (e : Env) (now : Z)
    (row : Order.t) (r u : nat) (tr : list Effect) :
  let ray := fst (quotes_at e r now order) in
  let met := snd (quotes_at e r now order) in
  Known w e now (Order.id order) row r u tr ->
  (forall n, store_rejects e n = None) ->
  (forall n, redis_rejects e n = None) ->
  js_gt (DexQuote.priceImpact (best_of ray met)) (Order.slippageTolerance order)
  = false ->
  js_lt (random e (6 + r)) 0x1.999999999999ap-5%float = false ->
  let ms := timeout (mockExecutionDelay (config e)) in
  let id := Order.id order in
  exists w' l,
    executeMarketOrder_try order w = (Ok tt, w')
    /\ Known w' e (now + quotes_wait e r + 500 + ms) id
         (confirmed_row order e now row r u) (7 + r) (S u) (tr ++ l)
    /\ persisted id l = db_value <$> pipeline
    /\ delays l = [venue_wait (random e r); venue_wait (random e (1 + r));
                   500%Z; ms]
    /\ rejections l = []
    /\ cache_rejections l = [].
Proof.
  intros ray met K Hans Hred Himpact Hdraw. cbv zeta.
  unfold executeMarketOrder_try. cbv zeta.
  destruct (transition_known _ ROUTING None "Comparing DEX prices" None
              _ _ _ _ _ _ _ K Hans Hred) as (w1 & b1 & H1 & T1 & K1).
  rewrite H1. clear H1.
  destruct (getQuotes_known order _ _ _ _ _ _ _ _ K1) as (w2 & Hq & K2).
  rewrite (bind_ok _ _ _ _ _ Hq). clear Hq. cbn [fst snd].
  fold ray met.
  rewrite (bind_ok _ _ _ _ _ (validateQuotes_run ray met _)).
  match goal with
  | |- context [bind (DexRouterService.selectBestDex _ _) _ ?w3] =>
      assert (K3 : Known w3 e (now + quotes_wait e r) (Order.id order)
                     (applyUpdate (status_update now ROUTING None) row)
                     (6 + r) u
                     (tr ++ b1 ++ [EDelay (venue_wait (random e r));
                                   EDelay (venue_wait (random e (1 + r)))]))
        by (rewrite app_assoc; destruct (js_gt _ 10);
            [apply Known_logs|]; exact K2);
      rewrite (bind_ok _ _ _ _ _ (selectBestDex_run ray met w3))
  end.
  fold (best_of ray met).
  pose proof (Known_logs
                (fun l => l ++ [(Info, "Selected best DEX for execution")])
                _ _ _ _ _ _ _ _ K3) as K4.
  destruct (transition_known _ ROUTING
              (Some {| StatusData.selectedDex :=
                         Some (DexType_value (DexQuote.dex (best_of ray met)));
                       StatusData.raydiumPrice := Some (DexQuote.price ray);
                       StatusData.meteoraPrice := Some (DexQuote.price met);
                       StatusData.executionPrice := None;
                       StatusData.txHash := None;
                       StatusData.failureReason := None |})
              "Best DEX selected"
              (Some {| EventData.selectedDex := Some (DexQuote.dex (best_of ray met));
                       EventData.raydiumPrice := Some (DexQuote.price ray);
                       EventData.meteoraPrice := Some (DexQuote.price met);
                       EventData.executionPrice := None;
                       EventData.txHash := None;
                       EventData.error := None |})
              _ _ _ _ _ _ _ K4 Hans Hred) as (w5 & b5 & H5 & T5 & K5).
  rewrite H5. clear H5.
  destruct (transition_known _ BUILDING None "Creating transaction" None
              _ _ _ _ _ _ _ K5 Hans Hred) as (w6 & b6 & H6 & T6 & K6).
  rewrite H6. clear H6.
  assert (Hb : exists t, buildTransaction order (best_of ray met) w6
                 = (Ok t,
                    set_clock (fun c => (c + 500)%Z)
                      (set_trace (fun t => t ++ [EDelay 500]) w6))).
  { rewrite buildTransaction_run, Himpact. eexists. reflexivity. }
  destruct Hb as [t Hb]. rewrite (bind_ok _ _ _ _ _ Hb). clear Hb.
  pose proof (Known_waited 500 _ _ _ _ _ _ _ _ K6) as K7.
  destruct (transition_known _ SUBMITTED None "Transaction sent to network" None
              _ _ _ _ _ _ _ K7 Hans Hred) as (w8 & b8 & H8 & T8 & K8).
  rewrite H8. clear H8.
  set (ms := timeout (mockExecutionDelay (config e))).
  assert (Hs : submitTransaction t order (best_of ray met) w8
               = (Ok (removeDashes (uuid e u)),
                  set_logs
                    (fun l => l ++ [(Info, "Transaction submitted successfully")])
                    (set_uuidCalls S
                       (set_randomCalls S
                          (set_clock (fun c => (c + ms)%Z)
                             (set_trace (fun t => t ++ [EDelay ms]) w8)))))).
  { rewrite submitTransaction_run, (known_env _ _ _ _ _ _ _ _ K8),
      (known_draws _ _ _ _ _ _ _ _ K8), (known_ids _ _ _ _ _ _ _ _ K8),
      Hdraw. reflexivity. }
  rewrite (bind_ok _ _ _ _ _ Hs). clear Hs.
  pose proof (Known_logs
                (fun l => l ++ [(Info, "Transaction submitted successfully")])
                _ _ _ _ _ _ _ _
                (Known_drawn _ _ _ _ _ _ _ _
                   (Known_waited ms _ _ _ _ _ _ _ _ K8))) as K9.
  destruct (transition_known _ CONFIRMED
              (Some {| StatusData.selectedDex := None;
                       StatusData.raydiumPrice := None;
                       StatusData.meteoraPrice := None;
                       StatusData.executionPrice :=
                         Some (DexQuote.price (best_of ray met));
                       StatusData.txHash := Some (removeDashes (uuid e u));
                       StatusData.failureReason := None |})
              "Transaction successful"
              (Some {| EventData.selectedDex := None;
                       EventData.raydiumPrice := None;
                       EventData.meteoraPrice := None;
                       EventData.executionPrice :=
                         Some (DexQuote.price (best_of ray met));
                       EventData.txHash := Some (removeDashes (uuid e u));
                       EventData.error := None |})
              _ _ _ _ _ _ _ K9 Hans Hred) as (w10 & b10 & H10 & T10 & K10).
  rewrite H10. clear H10.
  eexists _, (b1 ++ [EDelay (venue_wait (random e r));
                     EDelay (venue_wait (random e (1 + r)))]
              ++ b5 ++ b6 ++ [EDelay 500] ++ b8 ++ [EDelay ms] ++ b10).
  split; [reflexivity|]. split.
  { unfold confirmed_row. fold ray met. fold ms.
    apply Known_logs.
    rewrite <- !app_assoc in K10. exact K10. }
  rewrite !persisted_app, !delays_app, !rejections_app, !cache_rejections_app,
    (Transition_persisted _ _ _ T1), (Transition_persisted _ _ _ T5),
    (Transition_persisted _ _ _ T6), (Transition_persisted _ _ _ T8),
    (Transition_persisted _ _ _ T10),
    (Transition_delays _ _ _ T1), (Transition_delays _ _ _ T5),
    (Transition_delays _ _ _ T6), (Transition_delays _ _ _ T8),
    (Transition_delays _ _ _ T10),
    (Transition_rejections _ _ _ T1), (Transition_rejections _ _ _ T5),
    (Transition_rejections _ _ _ T6), (Transition_rejections _ _ _ T8),
    (Transition_rejections _ _ _ T10),
    (Transition_cache _ _ _ T1), (Transition_cache _ _ _ T5),
    (Transition_cache _ _ _ T6), (Transition_cache _ _ _ T8),
    (Transition_cache _ _ _ T10).
  repeat split.
Qed.

(** The happy path.  When the database and Redis answer, the
    quote chosen among the two that the venues make from the next six
    draws has a price impact within the order's tolerance, and the
    seventh draw is not below 0.05, [executeMarketOrder] resolves in its
    first attempt, whatever the attempt number: it writes the five
    statuses of the pipeline, awaits the two venues' timers, 500 ms and
    the configured execution delay as Node's timer takes it, the clock
    ending at the longer of the two venue delays plus the other two, and
    leaves the row [CONFIRMED], with the chosen venue in the database
    spelling, the two venues' prices and the execution price where they
    are truthy, the uuid without its dashes as transaction hash, the
    completion time, and the retry counter and failure reason it had. *)
Theorem calm_execution (depth : nat) (order : Order.t) (n : nat) (w : World)
    (row : Order.t) :
  let e := env w in
  let ray := fst (quotes_at e (randomCalls w) (clock w) order) in
  let met := snd (quotes_at e (randomCalls w) (clock w) order) in
  let best := best_of ray met in
  db w !! Order.id order = Some row ->
  (forall k, store_rejects e k = None) ->
  (forall k, redis_rejects e k = None) ->
  js_gt (DexQuote.priceImpact best) (Order.slippageTolerance order) = false ->
  js_lt (random e (6 + randomCalls w)) 0x1.999999999999ap-5%float = false ->
  let id := Order.id order in
  let wait_r := venue_wait (random e (randomCalls w)) in
  let wait_m := venue_wait (random e (1 + randomCalls w)) in
  let ms := timeout (mockExecutionDelay (config e)) in
  let finished := (clock w + Z.max wait_r wait_m + 500 + ms)%Z in
  let w' := snd (executeMarketOrder depth order n w) in
  let l := new_trace w w' in
  let h := removeDashes (uuid e (uuidCalls w)) in
  fst (executeMarketOrder depth order n w) = Ok tt
  /\ persisted id l = db_value <$> pipeline
  /\ delays l = [wait_r; wait_m; 500%Z; ms]
  /\ rejections l = []
  /\ cache_rejections l = []
  /\ clock w' = finished
  /\ randomCalls w' = (7 + randomCalls w)%nat
  /\ exists o',
       db w' !! id = Some o'
       /\ Order.status o' = db_value CONFIRMED
       /\ Order.selectedDex o'
          = Some (toUpperCase (DexType_value (DexQuote.dex best)))
       /\ Order.raydiumPrice o'
          = (if truthy_number (DexQuote.price ray)
             then Some (DexQuote.price ray) else Order.raydiumPrice row)
       /\ Order.meteoraPrice o'
          = (if truthy_number (DexQuote.price met)
             then Some (DexQuote.price met) else Order.meteoraPrice row)
       /\ Order.executionPrice o'
          = (if truthy_number (DexQuote.price best)
             then Some (DexQuote.price best) else Order.executionPrice row)
       /\ Order.txHash o'
          = (if truthy_string h then Some h else Order.txHash row)
       /\ Order.completedAt o' = Some finished
       /\ Order.retryCount o' = Order.retryCount row
       /\ Order.failureReason o' = Order.failureReason row.
Proof.
  intros e ray met best Hrow Hans Hred Himpact Hdraw. cbv zeta.
  rewrite executeMarketOrder_eq.
  assert (K : Known (entered w) e (clock w) (Order.id order) row
                (randomCalls w) (uuidCalls w) (trace w))
    by (split; try reflexivity; exact Hrow).
  destruct (calm_attempt order (entered w) _ _ _ _ _ _ K Hans Hred
              Himpact Hdraw) as (w' & l & Htry & K' & P & D & R & C).
  rewrite Htry. cbn [fst snd].
  destruct K' as [_ Hc Hr Hd _ Ht].
  rewrite (new_trace_app _ _ _ Ht).
  split; [reflexivity|]. split; [exact P|]. split; [exact D|].
  split; [exact R|]. split; [exact C|]. split; [exact Hc|].
  split; [exact Hd|].
  eexists. split; [exact Hr|]. unfold confirmed_row.
  fold e ray met. fold best.
  repeat match goal with |- _ /\ _ => split end; cbn.
  - reflexivity.
  - destruct (DexQuote.dex best); reflexivity.
  - destruct (truthy_number (DexQuote.price ray)); reflexivity.
  - destruct (truthy_number (DexQuote.price met)); reflexivity.
  - destruct (truthy_number (DexQuote.price best)); reflexivity.
  - destruct (truthy_string _); reflexivity.
  - reflexivity.
  - lia.
  - reflexivity.
Qed.

(** The sample order in the environment whose draws are all 0.5: both
    venues answer after 2500 ms, Meteora's quote is not beaten and the
    order is confirmed 5500 ms after its execution began. *)
Lemma calm_execution_witness :
  let w := start calm_env [sample_order] in
  let w' := snd (executeMarketOrder 3 sample_order 0 w) in
  delays (new_trace w w') = [2500; 2500; 500; 2500]%Z
  /\ clock w' = (clock w + 5500)%Z
  /\ exists o',
       db w' !! Order.id sample_order = Some o'
       /\ Order.status o' = db_value CONFIRMED
       /\ Order.selectedDex o' = Some "METEORA".
Proof.
  destruct (calm_execution 3 sample_order 0 (start calm_env [sample_order])
              sample_order
              ltac:(vm_compute; reflexivity) (fun _ => eq_refl)
              (fun _ => eq_refl)
              ltac:(vm_compute; reflexivity) ltac:(vm_compute; reflexivity))
    as (_ & _ & D & _ & _ & Hc & _ & o' & H1 & H2 & H3 & _).
  split; [exact D|]. split; [exact Hc|].
  exists o'. repeat split; assumption.
Defined.

End CalmAttempt.
